(** * Prism: field inference, chart-field selection, dataset reduction, cache

    A shallow embedding of the algorithmic core of the dashboard:

    - [Double]: JavaScript numbers (IEEE 754 binary64, round to nearest even);
    - [JS]: cell values, [parseFloat], the regular expressions of the
      sources, [Set] sizes and [Array.prototype.sort];
    - [DataCache] and [Reducer]: lib/utils/data-cache.ts;
    - [Stats]: lib/services/data-analysis.ts ([getDatasetStats]);
    - [Dashboard]: app/dashboard/page.tsx ([handleAddChart],
      [generateDemoData], [handleDataImported]);
    - [Chart]: components/visualizations/ChartComponent.tsx (the data
      transformation of the effect hook and the pie data of [renderChart]).

    The definitions come first, the properties after them. *)

From Stdlib Require Import ZArith QArith Qpower Qround Qabs Lia Lqa.
From Stdlib Require Import List Bool String Ascii Permutation Sorted.
From Stdlib Require Import Floats.
From Stdlib Require Qcanon.
Import ListNotations.

Set Implicit Arguments.

(* ================================================================== *)
(** * JavaScript numbers *)
(* ================================================================== *)

(** A JavaScript number is a binary64 value.  A finite value is kept as the
    exact rational it denotes (in lowest terms); every arithmetic operation
    computes the exact rational result and rounds it to the nearest binary64
    value, ties to even, overflowing to an infinity beyond the largest finite
    value.  The sign of zero is not tracked: [-0] and [+0] are one value
    (they are equal for [===], for [Set] membership and for truthiness, and
    none of the modelled code divides by a zero). *)
Module Double.

Local Open Scope Q_scope.

Inductive num : Type :=
| NaN
| PInf
| NInf
| Fin (q : Q).

(** Exponent of the least positive (subnormal) value, [2 ^ -1074]. *)
Definition emin : Z := -1074.

(** [ilog2 x] is the integer [l] with [2 ^ l <= x < 2 ^ (l + 1)], for [0 < x]. *)
Definition ilog2 (x : Q) : Z :=
  let d := (Z.log2 (Qnum x) - Z.log2 (Z.pos (Qden x)))%Z in
  if Qle_bool (2 ^ d) x then d else (d - 1)%Z.

(** Nearest integer, ties to the even one. *)
Definition rne (x : Q) : Z :=
  let f := Qfloor x in
  match Qcompare (x - inject_Z f) (1 # 2) with
  | Lt => f
  | Gt => (f + 1)%Z
  | Eq => if Z.even f then f else (f + 1)%Z
  end.

(** Exponent of the unit in the last place of the binade of [x]: 53
    significant bits, never below [emin]. *)
Definition ulp_exp (x : Q) : Z := Z.max (ilog2 (Qabs x) - 52) emin.

(** Rounding with an unbounded exponent range. *)
Definition rnd (x : Q) : Q :=
  let e := ulp_exp x in Qred (inject_Z (rne (x / 2 ^ e)) * 2 ^ e).

(** Rounding to binary64. *)
Definition round (x : Q) : num :=
  let r := rnd x in
  if Qle_bool (2 ^ 1024) r then PInf
  else if Qle_bool r (- 2 ^ 1024) then NInf
  else Fin r.

Definition ofZ (z : Z) : num := round (inject_Z z).
Definition ofNat (n : nat) : num := ofZ (Z.of_nat n).

Definition zero : num := Fin 0.

Definition Qsign (x : Q) : comparison := Qcompare x 0.

Definition opp (a : num) : num :=
  match a with
  | NaN => NaN
  | PInf => NInf
  | NInf => PInf
  | Fin x => Fin (Qred (- x))
  end.

Definition add (a b : num) : num :=
  match a, b with
  | NaN, _ | _, NaN => NaN
  | PInf, NInf | NInf, PInf => NaN
  | PInf, _ | _, PInf => PInf
  | NInf, _ | _, NInf => NInf
  | Fin x, Fin y => round (x + y)
  end.

Definition sub (a b : num) : num := add a (opp b).

(** Sign of a number: [Some Gt], [Some Lt], [Some Eq] (zero), [None] (NaN). *)
Definition sign (a : num) : option comparison :=
  match a with
  | NaN => None
  | PInf => Some Gt
  | NInf => Some Lt
  | Fin x => Some (Qsign x)
  end.

Definition signed_inf (c1 c2 : comparison) : num :=
  match c1, c2 with
  | Eq, _ | _, Eq => NaN
  | Gt, Gt | Lt, Lt => PInf
  | _, _ => NInf
  end.

Definition mul (a b : num) : num :=
  match a, b with
  | NaN, _ | _, NaN => NaN
  | Fin x, Fin y => round (x * y)
  | _, _ =>
      match sign a, sign b with
      | Some c1, Some c2 => signed_inf c1 c2
      | _, _ => NaN
      end
  end.

Definition div (a b : num) : num :=
  match a, b with
  | NaN, _ | _, NaN => NaN
  | Fin x, Fin y =>
      match Qsign y with
      | Eq => match Qsign x with Eq => NaN | Gt => PInf | Lt => NInf end
      | _ => round (x / y)
      end
  | Fin _, _ => zero
  | _, Fin y =>
      match sign a with
      | Some c1 => signed_inf c1 (match Qsign y with Lt => Lt | _ => Gt end)
      | None => NaN
      end
  | _, _ => NaN
  end.

(** [a < b]; false whenever an operand is NaN. *)
Definition ltb (a b : num) : bool :=
  match a, b with
  | NaN, _ | _, NaN => false
  | _, NInf => false
  | NInf, _ => true
  | PInf, _ => false
  | _, PInf => true
  | Fin x, Fin y => negb (Qle_bool y x)
  end.

Definition gtb (a b : num) : bool := ltb b a.

(** [a <= b]; false whenever an operand is NaN. *)
Definition leb (a b : num) : bool :=
  match a, b with
  | NaN, _ | _, NaN => false
  | NInf, _ => true
  | _, PInf => true
  | _, NInf => false
  | PInf, _ => false
  | Fin x, Fin y => Qle_bool x y
  end.

(** [a === b] on numbers. *)
Definition eqb (a b : num) : bool :=
  match a, b with
  | PInf, PInf | NInf, NInf => true
  | Fin x, Fin y => Qeq_bool x y
  | _, _ => false
  end.

Definition isNaN (a : num) : bool :=
  match a with NaN => true | _ => false end.

(** Truthiness of a number: neither zero nor NaN. *)
Definition truthy (a : num) : bool :=
  match a with
  | NaN => false
  | Fin x => negb (Qeq_bool x 0)
  | _ => true
  end.

(** [Math.abs]. *)
Definition abs (a : num) : num :=
  match a with
  | NaN => NaN
  | PInf | NInf => PInf
  | Fin x => Fin (Qred (Qabs x))
  end.

(** [Math.floor]; the floor of a binary64 value is a binary64 value. *)
Definition floor (a : num) : num :=
  match a with
  | Fin x => Fin (inject_Z (Qfloor x))
  | _ => a
  end.

(** The value of a decimal literal [m * 10 ^ e]. *)
Definition ofDecimal (m e : Z) : num :=
  if (0 <=? e)%Z then round (inject_Z (m * 10 ^ e))
  else round (inject_Z m / inject_Z (10 ^ (- e))).

(** The literals of the sources. *)
Definition lit_0_001 : num := ofDecimal 1 (-3).
Definition lit_0_5 : num := ofDecimal 5 (-1).
Definition lit_0_3 : num := ofDecimal 3 (-1).

(** [Math.floor(i * (l / n))] on integers, as an integer. *)
Definition strideIndex (l n i : Z) : Z :=
  Qfloor (rnd (inject_Z i * rnd (inject_Z l / inject_Z n))).

(** Reading of the kernel's primitive binary64 values, used to cross-check
    the rounding above on sample computations. *)
Definition ofPrim (f : PrimFloat.float) : num :=
  match Prim2SF f with
  | S754_zero _ => Fin 0
  | S754_infinity false => PInf
  | S754_infinity true => NInf
  | S754_nan => NaN
  | S754_finite s m e =>
      Fin (Qred (inject_Z (if s then Z.neg m else Z.pos m) * 2 ^ e))
  end.

(** A finite value lies on the binary64 grid: an integer multiple of
    [2 ^ emin]. *)
Definition on_grid (x : Q) : Prop :=
  exists m : Z, x == inject_Z m * 2 ^ emin.

(** A number that compares: a binary64 value other than NaN. *)
Definition comparable (a : num) : Prop :=
  match a with
  | NaN => False
  | Fin x => on_grid x
  | PInf | NInf => True
  end.

End Double.


(* ================================================================== *)
(** * JavaScript values, strings and library functions *)
(* ================================================================== *)

Module JS.

Local Open Scope string_scope.
Local Open Scope char_scope.

(** ** Cell values

    A cell is a string or one of the other primitives.  The split mirrors the
    test [typeof v === "string"] that every function of the sources starts
    with: what remains after the string case is a [scalar], on which
    [ToNumber] needs no parsing. *)
Inductive scalar : Type :=
| SUndefined
| SNull
| SBool (b : bool)
| SNum (n : Double.num).

Inductive value : Type :=
| VStr (s : string)
| VPrim (p : scalar).

Definition VUndefined : value := VPrim SUndefined.
Definition VNull : value := VPrim SNull.
Definition VBool (b : bool) : value := VPrim (SBool b).
Definition VNum (n : Double.num) : value := VPrim (SNum n).

Definition isString (v : value) : bool :=
  match v with VStr _ => true | _ => false end.

(** [typeof v === "number"]; true of NaN too. *)
Definition isNumber (v : value) : bool :=
  match v with VPrim (SNum _) => true | _ => false end.

(** [ToNumber] on the primitives that are not strings. *)
Definition toNumber (p : scalar) : Double.num :=
  match p with
  | SUndefined => Double.NaN
  | SNull => Double.zero
  | SBool true => Double.ofZ 1
  | SBool false => Double.zero
  | SNum n => n
  end.

(** The global [isNaN]. *)
Definition isNaN (p : scalar) : bool := Double.isNaN (toNumber p).

(** Truthiness. *)
Definition truthy (v : value) : bool :=
  match v with
  | VStr s => negb (String.eqb s EmptyString)
  | VPrim SUndefined | VPrim SNull => false
  | VPrim (SBool b) => b
  | VPrim (SNum n) => Double.truthy n
  end.

(** ** Characters and the regular expressions of the sources *)

Definition is_digit (c : ascii) : bool := ("0" <=? c) && (c <=? "9").

Definition is_upper (c : ascii) : bool := ("A" <=? c) && (c <=? "Z").

Definition is_lower (c : ascii) : bool := ("a" <=? c) && (c <=? "z").

(** [[A-Z]] under the [i] flag. *)
Definition is_letter (c : ascii) : bool := is_upper c || is_lower c.

Definition to_lower (c : ascii) : ascii :=
  if is_upper c then ascii_of_nat (nat_of_ascii c + 32) else c.

Fixpoint lower (s : string) : string :=
  match s with
  | EmptyString => EmptyString
  | String c r => String (to_lower c) (lower r)
  end.

Fixpoint all_digits (s : string) : bool :=
  match s with
  | EmptyString => true
  | String c r => is_digit c && all_digits r
  end.

(** [/^[A-Z][0-9]+$/i.test(s)] *)
Definition idPattern (s : string) : bool :=
  match s with
  | String c (String d r) => is_letter c && is_digit d && all_digits r
  | _ => false
  end.

Fixpoint suffix (p s : string) : bool :=
  String.eqb p s ||
  match s with
  | EmptyString => false
  | String _ r => suffix p r
  end.

(** [/id$|^id|_id$|^customer|^user/i.test(name)] *)
Definition idNamePattern (name : string) : bool :=
  let n := lower name in
  suffix "id" n || prefix "id" n || suffix "_id" n
  || prefix "customer" n || prefix "user" n.

(** [/^\d{4}-\d{2}-\d{2}/.test(s)] *)
Definition datePattern (s : string) : bool :=
  match s with
  | String y1 (String y2 (String y3 (String y4 (String h1
      (String m1 (String m2 (String h2 (String d1 (String d2 _))))))))) =>
      is_digit y1 && is_digit y2 && is_digit y3 && is_digit y4
      && Ascii.eqb h1 "-" && is_digit m1 && is_digit m2
      && Ascii.eqb h2 "-" && is_digit d1 && is_digit d2
  | _ => false
  end.

(** [s.match(/[0-9]+/)] followed by [match[0].charAt(0)]: the first digit of
    the string, when it has one. *)
Fixpoint firstDigit (s : string) : option ascii :=
  match s with
  | EmptyString => None
  | String c r => if is_digit c then Some c else firstDigit r
  end.

(** Longest prefix of digits, and what follows it. *)
Fixpoint spanDigits (s : string) : list ascii * string :=
  match s with
  | EmptyString => ([], EmptyString)
  | String c r =>
      if is_digit c then let (ds, t) := spanDigits r in (c :: ds, t)
      else ([], s)
  end.

(** [/^\d+(\.\d+)?$/.test(s)] *)
Definition plainNumberPattern (s : string) : bool :=
  match spanDigits s with
  | ([], _) => false
  | (_ :: _, EmptyString) => true
  | (_ :: _, String c t) =>
      Ascii.eqb c "."
      && match spanDigits t with
         | (_ :: _, EmptyString) => true
         | _ => false
         end
  end.

(** ** [parseFloat] *)

(** White space and line terminators among the code units below 256. *)
Definition is_space (c : ascii) : bool :=
  match nat_of_ascii c with
  | 9 | 10 | 11 | 12 | 13 | 32 | 160 => true
  | _ => false
  end%nat.

Fixpoint trimStart (s : string) : string :=
  match s with
  | String c r => if is_space c then trimStart r else s
  | EmptyString => s
  end.

Definition digitVal (c : ascii) : Z := (Z.of_nat (nat_of_ascii c) - 48)%Z.

Definition digitsVal (ds : list ascii) : Z :=
  fold_left (fun acc c => (10 * acc + digitVal c)%Z) ds 0%Z.

(** The exponent part [[eE][+-]?[0-9]+] at the head of [s]; it is taken only
    when it is complete, and counts for 0 otherwise. *)
Definition exponentPart (s : string) : Z :=
  match s with
  | String e r =>
      if Ascii.eqb e "e" || Ascii.eqb e "E" then
        match r with
        | String sg t =>
            if Ascii.eqb sg "-" then (- digitsVal (fst (spanDigits t)))%Z
            else if Ascii.eqb sg "+" then digitsVal (fst (spanDigits t))
            else digitsVal (fst (spanDigits r))
        | EmptyString => 0%Z
        end
      else 0%Z
  | EmptyString => 0%Z
  end.

(** The longest prefix of [s] that is an unsigned [StrDecimalLiteral]:
    [Infinity], or digits with an optional fraction and exponent, one digit
    at least before or after the point.  [None] when there is none. *)
Definition unsignedLiteral (s : string) : option Double.num :=
  if prefix "Infinity" s then Some Double.PInf
  else
    let (ip, r1) := spanDigits s in
    let (fp, r3) :=
      match r1 with
      | String c r2 => if Ascii.eqb c "." then spanDigits r2 else ([], r1)
      | EmptyString => ([], r1)
      end in
    match (ip ++ fp)%list with
    | [] => None
    | ds =>
        Some (Double.ofDecimal (digitsVal ds)
                (exponentPart r3 - Z.of_nat (List.length fp)))
    end.

(** What is left of [s] once an optional sign is read, and whether the sign
    was a minus. *)
Definition readSign (s : string) : bool * string :=
  match s with
  | String c t =>
      if Ascii.eqb c "-" then (true, t)
      else if Ascii.eqb c "+" then (false, t)
      else (false, s)
  | EmptyString => (false, s)
  end.

(** [parseFloat(s)]: leading white space is skipped, an optional sign read,
    and the longest numeric prefix converted; NaN when there is no such
    prefix.  What follows the prefix is ignored. *)
Definition parseFloat (s : string) : Double.num :=
  let (minus, t) := readSign (trimStart s) in
  match unsignedLiteral t with
  | Some n => if minus then Double.opp n else n
  | None => Double.NaN
  end.

(** Whether [s] starts like a number: after leading white space and an
    optional sign comes [Infinity], a digit, or a point and a digit. *)
Definition startsNumeric (s : string) : bool :=
  let t := snd (readSign (trimStart s)) in
  prefix "Infinity" t
  || match t with
     | String c r =>
         is_digit c
         || (Ascii.eqb c "."
             && match r with
                | String d _ => is_digit d
                | EmptyString => false
                end)
     | EmptyString => false
     end.

(** [typeof v === "string" ? parseFloat(v) : v] *)
Definition parseIfString (v : value) : scalar :=
  match v with
  | VStr s => SNum (parseFloat s)
  | VPrim p => p
  end.

(** ** Equality, [Set] and [sort] *)

(** [a === b] *)
Definition strictEquals (a b : value) : bool :=
  match a, b with
  | VStr s, VStr t => String.eqb s t
  | VPrim SUndefined, VPrim SUndefined => true
  | VPrim SNull, VPrim SNull => true
  | VPrim (SBool x), VPrim (SBool y) => Bool.eqb x y
  | VPrim (SNum x), VPrim (SNum y) => Double.eqb x y
  | _, _ => false
  end.

(** SameValueZero, the equality of [Set] and [Map] keys: as [===], but NaN
    equals NaN. *)
Definition sameValueZero (a b : value) : bool :=
  match a, b with
  | VPrim (SNum Double.NaN), VPrim (SNum Double.NaN) => true
  | _, _ => strictEquals a b
  end.

(** The elements of [new Set(l)] in iteration order: first occurrences. *)
Fixpoint setOf (l : list value) : list value :=
  match l with
  | [] => []
  | x :: r => x :: filter (fun y => negb (sameValueZero x y)) (setOf r)
  end.

(** [new Set(l).size] *)
Definition setSize (l : list value) : nat := List.length (setOf l).

Section Sort.
Variable A : Type.
(** [cmp a b] is the comparator's result; a positive result puts [a]
    after [b]. *)
Variable cmp : A -> A -> Double.num.

Fixpoint insertSorted (x : A) (l : list A) : list A :=
  match l with
  | [] => [x]
  | y :: r =>
      if Double.gtb (cmp x y) Double.zero then y :: insertSorted x r
      else x :: y :: r
  end.

(** [l.sort(cmp)].  The sort of the language is stable; for a comparator
    that is a consistent ordering every stable sort returns this list. *)
Definition sort (l : list A) : list A := fold_right insertSorted [] l.
End Sort.

(** ** Objects as rows *)

(** A row object: its own properties in insertion order. *)
Definition row : Type := list (string * value).

(** [r[k]] *)
Fixpoint get (r : row) (k : string) : value :=
  match r with
  | [] => VUndefined
  | (k', v) :: t => if String.eqb k k' then v else get t k
  end.

(** [k in r] *)
Definition hasKey (r : row) (k : string) : bool :=
  existsb (fun kv => String.eqb k (fst kv)) r.

(** [r[k] = v] *)
Fixpoint put (r : row) (k : string) (v : value) : row :=
  match r with
  | [] => [(k, v)]
  | (k', v') :: t =>
      if String.eqb k k' then (k', v) :: t else (k', v') :: put t k v
  end.

(** [rows.map(row => row[header])] *)
Definition column (rows : list row) (header : string) : list value :=
  map (fun r => get r header) rows.

(** [k > len * 0.5] for two array lengths [k] and [len].  Array lengths are
    below [2 ^ 32] and halving is exact in binary64, so the comparison is
    kept on the natural numbers. *)
Definition moreThanHalf (k len : nat) : bool := (len <? 2 * k)%nat.

(** [l.filter(p).length] *)
Definition count (A : Type) (p : A -> bool) (l : list A) : nat :=
  List.length (filter p l).

(** [l.reduce((sum, v) => sum + v, 0)] on values that are not strings: each
    addition is the addition of numbers. *)
Definition sum (l : list scalar) : Double.num :=
  fold_left (fun acc v => Double.add acc (toNumber v)) l Double.zero.

(** [n || 0] on a number: zero and NaN are falsy. *)
Definition orZero (n : Double.num) : Double.num :=
  if Double.truthy n then n else Double.zero.

End JS.

(* ================================================================== *)
(** * lib/utils/data-cache.ts: the cache *)
(* ================================================================== *)

Module DataCache.

Section Cache.
(** The payload type [T] of [DataCache<T>]. *)
Variable T : Type.

Record entry : Type := { data : T; timestamp : Z }.

(** A cache: the [Map] (its entries in insertion order, one per key) and
    the resolved options.  Times are in milliseconds. *)
Record t : Type := {
  cache : list (string * entry);
  ttl : Z;
  maxSize : Z
}.

(** [new DataCache(options)] *)
Definition create (ttl maxSize : option Z) : t :=
  {| cache := [];
     ttl := match ttl with Some x => x | None => 5 * 60 * 1000 end;
     maxSize := match maxSize with Some x => x | None => 100 end |}.

(** [Map.prototype.get] *)
Fixpoint mapGet (m : list (string * entry)) (k : string) : option entry :=
  match m with
  | [] => None
  | (k', e) :: r => if String.eqb k k' then Some e else mapGet r k
  end.

(** [Map.prototype.has] *)
Definition mapHas (m : list (string * entry)) (k : string) : bool :=
  existsb (fun ke => String.eqb k (fst ke)) m.

(** [Map.prototype.set]: an existing key keeps its place. *)
Fixpoint mapSet (m : list (string * entry)) (k : string) (e : entry)
  : list (string * entry) :=
  match m with
  | [] => [(k, e)]
  | (k', e') :: r =>
      if String.eqb k k' then (k', e) :: r else (k', e') :: mapSet r k e
  end.

(** [Map.prototype.delete] *)
Definition mapDelete (m : list (string * entry)) (k : string)
  : list (string * entry) :=
  filter (fun ke => negb (String.eqb k (fst ke))) m.

(** [findOldestEntry]: the first entry whose timestamp is strictly below
    all the earlier ones; [None] stands for the initial [Infinity] and for
    the initial [null]. *)
Definition findOldestEntry (m : list (string * entry)) : option string :=
  snd (fold_left
         (fun (acc : option Z * option string) (ke : string * entry) =>
            let older :=
              match fst acc with
              | None => true
              | Some oldest => (timestamp (snd ke) <? oldest)%Z
              end in
            if older then (Some (timestamp (snd ke)), Some (fst ke))
            else acc)
         m (None, None)).

(** [set(key, data)] at time [now] (the value of [Date.now()]). *)
Definition set (c : t) (key : string) (d : T) (now : Z) : t :=
  let m :=
    if (maxSize c <=? Z.of_nat (List.length (cache c)))%Z then
      match findOldestEntry (cache c) with
      | Some oldestKey =>
          (* [if (oldestKey)]: the empty string is falsy *)
          if String.eqb oldestKey EmptyString then cache c
          else mapDelete (cache c) oldestKey
      | None => cache c
      end
    else cache c in
  {| cache := mapSet m key {| data := d; timestamp := now |};
     ttl := ttl c;
     maxSize := maxSize c |}.

(** [get(key)] at time [now]: the result ([None] for [null]) and the
    cache afterwards. *)
Definition get (c : t) (key : string) (now : Z) : option T * t :=
  match mapGet (cache c) key with
  | None => (None, c)
  | Some e =>
      if (ttl c <? now - timestamp e)%Z then
        (None,
         {| cache := mapDelete (cache c) key;
            ttl := ttl c; maxSize := maxSize c |})
      else (Some (data e), c)
  end.

(** [has(key)] *)
Definition has (c : t) (key : string) : bool := mapHas (cache c) key.

(** [delete(key)] *)
Definition delete (c : t) (key : string) : bool * t :=
  (mapHas (cache c) key,
   {| cache := mapDelete (cache c) key;
      ttl := ttl c; maxSize := maxSize c |}).

(** [clear()] *)
Definition clear (c : t) : t :=
  {| cache := []; ttl := ttl c; maxSize := maxSize c |}.

(** Age of the entry of [key] at time [now], when there is one. *)
Definition age (c : t) (key : string) (now : Z) : option Z :=
  match mapGet (cache c) key with
  | Some e => Some (now - timestamp e)%Z
  | None => None
  end.
End Cache.

End DataCache.

(* ================================================================== *)
(** * lib/utils/data-cache.ts: the dataset reducer *)
(* ================================================================== *)

Module Reducer.

Inductive strategy : Type := First | Last | Random | Evenly.

(** The options of [optimizeDataset]; [maxRows] is a row count, an
    integer. *)
Record options : Type := {
  maxRows : option Z;
  samplingStrategy : option strategy;
  fields : option (list string)
}.

Definition noOptions : options :=
  {| maxRows := None; samplingStrategy := None; fields := None |}.

(** [item => { filtered = {}; fields.forEach(f => if (f in item)
    filtered[f] = item[f]); return filtered }] *)
Definition filterFields (fs : list string) (item : JS.row) : JS.row :=
  fold_left
    (fun filtered f =>
       if JS.hasKey item f then JS.put filtered f (JS.get item f)
       else filtered)
    fs [].

(** An array index read off a number: a non-negative integer. *)
Definition toIndex (n : Double.num) : option nat :=
  match n with
  | Double.Fin q =>
      if Qle_bool 0 q && Qeq_bool q (inject_Z (Qfloor q))
      then Some (Z.to_nat (Qfloor q)) else None
  | _ => None
  end.

Section Optimize.
(** [T], the type of the items; [project] is the field filter on an item
    ([filterFields] on rows); [randomIndex i n] is the value of
    [Math.floor(Math.random() * n)] at the [i]-th draw, an index below
    [n]. *)
Variable T : Type.
Variable project : list string -> T -> T.
Variable randomIndex : nat -> nat -> nat.

(** [l.slice(start, end)], [end] absent when [None]. *)
Definition slice (l : list T) (start : Z) (stop : option Z) : list T :=
  let len := Z.of_nat (List.length l) in
  let clamp (x : Z) :=
    (if x <? 0 then Z.max (len + x) 0 else Z.min x len)%Z in
  let k := clamp start in
  let final := match stop with Some e => clamp e | None => len end in
  firstn (Z.to_nat (final - k)) (skipn (Z.to_nat k) l).

(** [l.splice(i, 1)]: what is left of [l]. *)
Fixpoint removeAt (i : nat) (l : list T) : list T :=
  match l, i with
  | [], _ => []
  | _ :: r, O => r
  | x :: r, S j => x :: removeAt j r
  end.

(** The loop of the [random] case from counter [i], [fuel] iterations
    being left before [i] reaches [maxRows]. *)
Fixpoint randomLoop (fuel i : nat) (dataClone sampledData : list T)
  : list T :=
  match fuel with
  | O => sampledData
  | S fuel' =>
      match dataClone with
      | [] => sampledData
      | _ :: _ =>
          let randomIndex :=
            Nat.modulo (randomIndex i (List.length dataClone))
                       (List.length dataClone) in
          match nth_error dataClone randomIndex with
          | Some x =>
              randomLoop fuel' (S i) (removeAt randomIndex dataClone)
                         (sampledData ++ [x])
          | None => sampledData
          end
      end
  end.

(** [Math.floor(i * step)] with [step = data.length / maxRows]. *)
Definition evenlyIndex (len : nat) (maxRows : Z) (i : nat) : Double.num :=
  let step := Double.div (Double.ofNat len) (Double.ofZ maxRows) in
  Double.floor (Double.mul (Double.ofNat i) step).

(** One iteration of the loop of the [evenly] case: the item pushed, if
    any.  (The index is never negative: [i] and [step] are not.) *)
Definition evenlyPick (data : list T) (maxRows : Z) (i : nat) : list T :=
  let index := evenlyIndex (List.length data) maxRows i in
  if Double.ltb index (Double.ofNat (List.length data)) then
    match toIndex index with
    | Some k =>
        match nth_error data k with Some x => [x] | None => [] end
    | None => []
    end
  else [].

(** The [switch] on the sampling strategy. *)
Definition sample (data : list T) (maxRows : Z) (s : strategy) : list T :=
  match s with
  | First => slice data 0 (Some maxRows)
  | Last => slice data (- maxRows) None
  | Random => randomLoop (Z.to_nat maxRows) 0 data []
  | Evenly =>
      flat_map (evenlyPick data maxRows) (seq 0 (Z.to_nat maxRows))
  end.

Definition optimizeDataset (data : list T) (o : options) : list T :=
  match data with
  | [] => []
  | _ :: _ =>
      let maxRows := match maxRows o with Some n => n | None => 10000%Z end in
      let samplingStrategy :=
        match samplingStrategy o with Some s => s | None => Evenly end in
      if (Z.of_nat (List.length data) <=? maxRows)%Z then
        match fields o with
        | None => data
        | Some fs => map (project fs) data
        end
      else
        let sampledData := sample data maxRows samplingStrategy in
        match fields o with
        | None => sampledData
        | Some fs => map (project fs) sampledData
        end
  end.
End Optimize.

(** The position read at step [i] of the even sampling of [len] items down
    to [maxRows]. *)
Definition evenlyPosition (len : nat) (maxRows : Z) (i : nat) : nat :=
  Z.to_nat (Double.strideIndex (Z.of_nat len) maxRows (Z.of_nat i)).

(** The reducer on row objects. *)
Definition reduce (randomIndex : nat -> nat -> nat)
  (rows : list JS.row) (o : options) : list JS.row :=
  optimizeDataset filterFields randomIndex rows o.

End Reducer.

(* ================================================================== *)
(** * lib/services/data-analysis.ts: column statistics *)
(* ================================================================== *)

Module Stats.

Inductive columnType : Type := Categorical | Numeric | Date.

Record columnStats : Type := {
  type : columnType;
  uniqueValues : nat;
  hasNonZeroValues : bool;
  min : option Double.num;
  max : option Double.num;
  mean : option Double.num
}.

(** [values.filter(v => v !== null && v !== undefined)
            .map(v => typeof v === "string" ? parseFloat(v) : v)
            .filter(v => !isNaN(v))] *)
Definition numericValues (values : list JS.value) : list JS.scalar :=
  filter (fun p => negb (JS.isNaN p))
    (map JS.parseIfString
       (filter (fun v =>
                  match v with
                  | JS.VPrim JS.SNull | JS.VPrim JS.SUndefined => false
                  | _ => true
                  end) values)).

(** [values.filter(v => typeof v === "string" && datePattern.test(v))] *)
Definition dateValues (values : list JS.value) : list JS.value :=
  filter (fun v => match v with JS.VStr s => JS.datePattern s | _ => false end)
         values.

(** [Math.min(...l)] and [Math.max(...l)] on values that are not NaN. *)
Definition minimum (l : list JS.scalar) : Double.num :=
  fold_left (fun m v => if Double.ltb (JS.toNumber v) m then JS.toNumber v else m)
            l Double.PInf.

Definition maximum (l : list JS.scalar) : Double.num :=
  fold_left (fun m v => if Double.ltb m (JS.toNumber v) then JS.toNumber v else m)
            l Double.NInf.

(** The statistics of one column, the body of [headers.forEach]. *)
Definition columnStatsOf (rows : list JS.row) (header : string) : columnStats :=
  let values := JS.column rows header in
  let numericValues := numericValues values in
  let isNumeric :=
    JS.moreThanHalf (List.length numericValues) (List.length rows) in
  let isDate :=
    JS.moreThanHalf (List.length (dateValues values)) (List.length rows) in
  let numericStats := isNumeric && (0 <? List.length numericValues)%nat in
  {| type := if isDate then Date else if isNumeric then Numeric
             else Categorical;
     uniqueValues := JS.setSize values;
     hasNonZeroValues :=
       existsb (fun v => Double.gtb (Double.abs (JS.toNumber v))
                                    Double.lit_0_001) numericValues;
     min := if numericStats then Some (minimum numericValues) else None;
     max := if numericStats then Some (maximum numericValues) else None;
     mean := if numericStats
             then Some (Double.div (JS.sum numericValues)
                          (Double.ofNat (List.length numericValues)))
             else None |}.

(** [stats[header] = ...] on the result object. *)
Fixpoint putStats (stats : list (string * columnStats)) (h : string)
  (c : columnStats) : list (string * columnStats) :=
  match stats with
  | [] => [(h, c)]
  | (h', c') :: r =>
      if String.eqb h h' then (h', c) :: r else (h', c') :: putStats r h c
  end.

Definition getDatasetStats (headers : list string) (rows : list JS.row)
  : list (string * columnStats) :=
  fold_left (fun stats h => putStats stats h (columnStatsOf rows h)) headers [].

(** [stats[header]] *)
Fixpoint statsOf (stats : list (string * columnStats)) (h : string)
  : option columnStats :=
  match stats with
  | [] => None
  | (h', c) :: r => if String.eqb h h' then Some c else statsOf r h
  end.

End Stats.

(* ================================================================== *)
(** * The chart kinds and configurations of ChartComponent.tsx *)
(* ================================================================== *)

Inductive ChartType : Type := Line | Bar | Area | Pie | Scatter.

Definition chartTypeName (c : ChartType) : string :=
  match c with
  | Line => "line"
  | Bar => "bar"
  | Area => "area"
  | Pie => "pie"
  | Scatter => "scatter"
  end%string.

(** [ChartConfig], with one field name for [yAxis] (the dashboard never
    builds the array form); an absent or [null] field is [None]. *)
Record ChartConfig : Type := {
  cType : ChartType;
  xAxis : option string;
  yAxis : option string;
  groupBy : option string;
  title : string
}.

(** Truthiness of an optional field name. *)
Definition given (o : option string) : bool :=
  match o with
  | Some s => negb (String.eqb s EmptyString)
  | None => false
  end.

(** The property key of [item[config.field as string]]: an absent field
    reads the property named "undefined". *)
Definition keyOf (o : option string) : string :=
  match o with Some s => s | None => "undefined"%string end.

(* ================================================================== *)
(** * app/dashboard/page.tsx: the chart field selector *)
(* ================================================================== *)

Module Dashboard.

Local Open Scope string_scope.

(** ** The helpers of [handleAddChart] *)

Definition isIdLikeField (fieldName : string) (values : list JS.value) : bool :=
  if JS.idNamePattern fieldName then true
  else
    match values with
    | JS.VStr _ :: _ =>
        let matchCount :=
          JS.count (fun v => match v with
                             | JS.VStr s => JS.idPattern s
                             | _ => false
                             end) values in
        JS.moreThanHalf matchCount (List.length values)
    | _ => false
    end.

(** [Math.pow(x, 2)], taken as the correctly rounded square. *)
Definition square (x : Double.num) : Double.num := Double.mul x x.

Definition getNumericFieldScore (fieldName : string) (values : list JS.value)
  : Double.num :=
  let numericValues :=
    filter (fun p => negb (JS.isNaN p)) (map JS.parseIfString values) in
  match numericValues with
  | [] => Double.zero
  | _ :: _ =>
      let n := Double.ofNat (List.length numericValues) in
      let mean := Double.div (JS.sum numericValues) n in
      let variance :=
        Double.div
          (fold_left
             (fun sum v =>
                Double.add sum (square (Double.sub (JS.toNumber v) mean)))
             numericValues Double.zero)
          n in
      let uniqueCount := JS.setSize (map JS.VPrim numericValues) in
      let uniqueRatio := Double.div (Double.ofNat uniqueCount) n in
      Double.mul (Double.mul variance uniqueRatio) (Double.ofZ 100)
  end.

(** ** The candidate pools, over the headers and the row objects of
    [currentData] *)

Section Pools.
Variable headers : list string.
Variable rows : list JS.row.

Definition numericCount (header : string) : nat :=
  JS.count (fun row =>
              match JS.get row header with
              | JS.VPrim (JS.SNum _) => true
              | JS.VStr s => negb (Double.isNaN (JS.parseFloat s))
              | _ => false
              end) rows.

Definition hasNonZeroValues (header : string) : bool :=
  existsb (fun row =>
             let val := JS.parseIfString (JS.get row header) in
             negb (JS.isNaN val)
             && Double.gtb (Double.abs (JS.toNumber val)) Double.lit_0_001)
          rows.

Definition numericFields : list string :=
  filter (fun header =>
            if isIdLikeField header (JS.column rows header) then false
            else JS.moreThanHalf (numericCount header) (List.length rows)
                 && hasNonZeroValues header)
         headers.

(** [(a, b) => b.score - a.score] *)
Definition byScore (a b : string * Double.num) : Double.num :=
  Double.sub (snd b) (snd a).

Definition scoredNumericFields : list string :=
  map fst
    (JS.sort byScore
       (map (fun field =>
               (field, getNumericFieldScore field (JS.column rows field)))
            numericFields)).

Definition dateCount (header : string) : nat :=
  JS.count (fun row =>
              match JS.get row header with
              | JS.VStr s => JS.datePattern s
              | _ => false
              end) rows.

Definition dateFields : list string :=
  filter (fun header =>
            if isIdLikeField header (JS.column rows header) then false
            else JS.moreThanHalf (dateCount header) (List.length rows))
         headers.

(** [l.includes(h)] *)
Definition includes (l : list string) (h : string) : bool :=
  existsb (String.eqb h) l.

Definition categoryFields : list string :=
  filter (fun header =>
            if isIdLikeField header (JS.column rows header) then false
            else negb (includes numericFields header)
                 && negb (includes dateFields header))
         headers.

Definition goodCategoryFields : list string :=
  filter (fun field =>
            let size := JS.setSize (JS.column rows field) in
            (2 <=? size)%nat && (size <=? 15)%nat)
         categoryFields.
End Pools.

(** ** The state of the component *)

(** [currentData]: the headers and the row objects, each a reference into
    the heap of objects. *)
Record dataset : Type := { headers : list string; rows : list nat }.

Record chart : Type := { id : Z; kind : ChartType; config : ChartConfig }.

(** The heap of row objects, the two pieces of component state, and the
    number of [Math.random()] calls made so far. *)
Record state : Type := {
  heap : list JS.row;
  currentData : option dataset;
  charts : list chart;
  draws : nat
}.

(** The object a reference points to. *)
Definition deref (h : list JS.row) (l : nat) : JS.row := nth l h [].

(** [row[k] = v] on the object at [l]. *)
Fixpoint assign (h : list JS.row) (l : nat) (k : string) (v : JS.value)
  : list JS.row :=
  match h, l with
  | [], _ => []
  | r :: t, O => JS.put r k v :: t
  | r :: t, S l' => r :: assign t l' k v
  end.

(** Computations that read and update the state. *)
Definition M (A : Type) : Type := state -> A * state.

Definition ret (A : Type) (a : A) : M A := fun st => (a, st).

Definition bind (A B : Type) (m : M A) (f : A -> M B) : M B :=
  fun st => let (a, st') := m st in f a st'.

Notation "x <- m ;; k" := (bind m (fun x => k))
  (at level 61, m at next level, right associativity).

(** The overrides passed to [handleAddChart]: [Some] for a key that is
    present ([groupBy] may be present and [null]). *)
Record overrides : Type := {
  o_xAxis : option string;
  o_yAxis : option string;
  o_groupBy : option (option string);
  o_title : option string
}.

Definition noOverrides : overrides :=
  {| o_xAxis := None; o_yAxis := None; o_groupBy := None; o_title := None |}.

(** [chartType.charAt(0).toUpperCase() + chartType.slice(1) + " Chart"] *)
Definition defaultTitle (c : ChartType) : string :=
  match c with
  | Line => "Line Chart"
  | Bar => "Bar Chart"
  | Area => "Area Chart"
  | Pie => "Pie Chart"
  | Scatter => "Scatter Chart"
  end.

Section Component.
(** [Math.sin], and the successive results of [Math.random()]. *)
Variable Math_sin : Double.num -> Double.num.
Variable Math_random : nat -> Double.num.

(** The value written in row [index]; the second component tells whether
    [Math.random()] was called. *)
Definition demoValue (chartType : ChartType) (index drawn : nat)
  : Double.num * bool :=
  match chartType with
  | Bar | Line | Area =>
      (Double.add
         (Double.mul
            (Math_sin (Double.mul (Double.ofNat index) Double.lit_0_3))
            (Double.ofZ 50))
         (Double.ofZ 50), false)
  | Pie =>
      (Double.add (Double.ofZ 10)
         (Double.mul (Double.floor (Double.ofNat (Nat.modulo index 5)))
                     (Double.ofZ 20)), false)
  | Scatter => (Double.mul (Math_random drawn) (Double.ofZ 100), true)
  end.

(** [enhancedData.forEach((row, index) => row[demoField] = ...)] *)
Definition fillDemo (chartType : ChartType) (demoField : string)
  (enhancedData : list nat) (h : list JS.row) (drawn : nat)
  : list JS.row * nat :=
  fold_left
    (fun (acc : list JS.row * nat) (ir : nat * nat) =>
       let (v, random) := demoValue chartType (fst ir) (snd acc) in
       (assign (fst acc) (snd ir) demoField (JS.VNum v),
        if random then S (snd acc) else snd acc))
    (combine (seq 0 (List.length enhancedData)) enhancedData)
    (h, drawn).

(** [generateDemoData(chartType)], [cd] being the [currentData] the
    handler closed over. *)
Definition generateDemoData (cd : dataset) (chartType : ChartType)
  : M string :=
  fun st =>
    let enhancedData := rows cd in
    let demoField := "demo_" ++ chartTypeName chartType ++ "_value" in
    let (h, drawn) :=
      fillDemo chartType demoField enhancedData (heap st) (draws st) in
    (demoField,
     {| heap := h;
        currentData :=
          Some {| headers := headers cd ++ [demoField];
                  rows := enhancedData |};
        charts := charts st;
        draws := drawn |}).

(** The fields chosen by the [switch] on the chart kind:
    [(xAxisField, yAxisField, groupByField)]. *)
Definition selectFields (cd : dataset) (data : list JS.row)
  (chartType : ChartType)
  : M (option string * option string * option string) :=
  let numericFields := numericFields (headers cd) data in
  let scoredNumericFields := scoredNumericFields (headers cd) data in
  let dateFields := dateFields (headers cd) data in
  let categoryFields := categoryFields (headers cd) data in
  let goodCategoryFields := goodCategoryFields (headers cd) data in
  let differs (x : option string) (f : string) :=
    match x with Some s => negb (String.eqb f s) | None => true end in
  let yValue : M string :=
    match scoredNumericFields, numericFields with
    | s :: _, _ => ret s
    | [], n :: _ => ret n
    | [], [] => generateDemoData cd chartType
    end in
  match chartType with
  | Bar | Line | Area =>
      let xAxisField :=
        match dateFields, goodCategoryFields, categoryFields with
        | d :: _, _, _ => Some d
        | [], g :: _, _ => Some g
        | [], [], c :: _ => Some c
        | [], [], [] => nth_error (headers cd) 0
        end in
      yAxisField <- yValue ;;
      let groupByField :=
        match goodCategoryFields with
        | _ :: _ :: _ =>
            match find (differs xAxisField) goodCategoryFields with
            | Some f => if String.eqb f "" then None else Some f
            | None => None
            end
        | [g] => if differs xAxisField g then Some g else None
        | [] => None
        end in
      ret (xAxisField, Some yAxisField, groupByField)
  | Pie =>
      let xAxisField :=
        match goodCategoryFields, categoryFields with
        | g :: _, _ => Some g
        | [], c :: _ => Some c
        | [], [] => nth_error (headers cd) 0
        end in
      yAxisField <- yValue ;;
      ret (xAxisField, Some yAxisField, None)
  | Scatter =>
      let groupByField :=
        match goodCategoryFields with g :: _ => Some g | [] => None end in
      match scoredNumericFields, numericFields with
      | s0 :: s1 :: _, _ => ret (Some s0, Some s1, groupByField)
      | _, n0 :: n1 :: _ => ret (Some n0, Some n1, groupByField)
      | _, _ =>
          xAxisField <- match numericFields with
                        | n :: _ => ret n
                        | [] => generateDemoData cd chartType
                        end ;;
          yAxisField <- generateDemoData cd chartType ;;
          ret (Some xAxisField, Some yAxisField, groupByField)
      end
  end.

(** The [config] of the new chart: the chosen fields, then [...config]. *)
Definition buildConfig (chartType : ChartType) (o : overrides)
  (sel : option string * option string * option string) : ChartConfig :=
  let '(xAxisField, yAxisField, groupByField) := sel in
  {| cType := chartType;
     xAxis := match o_xAxis o with Some x => Some x | None => xAxisField end;
     yAxis := match o_yAxis o with Some y => Some y | None => yAxisField end;
     groupBy := match o_groupBy o with Some g => g | None => groupByField end;
     title := match o_title o with
              | Some t => t
              | None => defaultTitle chartType
              end |}.

(** [handleAddChart(chartType, config)], [now] being [Date.now()]. *)
Definition handleAddChart (chartType : ChartType) (o : overrides) (now : Z)
  (st : state) : state :=
  match currentData st with
  | None => st
  | Some cd =>
      let data := map (deref (heap st)) (rows cd) in
      let (sel, st') := selectFields cd data chartType st in
      let newChart :=
        {| id := now; kind := chartType;
           config := buildConfig chartType o sel |} in
      {| heap := heap st';
         currentData := currentData st';
         charts := charts st' ++ [newChart];
         draws := draws st' |}
  end.

(** [handleDataImported(data)]: the rows go through the reducer, without
    a field list, so the row objects are those of the imported data. *)
Definition handleDataImported (data : dataset) (st : state) : state :=
  let optimizedData :=
    Reducer.optimizeDataset (fun _ r => r) (fun _ _ => O) (rows data)
      {| Reducer.maxRows := Some 10000%Z;
         Reducer.samplingStrategy := Some Reducer.Evenly;
         Reducer.fields := None |} in
  {| heap := heap st;
     currentData := Some {| headers := headers data; rows := optimizedData |};
     charts := charts st;
     draws := draws st |}.

(** The configuration of the chart added last. *)
Definition lastConfig (st : state) : option ChartConfig :=
  match rev (charts st) with
  | c :: _ => Some (config c)
  | [] => None
  end.
End Component.

(** The name of the field [generateDemoData] adds. *)
Definition demoFieldName (chartType : ChartType) : string :=
  "demo_" ++ chartTypeName chartType ++ "_value".

(** [handleDeleteChart(chartId)]; the id of a chart is ["chart-"] followed
    by the time it was added at, kept here as that time. *)
Definition handleDeleteChart (chartId : Z) (st : state) : state :=
  {| heap := heap st;
     currentData := currentData st;
     charts := filter (fun chart => negb (Z.eqb (id chart) chartId))
                 (charts st);
     draws := draws st |}.

End Dashboard.

(* ================================================================== *)
(** * components/visualizations/ChartComponent.tsx *)
(* ================================================================== *)

Module Chart.

Local Open Scope string_scope.

(** A computation that may throw a [TypeError]. *)
Inductive result (A : Type) : Type :=
| Ok (a : A)
| TypeError.
Arguments TypeError {A}.

Definition rbind (A B : Type) (m : result A) (f : A -> result B) : result B :=
  match m with
  | Ok a => f a
  | TypeError => TypeError
  end.

(** [typeof v === "string" ? parseFloat(v || "0") : v || 0] *)
Definition yValue (v : JS.value) : JS.scalar :=
  match v with
  | JS.VStr s => JS.SNum (JS.parseFloat (if String.eqb s "" then "0" else s))
  | JS.VPrim p => if JS.truthy (JS.VPrim p) then p else JS.SNum Double.zero
  end.

(** [typeof v === "string" ? parseFloat(v) : v || 0] *)
Definition yValueBar (v : JS.value) : JS.scalar :=
  match v with
  | JS.VStr s => JS.SNum (JS.parseFloat s)
  | JS.VPrim p => if JS.truthy (JS.VPrim p) then p else JS.SNum Double.zero
  end.

(** ** The effect hook: [processedData] *)

(** The first [map]: a copy of the item, its numeric strings converted. *)
Definition convertItem (config : ChartConfig) (item : JS.row) : JS.row :=
  let newItem := item in
  let newItem :=
    match yAxis config with
    | Some y =>
        if given (yAxis config) then
          match JS.get newItem y with
          | JS.VStr s => JS.put newItem y (JS.VNum (JS.orZero (JS.parseFloat s)))
          | _ => newItem
          end
        else newItem
    | None => newItem
    end in
  match cType config, xAxis config with
  | Scatter, Some x =>
      if given (xAxis config) then
        match JS.get newItem x with
        | JS.VStr s =>
            if JS.plainNumberPattern s
            then JS.put newItem x (JS.VNum (JS.orZero (JS.parseFloat s)))
            else newItem
        | _ => newItem
        end
      else newItem
  | _, _ => newItem
  end.

Section GroupBy.
(** [Number.prototype.toString], which names the property a number is
    used as a key for. *)
Variable Number_toString : Double.num -> string.

Definition toPropertyKey (v : JS.value) : string :=
  match v with
  | JS.VStr s => s
  | JS.VPrim JS.SUndefined => "undefined"
  | JS.VPrim JS.SNull => "null"
  | JS.VPrim (JS.SBool true) => "true"
  | JS.VPrim (JS.SBool false) => "false"
  | JS.VPrim (JS.SNum n) => Number_toString n
  end.

(** [groupedData]: a [Map] from x values to entry objects, in insertion
    order; the update made for one item. *)
Fixpoint groupItem (groupedData : list (JS.value * JS.row))
  (xValue : JS.value) (upd : JS.row -> JS.row) : list (JS.value * JS.row) :=
  match groupedData with
  | [] => [(xValue, upd [])]
  | (k, entry) :: r =>
      if JS.sameValueZero k xValue then (k, upd entry) :: r
      else (k, entry) :: groupItem r xValue upd
  end.

(** The aggregation by [config.groupBy]. *)
Definition groupRows (g x y : string) (transformed : list JS.row)
  : list JS.row :=
  map snd
    (fold_left
       (fun groupedData item =>
          let groupKey := JS.get item g in
          let xValue := JS.get item x in
          groupItem groupedData xValue
            (fun entry =>
               JS.put (JS.put entry (toPropertyKey groupKey)
                              (JS.VPrim (yValue (JS.get item y))))
                      x xValue))
       transformed []).
End GroupBy.

(** A [Map] as the list of its entries in insertion order, and
    [m.set(k, f(m.get(k)))] on it: the entry of a key that is present is
    replaced where it stands, a new key is added at the end. *)
Section MapUpdate.
Variables K V : Type.
Variable eqb : K -> K -> bool.

Fixpoint mapUpdate (m : list (K * V)) (k : K) (f : option V -> V)
  : list (K * V) :=
  match m with
  | [] => [(k, f None)]
  | (k', v) :: r =>
      if eqb k' k then (k', f (Some v)) :: r
      else (k', v) :: mapUpdate r k f
  end.
End MapUpdate.

(** [if (!buckets.has(bucket)) buckets.set(bucket, [])] and then
    [buckets.get(bucket)?.push(value)]. *)
Definition pushBucket (buckets : list (ascii * list JS.scalar)) (bucket : ascii)
  (value : JS.scalar) : list (ascii * list JS.scalar) :=
  mapUpdate Ascii.eqb buckets bucket
    (fun values =>
       match values with
       | Some vs => (vs ++ [value])%list
       | None => [value]
       end).

(** The first [forEach] of the bucketing: [id.match] throws on an x value
    that is not a string. *)
Definition fillBuckets (x y : string) (transformed : list JS.row)
  : result (list (ascii * list JS.scalar)) :=
  fold_left
    (fun acc item =>
       rbind acc (fun buckets =>
         match JS.get item x with
         | JS.VStr id =>
             match JS.firstDigit id with
             | Some bucket =>
                 Ok (pushBucket buckets bucket (yValueBar (JS.get item y)))
             | None => Ok buckets
             end
         | JS.VPrim _ => TypeError
         end))
    transformed (Ok []).

(** ["Group " + bucket] *)
Definition groupName (bucket : ascii) : string :=
  "Group " ++ String bucket "".

(** One row per bucket, with the average of its values. *)
Definition averageRow (x y : string) (b : ascii * list JS.scalar) : JS.row :=
  let values := snd b in
  let sum := JS.sum values in
  let avg :=
    if (0 <? List.length values)%nat
    then Double.div sum (Double.ofNat (List.length values))
    else Double.zero in
  JS.put (JS.put [] x (JS.VStr (groupName (fst b)))) y (JS.VNum avg).

(** The bucketing of bar, line and area charts: [Some aggregatedData] when
    [transformed] is replaced, [None] when it is left as it is. *)
Definition idBuckets (config : ChartConfig) (transformed : list JS.row)
  : result (option (list JS.row)) :=
  match cType config with
  | Bar | Line | Area =>
      if given (xAxis config) && given (yAxis config)
         && negb (given (groupBy config)) then
        let x := keyOf (xAxis config) in
        let y := keyOf (yAxis config) in
        let uniqueXValues := JS.setOf (JS.column transformed x) in
        if (10 <? List.length uniqueXValues)%nat then
          let firstValue :=
            match transformed with
            | item :: _ => JS.get item x
            | [] => JS.VUndefined
            end in
          match firstValue with
          | JS.VStr s =>
              if JS.idPattern s then
                rbind (fillBuckets x y transformed) (fun buckets =>
                  let aggregatedData := map (averageRow x y) buckets in
                  match aggregatedData with
                  | _ :: _ => Ok (Some aggregatedData)
                  | [] => Ok None
                  end)
              else Ok None
          | _ => Ok None
          end
        else Ok None
      else Ok None
  | _ => Ok None
  end.

Section Effect.
Variable Number_toString : Double.num -> string.

(** The body of the effect, for [data] that is not empty: the value given
    to [setProcessedData]. *)
Definition processData (config : ChartConfig) (data : list JS.row)
  : result (list JS.row) :=
  let transformed := map (convertItem config) data in
  let transformed :=
    if given (groupBy config) && given (xAxis config)
       && given (yAxis config)
    then groupRows Number_toString (keyOf (groupBy config))
           (keyOf (xAxis config)) (keyOf (yAxis config)) transformed
    else transformed in
  rbind (idBuckets config transformed) (fun b =>
    match b with
    | Some aggregatedData => Ok aggregatedData
    | None => Ok transformed
    end).
End Effect.

(** ** [renderChart], case "pie": [pieData] *)

Record slice : Type := { name : JS.value; value : JS.scalar }.

(** [buckets.set(bucket, (buckets.get(bucket) || 0) + value)] *)
Definition addToBucket (buckets : list (string * Double.num)) (bucket : string)
  (value : JS.scalar) : list (string * Double.num) :=
  mapUpdate String.eqb buckets bucket
    (fun total =>
       Double.add
         (match total with
          | Some n => JS.orZero n
          | None => Double.zero
          end)
         (JS.toNumber value)).

(** The [forEach] of the pie bucketing. *)
Definition fillPieBuckets (x y : string) (data : list JS.row)
  : result (list (string * Double.num)) :=
  fold_left
    (fun acc item =>
       rbind acc (fun buckets =>
         match JS.get item x with
         | JS.VStr id =>
             match JS.firstDigit id with
             | Some d =>
                 Ok (addToBucket buckets (groupName d) (yValue (JS.get item y)))
             | None => Ok buckets
             end
         | JS.VPrim _ => TypeError
         end))
    data (Ok []).

(** [needsGrouping] *)
Definition needsGrouping (config : ChartConfig) (data : list JS.row) : bool :=
  given (xAxis config)
  && match data with
     | item :: _ =>
         match JS.get item (keyOf (xAxis config)) with
         | JS.VStr s => JS.idPattern s
         | _ => false
         end
     | [] => false
     end.

(** The slices when the data is not bucketed: one per value of
    [config.groupBy], or one per item. *)
Definition plainSlices (config : ChartConfig) (data : list JS.row)
  : list slice :=
  let x := keyOf (xAxis config) in
  let y := keyOf (yAxis config) in
  if given (groupBy config) then
    let g := keyOf (groupBy config) in
    map (fun group =>
           {| name := group;
              value :=
                JS.SNum
                  (JS.sum
                     (map (fun item => yValue (JS.get item y))
                        (filter (fun item =>
                                   JS.strictEquals (JS.get item g) group)
                                data))) |})
        (JS.setOf (JS.column data g))
  else
    map (fun item => {| name := JS.get item x;
                        value := yValue (JS.get item y) |}) data.

(** [pieData] before the cap on the number of slices. *)
Definition pieSlices (config : ChartConfig) (data : list JS.row)
  : result (list slice) :=
  let x := keyOf (xAxis config) in
  let y := keyOf (yAxis config) in
  if needsGrouping config data then
    rbind (fillPieBuckets x y data) (fun buckets =>
      Ok (map (fun b => {| name := JS.VStr (fst b);
                           value := JS.SNum (snd b) |}) buckets))
  else Ok (plainSlices config data).

(** [(a, b) => b.value - a.value] *)
Definition byValue (a b : slice) : Double.num :=
  Double.sub (JS.toNumber (value b)) (JS.toNumber (value a)).

(** [l.reduce((sum, item) => sum + item.value, 0)] *)
Definition total (l : list slice) : Double.num :=
  JS.sum (map value l).

(** The cap on the number of slices. *)
Definition capSlices (pieData : list slice) : list slice :=
  if (8 <? List.length pieData)%nat then
    let sorted := JS.sort byValue pieData in
    let topSlices := firstn 7 sorted in
    let otherSlices := skipn 7 sorted in
    let otherValue := total otherSlices in
    (topSlices ++ [{| name := JS.VStr "Other"; value := JS.SNum otherValue |}])%list
  else pieData.

(** The data handed to the pie. *)
Definition pieData (config : ChartConfig) (data : list JS.row)
  : result (list slice) :=
  rbind (pieSlices config data) (fun l => Ok (capSlices l)).

(** ** The bucketing as a grouping of the rows *)

(** The first digit in the x value of a row. *)
Definition digitOf (x : string) (item : JS.row) : option ascii :=
  match JS.get item x with
  | JS.VStr id => JS.firstDigit id
  | JS.VPrim _ => None
  end.

Definition inBucket (x : string) (d : ascii) (item : JS.row) : bool :=
  match digitOf x item with
  | Some e => Ascii.eqb e d
  | None => false
  end.

(** The first occurrences of the characters of a list. *)
Fixpoint firsts (l : list ascii) : list ascii :=
  match l with
  | [] => []
  | d :: r => d :: filter (fun e => negb (Ascii.eqb d e)) (firsts r)
  end.

(** The digits the rows start their numbers with, each once, in the order
    the rows bring them. *)
Definition digits (x : string) (rows : list JS.row) : list ascii :=
  firsts (flat_map (fun item =>
                      match digitOf x item with
                      | Some d => [d]
                      | None => []
                      end) rows).

(** The y values of the rows of one bucket, in the order of the rows. *)
Definition bucketValues (yv : JS.value -> JS.scalar) (x y : string)
  (d : ascii) (rows : list JS.row) : list JS.scalar :=
  map (fun item => yv (JS.get item y)) (filter (inBucket x d) rows).

(** The running total of a bucket of the pie: [(total || 0) + value]. *)
Definition pieSum (vs : list JS.scalar) : Double.num :=
  fold_left (fun total v => Double.add (JS.orZero total) (JS.toNumber v))
    vs Double.zero.

(** Every row has a string for [x]. *)
Definition allStrings (x : string) (rows : list JS.row) : bool :=
  forallb (fun item => JS.isString (JS.get item x)) rows.

(** The x value of the first row has the shape of an identifier. *)
Definition looksLikeIds (x : string) (rows : list JS.row) : bool :=
  match rows with
  | item :: _ =>
      match JS.get item x with
      | JS.VStr s => JS.idPattern s
      | JS.VPrim _ => false
      end
  | [] => false
  end.

(** The condition under which a bar, line or area chart is bucketed. *)
Definition barBucketing (config : ChartConfig) (rows : list JS.row) : bool :=
  match cType config with
  | Bar | Line | Area =>
      given (xAxis config) && given (yAxis config)
      && negb (given (groupBy config))
      && (10 <? JS.setSize (JS.column rows (keyOf (xAxis config))))%nat
      && looksLikeIds (keyOf (xAxis config)) rows
  | Pie | Scatter => false
  end.

(** The condition under which a pie is bucketed. *)
Definition pieBucketing (config : ChartConfig) (rows : list JS.row) : bool :=
  given (xAxis config) && looksLikeIds (keyOf (xAxis config)) rows.

(** A y value that is a finite number. *)
Definition finiteValue (v : JS.scalar) : Prop :=
  exists q, JS.toNumber v = Double.Fin q.

(** ** Slices with integer values *)

(** The value of a slice as an integer. *)
Definition integerOf (s : slice) : Z :=
  match JS.toNumber (value s) with
  | Double.Fin q => Qfloor q
  | _ => 0%Z
  end.

(** The value of the slice is an integer. *)
Definition integral (s : slice) : Prop :=
  JS.toNumber (value s) = Double.Fin (inject_Z (integerOf s)).

(** The exact sum of the values of integer slices, and the sum of their
    magnitudes. *)
Definition integerSum (l : list slice) : Z :=
  fold_right (fun s acc => (integerOf s + acc)%Z) 0%Z l.

Definition magnitude (l : list slice) : Z :=
  fold_right (fun s acc => (Z.abs (integerOf s) + acc)%Z) 0%Z l.

(** The slice has a value that compares, and [a] is no smaller than [b]. *)
Definition comparableSlice (s : slice) : Prop :=
  Double.comparable (JS.toNumber (value s)).

Definition noSmaller (a b : slice) : Prop :=
  Double.ltb (JS.toNumber (value a)) (JS.toNumber (value b)) = false.

End Chart.

(* ================================================================== *)
(** * lib/services/data-analysis.ts: the fallback suggestions *)
(* ================================================================== *)

Module Suggest.

Local Open Scope string_scope.

(** ** The order of [Object.entries] *)

(** A property name that is an array index: the canonical numeral of an
    integer from 0 to [2 ^ 32 - 2]. *)
Definition isArrayIndex (s : string) : bool :=
  match s with
  | EmptyString => false
  | String c r =>
      JS.all_digits s
      && (match r with EmptyString => true | _ => negb (Ascii.eqb c "0") end)
      && (JS.digitsVal (list_ascii_of_string s) <=? 4294967294)%Z
  end.

Definition indexValue (s : string) : Z :=
  JS.digitsVal (list_ascii_of_string s).

Section Entries.
Variable A : Type.

(** The place of an entry among entries in ascending order of index. *)
Fixpoint insertByIndex (e : string * A) (l : list (string * A))
  : list (string * A) :=
  match l with
  | [] => [e]
  | f :: r =>
      if (indexValue (fst e) <? indexValue (fst f))%Z then e :: f :: r
      else f :: insertByIndex e r
  end.

(** [Object.entries(obj)] for an object built by the assignments
    [obj[k] = v], [obj] listing them in the order of their first
    assignment: the array indices come first, in ascending order, then the
    other names in the order of assignment.  The assignment to
    ["__proto__"] makes no property of the object. *)
Definition objectEntries (obj : list (string * A)) : list (string * A) :=
  let own := filter (fun e => negb (String.eqb (fst e) "__proto__")) obj in
  (fold_right insertByIndex [] (filter (fun e => isArrayIndex (fst e)) own)
   ++ filter (fun e => negb (isArrayIndex (fst e))) own)%list.
End Entries.

(** ** [getFallbackSuggestions] *)

(** [VisualizationSuggestion], its [config] flattened; [groupBy] is [None]
    when the key is absent, [xAxis] is [None] for [undefined]. *)
Record suggestion : Type := {
  chartType : ChartType;
  xAxis : option string;
  yAxis : string;
  groupBy : option string;
  title : string;
  description : string
}.

Definition isType (t : Stats.columnType) (c : Stats.columnStats) : bool :=
  match t, Stats.type c with
  | Stats.Categorical, Stats.Categorical
  | Stats.Numeric, Stats.Numeric
  | Stats.Date, Stats.Date => true
  | _, _ => false
  end.

Definition dateFields (stats : list (string * Stats.columnStats))
  : list string :=
  map fst (filter (fun e => isType Stats.Date (snd e)) (objectEntries stats)).

Definition numericFields (stats : list (string * Stats.columnStats))
  : list string :=
  map fst (filter (fun e => isType Stats.Numeric (snd e)
                            && Stats.hasNonZeroValues (snd e))
                  (objectEntries stats)).

Definition categoryFields (stats : list (string * Stats.columnStats))
  : list string :=
  map fst (filter (fun e => isType Stats.Categorical (snd e)
                            && (2 <=? Stats.uniqueValues (snd e))%nat
                            && (Stats.uniqueValues (snd e) <=? 15)%nat)
                  (objectEntries stats)).

Definition getFallbackSuggestions (headers : list string)
  (rows : list JS.row) : list suggestion :=
  let stats := Stats.getDatasetStats headers rows in
  let dateFields := dateFields stats in
  let numericFields := numericFields stats in
  let categoryFields := categoryFields stats in
  let timeSeries :=
    match dateFields, numericFields with
    | d :: _, n0 :: more =>
        {| chartType := Line; xAxis := Some d; yAxis := n0; groupBy := None;
           title := n0 ++ " Over Time";
           description := "Shows how " ++ n0 ++ " changes over time." |}
        :: match more with
           | n1 :: _ =>
               [{| chartType := Bar; xAxis := Some d; yAxis := n1;
                   groupBy := None;
                   title := n1 ++ " by Time Period";
                   description :=
                     "Compares " ++ n1
                     ++ " across different time periods." |}]
           | [] => []
           end
    | _, _ => []
    end in
  let comparison :=
    match categoryFields, numericFields with
    | c :: _, n0 :: _ =>
        [{| chartType := Bar; xAxis := Some c; yAxis := n0; groupBy := None;
            title := n0 ++ " by " ++ c;
            description :=
              "Compares " ++ n0 ++ " across different " ++ c
              ++ " categories." |};
         {| chartType := Pie; xAxis := Some c; yAxis := n0; groupBy := None;
            title := "Distribution of " ++ n0 ++ " by " ++ c;
            description :=
              "Shows the distribution of " ++ n0 ++ " across " ++ c
              ++ " categories." |}]
    | _, _ => []
    end in
  let scatter :=
    match numericFields with
    | n0 :: n1 :: _ =>
        [{| chartType := Scatter; xAxis := Some n0; yAxis := n1;
            groupBy := None;
            title := "Relationship Between " ++ n0 ++ " and " ++ n1;
            description :=
              "Explores the potential correlation between " ++ n0
              ++ " and " ++ n1 ++ "." |}]
    | _ => []
    end in
  let grouped :=
    match categoryFields, dateFields, numericFields with
    | c :: _, d :: _, n0 :: _ =>
        [{| chartType := Line; xAxis := Some d; yAxis := n0;
            groupBy := Some c;
            title := n0 ++ " Over Time by " ++ c;
            description :=
              "Compares how " ++ n0
              ++ " trends over time across different " ++ c
              ++ " categories." |}]
    | _, _, _ => []
    end in
  let suggestions := (timeSeries ++ comparison ++ scatter ++ grouped)%list in
  match suggestions, numericFields with
  | [], n0 :: _ =>
      let xAxis :=
        match find (fun h => negb (String.eqb h n0)) headers with
        | Some h => if String.eqb h "" then nth_error headers 0 else Some h
        | None => nth_error headers 0
        end in
      [{| chartType := Bar; xAxis := xAxis; yAxis := n0; groupBy := None;
          title := n0 ++ " Overview";
          description := "A basic overview of " ++ n0 ++ " values." |}]
  | _, _ => suggestions
  end.

End Suggest.

(* ================================================================== *)
(** * Sample data *)
(* ================================================================== *)

Module Examples.

Local Open Scope string_scope.

(** A row with one cell, the number [i] under the header "n". *)
Definition numbered (i : nat) : JS.row :=
  [("n", JS.VNum (Double.Fin (inject_Z (Z.of_nat i))))].

(** [k] rows, numbered from 0. *)
Definition numberedRows (k : nat) : list JS.row := map numbered (seq 0 k).

Definition evenlyTo (n : Z) : Reducer.options :=
  {| Reducer.maxRows := Some n;
     Reducer.samplingStrategy := Some Reducer.Evenly;
     Reducer.fields := None |}.

Definition sampleTo (n : Z) (s : Reducer.strategy) : Reducer.options :=
  {| Reducer.maxRows := Some n;
     Reducer.samplingStrategy := Some s;
     Reducer.fields := None |}.

(** An oracle for the random draws: always the first item of the pool. *)
Definition firstIndex (i n : nat) : nat := O.

End Examples.

Module CacheExamples.

Local Open Scope string_scope.

(** A cache of numbers with the default options, and the same after
    [set("a", 7)] at time 1000. *)
Definition empty : DataCache.t Z := DataCache.create Z None None.

Definition withA : DataCache.t Z := DataCache.set empty "a" 7%Z 1000.

(** A cache for two entries, full: "a" set at time 10, "b" at time 20. *)
Definition pair : DataCache.t Z :=
  DataCache.set
    (DataCache.set (DataCache.create Z (Some 1000%Z) (Some 2%Z)) "a" 1%Z 10)
    "b" 2%Z 20.

(** A full cache whose oldest entry is stored under the empty key. *)
Definition unnamed : DataCache.t Z :=
  DataCache.set
    (DataCache.set (DataCache.create Z (Some 1000%Z) (Some 2%Z)) "" 1%Z 10)
    "b" 2%Z 20.

End CacheExamples.

Module DashboardExamples.

Local Open Scope string_scope.

(** One column of lengths written with a unit. *)
Definition widths : list JS.row :=
  [[("w", JS.VStr "5px")]; [("w", JS.VStr "12abc")]].

(** A column of codes and a column of amounts. *)
Definition coded : list JS.row :=
  [[("code", JS.VStr "C1001"); ("amount", JS.VNum (Double.Fin 10))];
   [("code", JS.VStr "C1002"); ("amount", JS.VNum (Double.Fin 20))]].

(** The imported dataset of one row [{name: "a"}], its row object at
    address 0 of the heap, before any handler ran. *)
Definition named : Dashboard.dataset :=
  {| Dashboard.headers := ["name"]; Dashboard.rows := [O] |}.

Definition initial : Dashboard.state :=
  {| Dashboard.heap := [[("name", JS.VStr "a")]];
     Dashboard.currentData := None;
     Dashboard.charts := [];
     Dashboard.draws := O |}.

(** Scenario A: 20 rows under the headers "date", "region", "sales"; row
    [i] has the date "2024-01-15", the region [i mod 3] of [regions] and
    the sales [sales i]. *)
Definition scenarioHeaders : list string := ["date"; "region"; "sales"].

Definition scenarioRow (regions : list string) (sales : nat -> Z) (i : nat)
  : JS.row :=
  [("date", JS.VStr "2024-01-15");
   ("region", JS.VStr (nth (Nat.modulo i 3) regions ""));
   ("sales", JS.VNum (Double.Fin (inject_Z (sales i))))].

Definition scenarioRows (regions : list string) (sales : nat -> Z)
  : list JS.row :=
  map (scenarioRow regions sales) (seq 0 20).

(** The state once such a dataset is imported: row object [i] at address
    [i]. *)
Definition scenario (regions : list string) (sales : nat -> Z)
  : Dashboard.state :=
  {| Dashboard.heap := scenarioRows regions sales;
     Dashboard.currentData :=
       Some {| Dashboard.headers := scenarioHeaders;
               Dashboard.rows := seq 0 20 |};
     Dashboard.charts := [];
     Dashboard.draws := O |}.

(** Stand-ins for [Math.sin] and [Math.random] where their values do not
    matter. *)
Definition noSin (x : Double.num) : Double.num := Double.zero.
Definition noRandom (i : nat) : Double.num := Double.zero.

(** The chart added by [handleAddChart("line")] in a scenario. *)
Definition lineChart (regions : list string) (sales : nat -> Z)
  : option ChartConfig :=
  Dashboard.lastConfig
    (Dashboard.handleAddChart noSin noRandom Line Dashboard.noOverrides 0
       (scenario regions sales)).

Definition compass : list string := ["North"; "South"; "East"].

Definition codes : list string := ["R1"; "R2"; "R3"].

(** Sales that grow with the row, and sales that are all the same. *)
Definition growing (i : nat) : Z := Z.of_nat (S i).
Definition flat (i : nat) : Z := 100%Z.

End DashboardExamples.

Module ChartExamples.

Local Open Scope string_scope.

(** A slice with an integer value. *)
Definition whole (n : string) (z : Z) : Chart.slice :=
  {| Chart.name := JS.VStr n;
     Chart.value := JS.SNum (Double.Fin (inject_Z z)) |}.

(** Ten slices of a pie. *)
Definition shares : list Chart.slice :=
  [whole "a" 5; whole "b" 30; whole "c" 10; whole "d" 20; whole "e" 1;
   whole "f" 2; whole "g" 40; whole "h" 3; whole "i" 4; whole "j" 50].

(** Nine slices, one of them [2 ^ 53]. *)
Definition lossy : list Chart.slice :=
  [whole "a" 1; whole "b" 1; whole "c" (2 ^ 53); whole "d" 0; whole "e" 0;
   whole "f" 0; whole "g" 0; whole "h" 0; whole "i" 0].

(** A row with an identifier and a number. *)
Definition idRow (id : string) (v : Z) : JS.row :=
  [("id", JS.VStr id); ("v", JS.VNum (Double.Fin (inject_Z v)))].

(** Eleven customers. *)
Definition customers : list JS.row :=
  [idRow "C1" 10; idRow "C2" 20; idRow "C3" 30; idRow "C4" 40;
   idRow "C5" 50; idRow "C6" 60; idRow "C7" 70; idRow "C8" 80;
   idRow "C9" 90; idRow "C10" 100; idRow "C11" 110].

(** Eleven rows of which only the first has the shape of an identifier. *)
Definition mixed : list JS.row :=
  [idRow "C1" 10; idRow "item-2" 20; idRow "item-3" 30; idRow "item-4" 40;
   idRow "item-5" 50; idRow "item-6" 60; idRow "item-7" 70;
   idRow "item-8" 80; idRow "item-9" 90; idRow "item-10" 100;
   idRow "item-11" 110].

(** One customer. *)
Definition single : list JS.row := [idRow "C1" 5].

(** Two rows of one customer, the first without a number to show. *)
Definition unreadable : list JS.row :=
  [[("id", JS.VStr "C1"); ("v", JS.VStr "abc")]; idRow "C1" 5].

(** The customers with a region each. *)
Definition inRegions : list JS.row :=
  map (fun r => JS.put r "g" (JS.VStr "north")) customers.

(** The customers, and a row that has no identifier. *)
Definition anonymous : list JS.row :=
  (customers ++ [[("v", JS.VNum (Double.Fin (inject_Z 5)))]])%list.

Definition chartOf (t : ChartType) (g : option string) : ChartConfig :=
  {| cType := t; xAxis := Some "id"; yAxis := Some "v"; groupBy := g;
     title := "chart" |}.

End ChartExamples.

(* ================================================================== *)
(** * Properties of the rounding *)
(* ================================================================== *)

Module DoubleFacts.

Import Double.
Local Open Scope Q_scope.

Lemma pow2_pos z : 0 < 2 ^ z.
Proof. apply Qpower_0_lt. reflexivity. Qed.

Lemma pow2_add a b : 2 ^ (a + b) == 2 ^ a * 2 ^ b.
Proof. apply Qpower_plus. discriminate. Qed.

Lemma pow2_succ a : 2 ^ (a + 1) == 2 * 2 ^ a.
Proof. rewrite pow2_add. change (2 ^ 1) with 2. ring. Qed.

Lemma pow2_mono a b : (a <= b)%Z -> 2 ^ a <= 2 ^ b.
Proof. intros H. apply Qpower_le_compat_l; [exact H | discriminate]. Qed.

Lemma pow2_inject z : (0 <= z)%Z -> inject_Z (2 ^ z) == 2 ^ z.
Proof. intros H. exact (Zpower_Qpower 2 z H). Qed.

Lemma pow2_lt_inv a b : 2 ^ a < 2 ^ b -> (a < b)%Z.
Proof.
  intros H. destruct (Z_lt_le_dec a b) as [Hlt | Hle]; [exact Hlt |].
  pose proof (pow2_mono Hle). lra.
Qed.

(** The powers of two around a positive integer. *)
Lemma Z_log2_bounds p : (0 < p)%Z ->
  2 ^ Z.log2 p <= inject_Z p /\ inject_Z p < 2 ^ (Z.log2 p + 1).
Proof.
  intros Hp. destruct (Z.log2_spec p Hp) as [H1 H2].
  pose proof (Z.log2_nonneg p) as H0.
  split.
  - rewrite <- pow2_inject by exact H0. rewrite <- Zle_Qle. exact H1.
  - rewrite <- pow2_inject by lia. rewrite <- Zlt_Qlt.
    replace (Z.log2 p + 1)%Z with (Z.succ (Z.log2 p)) by lia. exact H2.
Qed.

(** [ilog2] is the binary logarithm rounded down. *)
Lemma ilog2_spec x : 0 < x -> 2 ^ ilog2 x <= x /\ x < 2 ^ (ilog2 x + 1).
Proof.
  intros Hx. unfold ilog2.
  destruct x as [p q]. cbn [Qnum Qden].
  assert (Hp : (0 < p)%Z) by (unfold Qlt in Hx; cbn in Hx; lia).
  destruct (Z_log2_bounds Hp) as [P1 P2].
  destruct (Z_log2_bounds (Pos2Z.is_pos q)) as [Q1 Q2].
  set (lp := Z.log2 p) in *. set (lq := Z.log2 (Z.pos q)) in *.
  assert (Hx' : inject_Z p == (p # q) * inject_Z (Z.pos q)).
  { unfold Qeq, Qmult, inject_Z. cbn. lia. }
  set (x := p # q) in *.
  destruct (Qle_bool (2 ^ (lp - lq)) x) eqn:E.
  - apply Qle_bool_iff in E. split; [exact E |].
    pose proof (pow2_pos lq) as Hq.
    assert (Hs : 2 ^ (lp + 1) == 2 ^ (lp - lq + 1) * 2 ^ lq).
    { rewrite <- pow2_add.
      replace (lp - lq + 1 + lq)%Z with (lp + 1)%Z by lia. reflexivity. }
    apply Qnot_le_lt. intros Hc.
    assert (2 ^ (lp - lq + 1) * 2 ^ lq <= x * inject_Z (Z.pos q)).
    { apply Qle_trans with (x * 2 ^ lq).
      - apply Qmult_le_compat_r; [exact Hc | lra].
      - rewrite !(Qmult_comm x). apply Qmult_le_compat_r; [exact Q1 | lra]. }
    lra.
  - assert (E' : x < 2 ^ (lp - lq)).
    { apply Qnot_le_lt. intros Hc. apply Qle_bool_iff in Hc. congruence. }
    split.
    + pose proof (pow2_pos (lq + 1)) as Hq.
      assert (Hs : 2 ^ lp == 2 ^ (lp - lq - 1) * 2 ^ (lq + 1)).
      { rewrite <- pow2_add.
        replace (lp - lq - 1 + (lq + 1))%Z with lp by lia. reflexivity. }
      apply Qnot_lt_le. intros Hc.
      assert (x * inject_Z (Z.pos q) < 2 ^ (lp - lq - 1) * 2 ^ (lq + 1)).
      { apply Qle_lt_trans with (x * 2 ^ (lq + 1)).
        - rewrite !(Qmult_comm x). apply Qmult_le_compat_r; lra.
        - apply Qmult_lt_compat_r; [lra | exact Hc]. }
      lra.
    + replace (lp - lq - 1 + 1)%Z with (lp - lq)%Z by lia. exact E'.
Qed.

Lemma ilog2_mono x y : 0 < x -> x <= y -> (ilog2 x <= ilog2 y)%Z.
Proof.
  intros Hx Hxy.
  destruct (ilog2_spec Hx) as [X1 _].
  destruct (@ilog2_spec y) as [_ Y2]; [lra |].
  assert (H : 2 ^ ilog2 x < 2 ^ (ilog2 y + 1)) by lra.
  apply pow2_lt_inv in H. lia.
Qed.

(** [ilog2] is determined by the binade. *)
Lemma ilog2_unique x l : 2 ^ l <= x -> x < 2 ^ (l + 1) -> ilog2 x = l.
Proof.
  intros H1 H2.
  assert (Hx : 0 < x) by (pose proof (pow2_pos l); lra).
  destruct (ilog2_spec Hx) as [X1 X2].
  assert (A : 2 ^ l < 2 ^ (ilog2 x + 1)) by lra.
  assert (B : 2 ^ ilog2 x < 2 ^ (l + 1)) by lra.
  apply pow2_lt_inv in A. apply pow2_lt_inv in B. lia.
Qed.

Lemma Qfloor_bounds y :
  inject_Z (Qfloor y) <= y /\ y < inject_Z (Qfloor y) + 1.
Proof.
  split; [apply Qfloor_le |].
  pose proof (Qlt_floor y) as H. rewrite inject_Z_plus in H. exact H.
Qed.

(** ** Rounding to the nearest integer *)

Lemma rne_cases y :
  (rne y = Qfloor y /\ y - inject_Z (Qfloor y) <= 1 # 2) \/
  (rne y = (Qfloor y + 1)%Z /\ 1 # 2 <= y - inject_Z (Qfloor y)).
Proof.
  unfold rne. cbv zeta.
  destruct (Qcompare_spec (y - inject_Z (Qfloor y)) (1 # 2)) as [E | E | E].
  - destruct (Z.even (Qfloor y)); [left | right]; split;
      try reflexivity; lra.
  - left. split; [reflexivity | lra].
  - right. split; [reflexivity | lra].
Qed.

Lemma rne_error y :
  inject_Z (rne y) - (1 # 2) <= y /\ y <= inject_Z (rne y) + (1 # 2).
Proof.
  destruct (Qfloor_bounds y) as [H1 H2].
  destruct (rne_cases y) as [[-> H] | [-> H]].
  - lra.
  - rewrite inject_Z_plus. change (inject_Z 1) with 1. lra.
Qed.

Lemma rne_comp x y : x == y -> rne x = rne y.
Proof.
  intros H. unfold rne. cbv zeta.
  rewrite (Qfloor_comp _ _ H).
  assert (Hc : Qcompare (x - inject_Z (Qfloor y)) (1 # 2)
               = Qcompare (y - inject_Z (Qfloor y)) (1 # 2)).
  { apply Qcompare_comp; [rewrite H; reflexivity | reflexivity]. }
  rewrite Hc. reflexivity.
Qed.

Lemma rne_inject z : rne (inject_Z z) = z.
Proof.
  unfold rne. cbv zeta. rewrite Qfloor_Z.
  assert (E : Qcompare (inject_Z z - inject_Z z) (1 # 2) = Lt).
  { rewrite <- Qlt_alt. generalize (inject_Z z). intros q. lra. }
  rewrite E. reflexivity.
Qed.

Lemma rne_mono x y : x <= y -> (rne x <= rne y)%Z.
Proof.
  intros H. pose proof (Qfloor_resp_le _ _ H) as Hf.
  destruct (Qfloor_bounds x) as [X1 X2].
  destruct (Qfloor_bounds y) as [Y1 Y2].
  destruct (Z.eq_dec (Qfloor x) (Qfloor y)) as [E | NE].
  - unfold rne. cbv zeta. rewrite E in *.
    destruct (Qcompare_spec (x - inject_Z (Qfloor y)) (1 # 2)) as [Cx | Cx | Cx];
    destruct (Qcompare_spec (y - inject_Z (Qfloor y)) (1 # 2)) as [Cy | Cy | Cy];
    try (exfalso; lra); destruct (Z.even (Qfloor y)); lia.
  - assert (Hlt : (Qfloor x + 1 <= Qfloor y)%Z) by lia.
    destruct (rne_cases x) as [[-> _] | [-> _]];
    destruct (rne_cases y) as [[-> _] | [-> _]]; lia.
Qed.

(** ** Rounding to 53 bits *)

Lemma rnd_eq x :
  rnd x == inject_Z (rne (x / 2 ^ ulp_exp x)) * 2 ^ ulp_exp x.
Proof. unfold rnd. cbv zeta. apply Qred_correct. Qed.

Lemma div_pow2_mul x e : x / 2 ^ e * 2 ^ e == x.
Proof. pose proof (pow2_pos e). field. lra. Qed.

(** The error of a rounding is half a unit in the last place at most. *)
Lemma rnd_error x :
  rnd x - 2 ^ ulp_exp x * (1 # 2) <= x /\ x <= rnd x + 2 ^ ulp_exp x * (1 # 2).
Proof.
  rewrite rnd_eq.
  set (e := ulp_exp x). pose proof (pow2_pos e) as He.
  destruct (rne_error (x / 2 ^ e)) as [H1 H2].
  pose proof (div_pow2_mul x e) as Hx.
  set (y := x / 2 ^ e) in *. set (r := inject_Z (rne y)) in *.
  split; nra.
Qed.

Lemma Qabs_pos_eq x : 0 < x -> Qabs x = x.
Proof.
  destruct x as [p q]. unfold Qlt. cbn. intros H.
  unfold Qabs. rewrite Z.abs_eq by lia. reflexivity.
Qed.

Lemma ulp_exp_pos x : 0 < x -> ulp_exp x = Z.max (ilog2 x - 52) emin.
Proof. intros H. unfold ulp_exp. rewrite (Qabs_pos_eq H). reflexivity. Qed.

Lemma ulp_exp_mono x y : 0 < x -> x <= y -> (ulp_exp x <= ulp_exp y)%Z.
Proof.
  intros Hx Hxy. rewrite (ulp_exp_pos Hx), ulp_exp_pos by lra.
  pose proof (ilog2_mono Hx Hxy). lia.
Qed.

Lemma rnd_lower x :
  0 < x -> 2 ^ emin <= x -> 2 ^ Z.max (ilog2 x) emin <= rnd x.
Proof.
  intros Hx Hmin. rewrite rnd_eq. rewrite (ulp_exp_pos Hx).
  destruct (ilog2_spec Hx) as [X1 X2].
  set (L := ilog2 x) in *. set (e := Z.max (L - 52) emin).
  pose proof (pow2_pos e) as He.
  set (M := Z.max L emin).
  assert (Hle : (e <= M)%Z) by (unfold e, M; lia).
  assert (HM : 2 ^ M <= x).
  { unfold M. destruct (Z.max_spec L emin) as [[_ ->] | [_ ->]]; assumption. }
  assert (Hk : 2 ^ M == inject_Z (2 ^ (M - e)) * 2 ^ e).
  { rewrite pow2_inject by lia. rewrite <- pow2_add.
    replace (M - e + e)%Z with M by lia. reflexivity. }
  assert (Hy : inject_Z (2 ^ (M - e)) <= x / 2 ^ e).
  { apply Qle_shift_div_l; [exact He |]. rewrite <- Hk. exact HM. }
  apply rne_mono in Hy. rewrite rne_inject in Hy.
  rewrite Hk. apply Qmult_le_compat_r; [| lra].
  rewrite <- Zle_Qle. exact Hy.
Qed.

Lemma rnd_upper x : 0 < x -> rnd x <= 2 ^ Z.max (ilog2 x + 1) emin.
Proof.
  intros Hx. rewrite rnd_eq. rewrite (ulp_exp_pos Hx).
  destruct (ilog2_spec Hx) as [X1 X2].
  set (L := ilog2 x) in *. set (e := Z.max (L - 52) emin).
  pose proof (pow2_pos e) as He.
  set (M := Z.max (L + 1) emin).
  assert (Hle : (e <= M)%Z) by (unfold e, M; lia).
  assert (HM : x <= 2 ^ M).
  { apply Qle_trans with (2 ^ (L + 1)); [lra |].
    apply pow2_mono. unfold M. lia. }
  assert (Hk : 2 ^ M == inject_Z (2 ^ (M - e)) * 2 ^ e).
  { rewrite pow2_inject by lia. rewrite <- pow2_add.
    replace (M - e + e)%Z with M by lia. reflexivity. }
  assert (Hy : x / 2 ^ e <= inject_Z (2 ^ (M - e))).
  { apply Qle_shift_div_r; [exact He |]. rewrite <- Hk. exact HM. }
  apply rne_mono in Hy. rewrite rne_inject in Hy.
  rewrite Hk. apply Qmult_le_compat_r; [| lra].
  rewrite <- Zle_Qle. exact Hy.
Qed.

(** Rounding is monotone. *)
Lemma rnd_mono_pos x y : 0 < x -> x <= y -> rnd x <= rnd y.
Proof.
  intros Hx Hxy. assert (Hy : 0 < y) by lra.
  pose proof (ilog2_mono Hx Hxy) as HL.
  destruct (Z.eq_dec (ulp_exp x) (ulp_exp y)) as [E | NE].
  - rewrite !rnd_eq. rewrite E.
    set (e := ulp_exp y). pose proof (pow2_pos e) as He.
    apply Qmult_le_compat_r; [| lra].
    rewrite <- Zle_Qle. apply rne_mono.
    apply Qmult_le_compat_r; [exact Hxy |].
    apply Qlt_le_weak. apply Qinv_lt_0_compat. exact He.
  - rewrite (ulp_exp_pos Hx), (ulp_exp_pos Hy) in NE.
    assert (Hlt : (ilog2 x + 1 <= ilog2 y)%Z) by lia.
    assert (Hemin : (emin < ilog2 y - 52)%Z) by lia.
    destruct (ilog2_spec Hy) as [Y1 _].
    apply Qle_trans with (2 ^ Z.max (ilog2 x + 1) emin);
      [apply rnd_upper; exact Hx |].
    apply Qle_trans with (2 ^ Z.max (ilog2 y) emin).
    + apply pow2_mono. lia.
    + apply rnd_lower; [exact Hy |].
      apply Qle_trans with (2 ^ ilog2 y); [apply pow2_mono; lia | exact Y1].
Qed.

Lemma rnd_nonneg x : 0 <= x -> 0 <= rnd x.
Proof.
  intros Hx. rewrite rnd_eq.
  set (e := ulp_exp x). pose proof (pow2_pos e) as He.
  assert (Hy : inject_Z 0 <= x / 2 ^ e).
  { apply Qle_shift_div_l; [exact He |]. change (inject_Z 0) with 0. lra. }
  apply rne_mono in Hy. rewrite rne_inject in Hy.
  rewrite Zle_Qle in Hy. change (inject_Z 0) with 0 in Hy. nra.
Qed.

Lemma rnd_nonpos x : x <= 0 -> rnd x <= 0.
Proof.
  intros Hx. rewrite rnd_eq.
  set (e := ulp_exp x). pose proof (pow2_pos e) as He.
  assert (Hy : x / 2 ^ e <= inject_Z 0).
  { apply Qle_shift_div_r; [exact He |]. change (inject_Z 0) with 0. lra. }
  apply rne_mono in Hy. rewrite rne_inject in Hy.
  rewrite Zle_Qle in Hy. change (inject_Z 0) with 0 in Hy. nra.
Qed.

Lemma rnd_mono x y : 0 <= x -> x <= y -> rnd x <= rnd y.
Proof.
  intros Hx Hxy. destruct (Qlt_le_dec 0 x) as [Hp | Hz].
  - apply rnd_mono_pos; assumption.
  - apply Qle_trans with 0; [apply rnd_nonpos; exact Hz |].
    apply rnd_nonneg. lra.
Qed.

Lemma ilog2_comp x y : 0 < x -> x == y -> ilog2 x = ilog2 y.
Proof.
  intros Hx E. destruct (ilog2_spec Hx) as [X1 X2].
  symmetry. apply ilog2_unique; rewrite <- E; assumption.
Qed.

Lemma rnd_zero x : x == 0 -> rnd x = 0.
Proof.
  intros E. unfold rnd. cbv zeta.
  set (e := ulp_exp x).
  assert (R : rne (x / 2 ^ e) = 0%Z).
  { rewrite (@rne_comp (x / 2 ^ e) (inject_Z 0)); [apply rne_inject |].
    rewrite E. unfold Qdiv. change (inject_Z 0) with 0. ring. }
  rewrite R. apply (Qred_complete (inject_Z 0 * 2 ^ e) 0).
  change (inject_Z 0) with 0. ring.
Qed.

Lemma Qabs_pos_nz x : ~ x == 0 -> 0 < Qabs x.
Proof.
  intros Hx. destruct (Qlt_le_dec 0 (Qabs x)) as [H | H]; [exact H |].
  exfalso. apply Hx. pose proof (Qabs_nonneg x) as Hn.
  assert (Ha : Qabs x == 0) by lra.
  revert Ha. apply Qabs_case; intros; lra.
Qed.

Lemma ulp_exp_comp x y : ~ x == 0 -> x == y -> ulp_exp x = ulp_exp y.
Proof.
  intros Hx E. unfold ulp_exp.
  rewrite (@ilog2_comp (Qabs x) (Qabs y) (Qabs_pos_nz Hx)); [reflexivity |].
  rewrite E. reflexivity.
Qed.

(** Rounding does not depend on the fraction that denotes the value. *)
Lemma rnd_comp x y : x == y -> rnd x = rnd y.
Proof.
  intros E. destruct (Qeq_dec x 0) as [Z | NZ].
  - rewrite (rnd_zero Z). symmetry. apply rnd_zero. rewrite <- E. exact Z.
  - unfold rnd. cbv zeta. rewrite <- (ulp_exp_comp NZ E).
    rewrite (@rne_comp (x / 2 ^ ulp_exp x) (y / 2 ^ ulp_exp x)).
    + reflexivity.
    + unfold Qdiv. apply Qmult_comp; [exact E | reflexivity].
Qed.

Lemma round_comp x y : x == y -> round x = round y.
Proof. intros E. unfold round. rewrite (rnd_comp E). reflexivity. Qed.

Lemma rnd_exact m e :
  (emin <= e)%Z -> (Z.abs m < 2 ^ 53)%Z ->
  rnd (inject_Z m * 2 ^ e) == inject_Z m * 2 ^ e.
Proof.
  intros He Hm. set (x := inject_Z m * 2 ^ e).
  destruct (Z.eq_dec m 0) as [-> | NZ].
  - rewrite rnd_zero; unfold x; change (inject_Z 0) with 0; ring.
  - rewrite rnd_eq. set (ex := ulp_exp x).
    pose proof (pow2_pos e) as Pe. pose proof (pow2_pos ex) as Pex.
    assert (Habs : Qabs x == inject_Z (Z.abs m) * 2 ^ e).
    { unfold x. rewrite Qabs_Qmult. rewrite (Qabs_pos (2 ^ e)) by lra.
      reflexivity. }
    assert (Hap : 0 < Qabs x).
    { rewrite Habs. apply Qmult_lt_0_compat; [| exact Pe].
      change 0 with (inject_Z 0). rewrite <- Zlt_Qlt. lia. }
    assert (Hle : (ex <= e)%Z).
    { unfold ex, ulp_exp.
      destruct (ilog2_spec Hap) as [L1 _].
      assert (Hlt : 2 ^ ilog2 (Qabs x) < 2 ^ (53 + e)).
      { apply Qle_lt_trans with (Qabs x); [exact L1 |].
        rewrite Habs, pow2_add. apply Qmult_lt_compat_r; [exact Pe |].
        rewrite <- pow2_inject by lia. rewrite <- Zlt_Qlt. exact Hm. }
      apply pow2_lt_inv in Hlt. lia. }
    assert (Hs : 2 ^ e == 2 ^ (e - ex) * 2 ^ ex).
    { rewrite <- pow2_add. replace (e - ex + ex)%Z with e by lia. reflexivity. }
    assert (Hq : x / 2 ^ ex == inject_Z (m * 2 ^ (e - ex))).
    { rewrite inject_Z_mult, pow2_inject by lia.
      unfold x. rewrite Hs. field. lra. }
    rewrite (rne_comp Hq), rne_inject.
    rewrite inject_Z_mult, pow2_inject by lia.
    unfold x. rewrite Hs. ring.
Qed.

Lemma Qred_inject z : Qred (inject_Z z) = inject_Z z.
Proof.
  apply Qcanon.Qred_identity. cbn. apply Z.gcd_1_r.
Qed.

Lemma pow2_1024_big z : (Z.abs z < 2 ^ 53)%Z ->
  Qle_bool (2 ^ 1024) (inject_Z z) = false /\ Qle_bool (inject_Z z) (- 2 ^ 1024) = false.
Proof.
  intros Hz.
  assert (B : 2 ^ 53 <= 2 ^ 1024) by (apply pow2_mono; lia).
  assert (U : inject_Z (Z.abs z) < 2 ^ 53).
  { rewrite <- pow2_inject by lia. rewrite <- Zlt_Qlt. exact Hz. }
  change (inject_Z (Z.abs z)) with (Qabs (inject_Z z)) in U.
  split; apply not_true_is_false; intros H; apply Qle_bool_iff in H;
    revert U; apply Qabs_case; intros; lra.
Qed.

(** Integers below [2 ^ 53] in magnitude are binary64 values. *)
Lemma rnd_inject z : (Z.abs z < 2 ^ 53)%Z -> rnd (inject_Z z) = inject_Z z.
Proof.
  intros Hz.
  assert (E : rnd (inject_Z z) == inject_Z z).
  { rewrite <- (rnd_comp (x := inject_Z z * 2 ^ 0) (y := inject_Z z)).
    - rewrite rnd_exact; [| unfold emin; lia | exact Hz].
      change (2 ^ 0) with 1. ring.
    - change (2 ^ 0) with 1. ring. }
  transitivity (Qred (inject_Z z)); [| apply Qred_inject].
  unfold rnd. cbv zeta. apply Qred_complete.
  rewrite <- rnd_eq. exact E.
Qed.

Lemma round_inject z :
  (Z.abs z < 2 ^ 53)%Z -> round (inject_Z z) = Fin (inject_Z z).
Proof.
  intros Hz. unfold round. rewrite (rnd_inject z Hz).
  destruct (pow2_1024_big z Hz) as [-> ->]. reflexivity.
Qed.

Lemma ofZ_exact z : (Z.abs z < 2 ^ 53)%Z -> ofZ z = Fin (inject_Z z).
Proof. apply round_inject. Qed.

Lemma ofNat_exact n : (Z.of_nat n < 2 ^ 53)%Z -> ofNat n = Fin (inject_Z (Z.of_nat n)).
Proof. intros H. apply ofZ_exact. lia. Qed.

(** Transport of an integer inequality to the rationals. *)
Ltac to_Q H :=
  first [rewrite Zle_Qle in H | rewrite Zlt_Qlt in H];
  unfold Z.sub in H;
  rewrite ?inject_Z_plus, ?inject_Z_mult, ?inject_Z_opp in H;
  change (inject_Z 0) with 0 in H; change (inject_Z 1) with 1 in H.

(** ** The stride of the even sampling

    [l] items sampled down to [n], with [0 < n < l < 2 ^ 32]. *)

Section Stride.
Variables L N : Z.
Hypothesis HN : (0 < N)%Z.
Hypothesis HNL : (N < L)%Z.
Hypothesis HL : (L < 2 ^ 32)%Z.

Let q : Q := inject_Z L / inject_Z N.
Let s : Q := rnd q.

Lemma stride_N_pos : 0 < inject_Z N.
Proof. change 0 with (inject_Z 0). rewrite <- Zlt_Qlt. exact HN. Qed.

Lemma stride_q_bounds : 1 + 2 ^ (-32) <= q /\ q <= inject_Z L.
Proof.
  pose proof stride_N_pos as Np.
  assert (HLq : inject_Z N + 1 <= inject_Z L).
  { change 1 with (inject_Z 1). rewrite <- inject_Z_plus, <- Zle_Qle. lia. }
  assert (HN32 : inject_Z N <= 2 ^ 32).
  { rewrite <- pow2_inject by lia. rewrite <- Zle_Qle. lia. }
  assert (HN1 : 1 <= inject_Z N).
  { change 1 with (inject_Z 1). rewrite <- Zle_Qle. lia. }
  assert (P : 2 ^ (-32) * 2 ^ 32 == 1).
  { rewrite <- pow2_add. reflexivity. }
  pose proof (pow2_pos (-32)) as P32.
  unfold q. split.
  - apply Qle_shift_div_l; [exact Np |]. nra.
  - apply Qle_shift_div_r; [exact Np |]. nra.
Qed.

Lemma ilog2_one_le x : 1 <= x -> (0 <= ilog2 x)%Z.
Proof.
  intros H. replace 0%Z with (ilog2 1).
  - apply ilog2_mono; [reflexivity | exact H].
  - apply ilog2_unique; [apply Qle_refl | reflexivity].
Qed.

Lemma stride_s_bounds : 1 + 2 ^ (-32) <= s /\ s <= q + q * 2 ^ (-53).
Proof.
  destruct stride_q_bounds as [Q1 Q2].
  pose proof (pow2_pos (-32)) as P32.
  assert (Hq1 : 1 <= q) by lra.
  assert (Hq0 : 0 < q) by lra.
  split.
  - assert (E : rnd (1 + 2 ^ (-32)) == 1 + 2 ^ (-32)).
    { rewrite (@rnd_comp (1 + 2 ^ (-32)) (inject_Z (2 ^ 32 + 1) * 2 ^ (-32))).
      - rewrite rnd_exact; [| unfold emin; lia | reflexivity].
        reflexivity.
      - reflexivity. }
    rewrite <- E. apply rnd_mono; lra.
  - destruct (rnd_error q) as [E1 E2]. fold s in E1.
    rewrite (ulp_exp_pos Hq0) in E1.
    pose proof (ilog2_one_le Hq1) as Hl.
    destruct (ilog2_spec Hq0) as [L1 _].
    replace (Z.max (ilog2 q - 52) emin) with (ilog2 q + (-52))%Z in E1
      by (unfold emin; lia).
    rewrite pow2_add in E1.
    assert (P : 2 ^ (-52) * (1 # 2) == 2 ^ (-53)) by reflexivity.
    pose proof (pow2_pos (-52)) as P52.
    set (a := 2 ^ ilog2 q) in *. nra.
Qed.

(** Below the last index, the product stays half a unit under the
    length. *)
Lemma stride_product_bound i :
  (0 <= i < N)%Z -> inject_Z i * s <= inject_Z L - (1 # 2).
Proof.
  intros Hi.
  destruct stride_q_bounds as [Q1 Q2]. destruct stride_s_bounds as [S1 S2].
  pose proof stride_N_pos as Np.
  pose proof (pow2_pos (-32)) as P32. pose proof (pow2_pos (-53)) as P53.
  assert (HNq : inject_Z N * q == inject_Z L).
  { unfold q. field. lra. }
  assert (Hi1 : (i <= N - 1)%Z) by lia. to_Q Hi1.
  assert (Hi0 : (0 <= i)%Z) by lia. to_Q Hi0.
  assert (HLu : inject_Z L * 2 ^ (-53) <= 1 # 4).
  { assert (HL32 : inject_Z L <= 2 ^ 32).
    { rewrite <- pow2_inject by lia. rewrite <- Zle_Qle. lia. }
    assert (C : 2 ^ 32 * 2 ^ (-53) <= 1 # 4) by (apply Qle_bool_iff; reflexivity).
    nra. }
  assert (Hs0 : 0 <= s) by lra.
  apply Qle_trans with ((inject_Z N - 1) * s); [nra |].
  apply Qle_trans with ((inject_Z N - 1) * (q + q * 2 ^ (-53))); [nra |].
  nra.
Qed.

Lemma stride_rnd_bounds i :
  (0 <= i < N)%Z ->
  0 <= rnd (inject_Z i * s) /\ rnd (inject_Z i * s) <= inject_Z L - (1 # 2).
Proof.
  intros Hi. pose proof (stride_product_bound Hi) as Hp.
  destruct stride_s_bounds as [S1 _]. pose proof (pow2_pos (-32)) as P32.
  assert (Hi0 : (0 <= i)%Z) by lia. to_Q Hi0.
  assert (Ht : 0 <= inject_Z i * s) by nra.
  split; [apply rnd_nonneg; exact Ht |].
  assert (E : rnd (inject_Z L - (1 # 2)) == inject_Z L - (1 # 2)).
  { rewrite (@rnd_comp (inject_Z L - (1 # 2)) (inject_Z (2 * L - 1) * 2 ^ (-1))).
    - rewrite rnd_exact; [| unfold emin; lia | lia].
      unfold Z.sub. rewrite inject_Z_plus, inject_Z_mult.
      change (2 ^ (-1)) with (1 # 2). change (inject_Z (- (1))) with (- (1)).
      change (inject_Z 2) with 2. ring.
    - unfold Z.sub. rewrite inject_Z_plus, inject_Z_mult.
      change (2 ^ (-1)) with (1 # 2). change (inject_Z (- (1))) with (- (1)).
      change (inject_Z 2) with 2. ring. }
  rewrite <- E. apply rnd_mono; assumption.
Qed.

Lemma strideIndex_range i :
  (0 <= i < N)%Z -> (0 <= strideIndex L N i < L)%Z.
Proof.
  intros Hi. destruct (stride_rnd_bounds Hi) as [R0 R1].
  unfold strideIndex. fold q. fold s. set (r := rnd (inject_Z i * s)) in *.
  destruct (Qfloor_bounds r) as [F1 F2]. split.
  - change 0%Z with (Qfloor 0). apply Qfloor_resp_le. exact R0.
  - rewrite Zlt_Qlt. lra.
Qed.

(** Consecutive steps read strictly increasing indices. *)
Lemma strideIndex_step i :
  (0 <= i)%Z -> (i + 1 < N)%Z ->
  (strideIndex L N i + 1 <= strideIndex L N (i + 1))%Z.
Proof.
  intros Hi0 Hi1.
  assert (Hi : (0 <= i < N)%Z) by lia.
  assert (Hj : (0 <= i + 1 < N)%Z) by lia.
  destruct (stride_rnd_bounds Hi) as [T0 T1].
  destruct (strideIndex_range Hi) as [K0 K1].
  destruct stride_s_bounds as [S1 _]. pose proof (pow2_pos (-32)) as P32.
  unfold strideIndex in *. fold q in K0, K1 |- *. fold s in K0, K1 |- *.
  set (t := inject_Z i * s) in *.
  set (x := inject_Z (i + 1) * s).
  assert (Hx : x == t + s).
  { unfold x, t. rewrite inject_Z_plus. change (inject_Z 1) with 1. ring. }
  set (k := Qfloor (rnd t)) in *.
  destruct (Qfloor_bounds (rnd t)) as [F1 _]. fold k in F1.
  to_Q Hi0.
  assert (Ht0 : 0 <= t) by (unfold t; nra).
  assert (Hk1 : (Z.abs (k + 1) < 2 ^ 53)%Z) by lia.
  assert (Goal : inject_Z (k + 1) <= rnd x).
  { destruct (Qlt_le_dec x (inject_Z (k + 1))) as [B | A].
    - (* the product falls short of the next integer *)
      assert (Htp : 0 < t).
      { destruct (Qlt_le_dec 0 t) as [H | H]; [exact H |]. exfalso.
        assert (Z0 : t == 0) by lra.
        assert (Kz : k = 0%Z).
        { unfold k. rewrite (rnd_zero Z0). reflexivity. }
        rewrite Kz in B. change (inject_Z (0 + 1)) with 1 in B. lra. }
      assert (Hxp : 0 < x) by lra.
      assert (Htx : t <= x) by lra.
      pose proof (ulp_exp_mono Htp Htx) as Hee.
      destruct (rnd_error t) as [Et _]. destruct (rnd_error x) as [_ Ex].
      set (et := ulp_exp t) in *. set (ex := ulp_exp x) in *.
      pose proof (pow2_mono Hee) as Hw.
      pose proof (pow2_pos et) as Wt. pose proof (pow2_pos ex) as Wx.
      assert (Hex : (ex <= 0)%Z).
      { unfold ex. rewrite (ulp_exp_pos Hxp).
        destruct (ilog2_spec Hxp) as [L1 _].
        assert (K32 : inject_Z (k + 1) <= 2 ^ 32).
        { rewrite <- pow2_inject by lia. rewrite <- Zle_Qle. lia. }
        assert (Hlt : 2 ^ ilog2 x < 2 ^ 32) by lra.
        apply pow2_lt_inv in Hlt. unfold emin. lia. }
      pose proof (rnd_eq x) as Rx. fold ex in Rx.
      set (m := rne (x / 2 ^ ex)) in *.
      set (n := ((k + 1) * 2 ^ (- ex))%Z).
      assert (Hn : inject_Z (k + 1) == inject_Z n * 2 ^ ex).
      { unfold n. rewrite inject_Z_mult, pow2_inject by lia.
        rewrite <- Qmult_assoc, <- pow2_add.
        replace (- ex + ex)%Z with 0%Z by lia. change (2 ^ 0) with 1. ring. }
      assert (Hmn : inject_Z (n - 1) < inject_Z m).
      { unfold Z.sub. rewrite inject_Z_plus.
        change (inject_Z (- (1))) with (- (1)).
        rewrite inject_Z_plus in Hn. change (inject_Z 1) with 1 in Hn.
        set (w := 2 ^ ex) in *. set (wt := 2 ^ et) in *.
        set (qm := inject_Z m) in *. set (qn := inject_Z n) in *.
        set (qk := inject_Z k) in *. set (r := rnd t) in *.
        set (rx := rnd x) in *. nra. }
      rewrite <- Zlt_Qlt in Hmn.
      assert (Hle : (n <= m)%Z) by lia.
      rewrite Zle_Qle in Hle.
      rewrite Rx, Hn. apply Qmult_le_compat_r; [exact Hle | lra].
    - rewrite <- (rnd_inject (k + 1) Hk1).
      apply rnd_mono; [| exact A].
      change 0 with (inject_Z 0). rewrite <- Zle_Qle. lia. }
  apply Qfloor_resp_le in Goal. rewrite Qfloor_Z in Goal. exact Goal.
Qed.

End Stride.

(** ** Order *)

Lemma Qle_bool_false x y : Qle_bool x y = false <-> y < x.
Proof.
  split; intros H.
  - apply Qnot_le_lt. intros Hc. apply Qle_bool_iff in Hc. congruence.
  - apply not_true_is_false. intros Hc. apply Qle_bool_iff in Hc. lra.
Qed.

Lemma ltb_Fin x y : ltb (Fin x) (Fin y) = true <-> x < y.
Proof.
  unfold ltb. rewrite negb_true_iff. apply Qle_bool_false.
Qed.

Lemma ltb_Fin_false x y : ltb (Fin x) (Fin y) = false <-> y <= x.
Proof.
  unfold ltb. rewrite negb_false_iff. apply Qle_bool_iff.
Qed.

Lemma ltb_asym a b : ltb a b = true -> ltb b a = false.
Proof.
  destruct a as [| | | x], b as [| | | y]; try reflexivity; try discriminate.
  rewrite ltb_Fin, ltb_Fin_false. lra.
Qed.

Lemma ltb_false_trans a b c :
  isNaN b = false ->
  ltb a b = false -> ltb b c = false -> ltb a c = false.
Proof.
  destruct a as [| | | x], b as [| | | y], c as [| | | z];
    try reflexivity; try discriminate.
  intros _. rewrite !ltb_Fin_false. lra.
Qed.

Lemma round_sign_pos d : 2 ^ emin <= d -> ltb zero (round d) = true.
Proof.
  intros Hd. pose proof (pow2_pos emin) as Pe.
  assert (Hp : 0 < d) by lra.
  pose proof (rnd_lower Hp Hd) as Hl.
  pose proof (pow2_pos (Z.max (ilog2 d) emin)) as Pm.
  unfold round. cbv zeta.
  destruct (Qle_bool (2 ^ 1024) (rnd d)); [reflexivity |].
  destruct (Qle_bool (rnd d) (- 2 ^ 1024)) eqn:E.
  - apply Qle_bool_iff in E. pose proof (pow2_pos 1024). lra.
  - unfold zero. apply ltb_Fin. lra.
Qed.

Lemma round_sign_nonpos d : d <= 0 -> ltb zero (round d) = false.
Proof.
  intros Hd. pose proof (rnd_nonpos Hd) as Hr.
  unfold round. cbv zeta.
  destruct (Qle_bool (2 ^ 1024) (rnd d)) eqn:E.
  - apply Qle_bool_iff in E. pose proof (pow2_pos 1024). lra.
  - destruct (Qle_bool (rnd d) (- 2 ^ 1024)); [reflexivity |].
    unfold zero. apply ltb_Fin_false. exact Hr.
Qed.

(** The difference of two numbers is positive exactly when the first is
    the larger: a difference of binary64 values does not round to zero. *)
Lemma sub_positive a b :
  comparable a -> comparable b ->
  gtb (sub b a) zero = ltb a b.
Proof.
  unfold gtb.
  destruct a as [| | | x], b as [| | | y]; cbn [comparable];
    intros Ha Hb; try contradiction; try reflexivity.
  destruct Ha as [m Hm], Hb as [n Hn].
  unfold sub, opp, add.
  assert (Ed : y + Qred (- x) == inject_Z (n - m) * 2 ^ emin).
  { rewrite Qred_correct, Hm, Hn. unfold Z.sub.
    rewrite inject_Z_plus, inject_Z_opp. ring. }
  rewrite (round_comp Ed).
  pose proof (pow2_pos emin) as Pe.
  destruct (Z_lt_le_dec m n) as [Hlt | Hle].
  - assert (H1 : (1 <= n - m)%Z) by lia.
    set (k := (n - m)%Z) in *. to_Q H1.
    rewrite round_sign_pos by nra.
    symmetry. apply ltb_Fin. rewrite Hm, Hn.
    assert (H2 : (m < n)%Z) by lia. to_Q H2. nra.
  - assert (H1 : (n - m <= 0)%Z) by lia.
    set (k := (n - m)%Z) in *. to_Q H1.
    rewrite round_sign_nonpos by nra.
    symmetry. apply ltb_Fin_false. rewrite Hm, Hn.
    assert (H2 : (n <= m)%Z) by lia. to_Q H2. nra.
Qed.


End DoubleFacts.

(* ================================================================== *)
(** * The dataset reducer *)
(* ================================================================== *)

Module ReducerFacts.
Import Double DoubleFacts Reducer.
Local Open Scope Q_scope.

Lemma round_finite x :
  - 2 ^ 1024 < rnd x -> rnd x < 2 ^ 1024 -> round x = Fin (rnd x).
Proof.
  intros H1 H2. unfold round. cbv zeta.
  destruct (Qle_bool (2 ^ 1024) (rnd x)) eqn:A.
  - apply Qle_bool_iff in A. lra.
  - destruct (Qle_bool (rnd x) (- 2 ^ 1024)) eqn:B; [| reflexivity].
    apply Qle_bool_iff in B. lra.
Qed.

Lemma big_1024 : 2 ^ 34 <= 2 ^ 1024.
Proof. apply pow2_mono. lia. Qed.

Section Evenly.
Variable len : nat.
Variable N : Z.
Hypothesis HN : (0 < N)%Z.
Hypothesis HNL : (N < Z.of_nat len)%Z.
Hypothesis HL : (Z.of_nat len < 2 ^ 32)%Z.

Lemma evenly_step_value :
  div (ofNat len) (ofZ N) = Fin (rnd (inject_Z (Z.of_nat len) / inject_Z N)).
Proof.
  rewrite ofNat_exact by lia. rewrite ofZ_exact by lia.
  unfold div.
  assert (S : Qsign (inject_Z N) = Gt).
  { unfold Qsign. rewrite <- Qgt_alt. change 0 with (inject_Z 0).
    rewrite <- Zlt_Qlt. exact HN. }
  rewrite S.
  destruct (stride_q_bounds HN HNL HL) as [Q1 Q2].
  destruct (stride_s_bounds HN HNL HL) as [S1 S2].
  cbv zeta in *.
  pose proof big_1024. pose proof (pow2_pos (-32)). pose proof (pow2_pos (-53)).
  assert (HL32 : inject_Z (Z.of_nat len) <= 2 ^ 32).
  { rewrite <- pow2_inject by lia. rewrite <- Zle_Qle. lia. }
  assert (C : 2 ^ (-53) <= 1) by (apply Qle_bool_iff; reflexivity).
  assert (C2 : 2 * 2 ^ 32 <= 2 ^ 34) by (apply Qle_bool_iff; reflexivity).
  apply round_finite; nra.
Qed.

Lemma evenlyIndex_value i :
  (i < Z.to_nat N)%nat ->
  evenlyIndex len N i
  = Fin (inject_Z (strideIndex (Z.of_nat len) N (Z.of_nat i))).
Proof.
  intros Hi. unfold evenlyIndex. rewrite evenly_step_value.
  assert (Hi' : (0 <= Z.of_nat i < N)%Z) by lia.
  rewrite ofNat_exact by lia. unfold mul.
  destruct (stride_rnd_bounds HN HNL HL Hi') as [R0 R1]. cbv zeta in R0, R1.
  pose proof big_1024.
  assert (HL32 : inject_Z (Z.of_nat len) <= 2 ^ 32).
  { rewrite <- pow2_inject by lia. rewrite <- Zle_Qle. lia. }
  assert (C2 : 2 ^ 32 <= 2 ^ 34) by (apply pow2_mono; lia).
  pose proof (pow2_pos 1024).
  rewrite round_finite by lra.
  reflexivity.
Qed.

Lemma toIndex_inject z :
  (0 <= z)%Z -> toIndex (Fin (inject_Z z)) = Some (Z.to_nat z).
Proof.
  intros Hz. unfold toIndex. rewrite Qfloor_Z.
  assert (A : Qle_bool 0 (inject_Z z) = true).
  { apply Qle_bool_iff. change 0 with (inject_Z 0). rewrite <- Zle_Qle. exact Hz. }
  rewrite A. rewrite (proj2 (Qeq_bool_iff _ _) (Qeq_refl _)). reflexivity.
Qed.

Lemma evenlyPosition_range i :
  (i < Z.to_nat N)%nat -> (evenlyPosition len N i < len)%nat.
Proof.
  intros Hi. unfold evenlyPosition.
  assert (Hi' : (0 <= Z.of_nat i < N)%Z) by lia.
  pose proof (strideIndex_range HN HNL HL Hi'). lia.
Qed.

Lemma evenlyPosition_step i :
  (S i < Z.to_nat N)%nat ->
  (evenlyPosition len N i < evenlyPosition len N (S i))%nat.
Proof.
  intros Hi. unfold evenlyPosition.
  assert (Hi' : (0 <= Z.of_nat i < N)%Z) by lia.
  pose proof (strideIndex_range HN HNL HL Hi').
  assert (H1 : (Z.of_nat i + 1 < N)%Z) by lia.
  pose proof (@strideIndex_step _ _ HN HNL HL (Z.of_nat i) (Nat2Z.is_nonneg i) H1) as St.
  replace (Z.of_nat (S i)) with (Z.of_nat i + 1)%Z by lia. lia.
Qed.

Lemma evenlyPosition_increasing i j :
  (i < j)%nat -> (j < Z.to_nat N)%nat ->
  (evenlyPosition len N i < evenlyPosition len N j)%nat.
Proof.
  intros Hij Hj. induction j as [| j IH]; [lia |].
  destruct (Nat.eq_dec i j) as [-> | NE].
  - apply evenlyPosition_step. exact Hj.
  - apply Nat.lt_trans with (evenlyPosition len N j).
    + apply IH; lia.
    + apply evenlyPosition_step. exact Hj.
Qed.

Lemma evenlyPick_value (T : Type) (data : list T) i :
  List.length data = len -> (i < Z.to_nat N)%nat ->
  exists x, nth_error data (evenlyPosition len N i) = Some x
            /\ evenlyPick data N i = [x].
Proof.
  intros Hlen Hi. unfold evenlyPick. rewrite Hlen.
  rewrite (evenlyIndex_value Hi).
  assert (Hi' : (0 <= Z.of_nat i < N)%Z) by lia.
  pose proof (strideIndex_range HN HNL HL Hi') as [Z0 Z1].
  rewrite ofNat_exact by lia.
  assert (Lt : ltb (Fin (inject_Z (strideIndex (Z.of_nat len) N (Z.of_nat i))))
                   (Fin (inject_Z (Z.of_nat len))) = true).
  { unfold ltb. apply negb_true_iff. apply not_true_is_false. intros H.
    apply Qle_bool_iff in H. rewrite <- Zle_Qle in H. lia. }
  rewrite Lt. rewrite (toIndex_inject Z0).
  fold (evenlyPosition len N i).
  pose proof (evenlyPosition_range Hi) as Hr.
  destruct (nth_error data (evenlyPosition len N i)) as [x |] eqn:E.
  - exists x. split; reflexivity.
  - apply nth_error_None in E. lia.
Qed.
End Evenly.


Lemma flat_map_singleton (A B : Type) (f : A -> list B) (g : A -> B) l :
  (forall x, In x l -> f x = [g x]) -> flat_map f l = map g l.
Proof.
  induction l as [| a l IH]; intros H; [reflexivity |].
  cbn. rewrite (H a (or_introl eq_refl)). cbn. f_equal.
  apply IH. intros x Hx. apply H. right. exact Hx.
Qed.

Section EvenlySample.
Variable T : Type.
Variable randomIndex : nat -> nat -> nat.
Variable data : list T.
Variable N : Z.
Hypothesis HN : (0 < N)%Z.
Hypothesis HNL : (N < Z.of_nat (List.length data))%Z.
Hypothesis HL : (Z.of_nat (List.length data) < 2 ^ 32)%Z.

Lemma sample_evenly_length :
  List.length (sample randomIndex data N Evenly) = Z.to_nat N.
Proof.
  unfold sample.
  destruct data as [| d0 data'] eqn:Ed; [cbn in HNL; lia |]. rewrite <- Ed in *.
  rewrite (@flat_map_singleton _ _ (evenlyPick data N)
             (fun i => nth (evenlyPosition (List.length data) N i) data d0)).
  - rewrite length_map, length_seq. reflexivity.
  - intros j Hj. apply in_seq in Hj.
    assert (Hj' : (j < Z.to_nat N)%nat) by lia.
    destruct (evenlyPick_value HN HNL HL data eq_refl Hj') as (x & Hx & Hp).
    rewrite Hp. f_equal. symmetry. apply nth_error_nth. exact Hx.
Qed.

Lemma sample_evenly_nth i :
  (i < Z.to_nat N)%nat ->
  nth_error (sample randomIndex data N Evenly) i
  = nth_error data (evenlyPosition (List.length data) N i).
Proof.
  intros Hi. unfold sample.
  destruct data as [| d0 data'] eqn:Ed; [cbn in HNL; lia |]. rewrite <- Ed in *.
  rewrite (@flat_map_singleton _ _ (evenlyPick data N)
             (fun i => nth (evenlyPosition (List.length data) N i) data d0)).
  - rewrite nth_error_map. rewrite nth_error_seq.
    destruct (Nat.ltb_spec i (Z.to_nat N)) as [_ | Hc]; [| lia]. cbn.
    destruct (evenlyPick_value HN HNL HL data eq_refl Hi) as (x & Hx & _).
    rewrite Hx. f_equal. apply nth_error_nth. exact Hx.
  - intros j Hj. apply in_seq in Hj.
    assert (Hj' : (j < Z.to_nat N)%nat) by lia.
    destruct (evenlyPick_value HN HNL HL data eq_refl Hj') as (x & Hx & Hp).
    rewrite Hp. f_equal. symmetry. apply nth_error_nth. exact Hx.
Qed.
End EvenlySample.

(** The reducer without a field list, above the maximum: the sample. *)
Lemma optimizeDataset_sampled (T : Type) (project : list string -> T -> T)
  (randomIndex : nat -> nat -> nat) (data : list T) (n : Z) (s : strategy) :
  (n < Z.of_nat (List.length data))%Z ->
  optimizeDataset project randomIndex data
    {| maxRows := Some n; samplingStrategy := Some s; fields := None |}
  = sample randomIndex data n s.
Proof.
  intros H. unfold optimizeDataset. destruct data as [| d data'].
  - cbn in H. unfold sample, slice.
    replace (Z.to_nat n) with O by lia.
    destruct s; cbn; try reflexivity; rewrite ?skipn_nil, ?firstn_nil; reflexivity.
  - cbn [maxRows samplingStrategy fields].
    destruct (Z.leb_spec (Z.of_nat (List.length (d :: data'))) n) as [Hc | _];
      [lia | reflexivity].
Qed.

(** The reducer without a field list, at or below the maximum: the data. *)
Lemma optimizeDataset_small (T : Type) (project : list string -> T -> T)
  (randomIndex : nat -> nat -> nat) (data : list T) (n : Z) (s : option strategy) :
  (Z.of_nat (List.length data) <= n)%Z ->
  optimizeDataset project randomIndex data
    {| maxRows := Some n; samplingStrategy := s; fields := None |}
  = data.
Proof.
  intros H. unfold optimizeDataset. destruct data as [| d data']; [reflexivity |].
  cbn [maxRows samplingStrategy fields].
  destruct (Z.leb_spec (Z.of_nat (List.length (d :: data'))) n) as [_ | Hc]; [| lia].
  reflexivity.
Qed.

(** C3, as the claim states it, fails: with 30 rows sampled evenly down to
    22, the row selected at step 11 is the row of index 14; the claim's
    [floor(11 * 30 / 22)] is 15.  (In binary64, [30 / 22] rounds to
    [1.3636363636363635] and [11] times it to [14.999999999999998].) *)
Lemma evenly_index_not_exact :
  nth_error (reduce Examples.firstIndex (Examples.numberedRows 30)
               (Examples.evenlyTo 22)) 11
  = Some (Examples.numbered 14)
  /\ (11 * 30 / 22 = 15)%nat
  /\ Examples.numbered 14 <> Examples.numbered 15.
Proof.
  split; [vm_compute; reflexivity |].
  split; [reflexivity |].
  unfold Examples.numbered. intros H. discriminate H.
Qed.

(** C3 (amended): for every row list (an array: fewer than [2 ^ 32] rows) and
    every [N > 0], the reducer with [maxRows = N] and the strategy "evenly"
    returns exactly [min(N, rows.length)] rows; it returns the rows
    themselves when there are [N] at most; otherwise row [i] of the result
    is the row at index [Math.floor(i * (rows.length / N))], the product and
    the quotient being those of binary64, and these indices are below the
    length and strictly increasing, so the selected rows are in their
    original relative order. *)
Theorem evenly_sampling (randomIndex : nat -> nat -> nat)
  (rows : list JS.row) (N : Z) :
  (0 < N)%Z ->
  (Z.of_nat (List.length rows) < 2 ^ 32)%Z ->
  let len := List.length rows in
  let out := reduce randomIndex rows
               {| maxRows := Some N; samplingStrategy := Some Evenly;
                  fields := None |} in
  List.length out = Nat.min (Z.to_nat N) len
  /\ ((Z.of_nat len <= N)%Z -> out = rows)
  /\ ((N < Z.of_nat len)%Z ->
      forall i, (i < Z.to_nat N)%nat ->
        evenlyIndex len N i
        = Fin (inject_Z (Z.of_nat (evenlyPosition len N i)))
        /\ nth_error out i = nth_error rows (evenlyPosition len N i)
        /\ (evenlyPosition len N i < len)%nat
        /\ (forall j, (i < j)%nat -> (j < Z.to_nat N)%nat ->
              (evenlyPosition len N i < evenlyPosition len N j)%nat)).
Proof.
  intros HN HL len out. unfold out, reduce.
  destruct (Z_le_gt_dec (Z.of_nat len) N) as [Hsmall | Hbig].
  - rewrite (@optimizeDataset_small _ filterFields randomIndex rows N (Some Evenly) Hsmall).
    split; [fold len; lia |]. split; [reflexivity |]. intros Hc. lia.
  - assert (HNL : (N < Z.of_nat len)%Z) by lia.
    rewrite (@optimizeDataset_sampled _ filterFields randomIndex rows N Evenly HNL).
    split; [rewrite (@sample_evenly_length _ randomIndex rows N HN HNL HL); lia |].
    split; [intros Hc; lia |].
    intros _ i Hi. split; [| split; [| split]].
    + rewrite (@evenlyIndex_value len N HN HNL HL i Hi). unfold evenlyPosition.
      assert (Hi' : (0 <= Z.of_nat i < N)%Z) by lia.
      pose proof (strideIndex_range HN HNL HL Hi').
      rewrite Z2Nat.id by lia. reflexivity.
    + apply (@sample_evenly_nth _ randomIndex rows N HN HNL HL i Hi).
    + apply (@evenlyPosition_range len N HN HNL HL i Hi).
    + intros j Hij Hj. apply (@evenlyPosition_increasing len N HN HNL HL i j Hij Hj).
Qed.

(** The amended C3 on 30 rows sampled down to 22. *)
Lemma evenly_sampling_witness :
  let rows := Examples.numberedRows 30 in
  let len := List.length rows in
  let out := reduce Examples.firstIndex rows
               {| maxRows := Some 22%Z; samplingStrategy := Some Evenly;
                  fields := None |} in
  List.length out = Nat.min (Z.to_nat 22) len
  /\ ((Z.of_nat len <= 22)%Z -> out = rows)
  /\ ((22 < Z.of_nat len)%Z ->
      forall i, (i < Z.to_nat 22)%nat ->
        evenlyIndex len 22 i
        = Fin (inject_Z (Z.of_nat (evenlyPosition len 22 i)))
        /\ nth_error out i = nth_error rows (evenlyPosition len 22 i)
        /\ (evenlyPosition len 22 i < len)%nat
        /\ (forall j, (i < j)%nat -> (j < Z.to_nat 22)%nat ->
              (evenlyPosition len 22 i < evenlyPosition len 22 j)%nat)).
Proof.
  apply (@evenly_sampling Examples.firstIndex (Examples.numberedRows 30) 22).
  - reflexivity.
  - reflexivity.
Defined.


(** ** A maximum that is not positive *)


(** ** A maximum that is not positive *)

Lemma slice_prefix (T : Type) (l : list T) (n : Z) :
  (n <= 0)%Z ->
  slice l 0 (Some n)
  = if (n =? 0)%Z then [] else firstn (List.length l - Z.to_nat (- n)) l.
Proof.
  intros Hn. unfold slice. cbv zeta.
  change (0 <? 0)%Z with false. cbv iota.
  rewrite (Z.min_l 0 (Z.of_nat (List.length l))) by lia.
  cbn [Z.to_nat skipn].
  destruct (Z.eqb_spec n 0) as [-> | NZ].
  - change (0 <? 0)%Z with false. cbv iota.
    rewrite (Z.min_l 0 (Z.of_nat (List.length l))) by lia. reflexivity.
  - f_equal. destruct (Z.ltb_spec n 0) as [H | H]; [| lia].
    set (k := List.length l). clearbody k. lia.
Qed.

Lemma slice_suffix (T : Type) (l : list T) (n : Z) :
  (n <= 0)%Z ->
  slice l (- n) None = skipn (Z.to_nat (- n)) l.
Proof.
  intros Hn. unfold slice.
  destruct (Z.ltb_spec (- n) 0) as [Hc | _]; [lia |].
  destruct (Z_le_gt_dec (- n) (Z.of_nat (List.length l))) as [Hle | Hgt].
  - rewrite Z.min_l by lia. apply firstn_all2. rewrite length_skipn. lia.
  - rewrite Z.min_r by lia.
    set (k := List.length l) in *.
    rewrite (skipn_all2 (n := Z.to_nat (- n))) by (fold k; lia).
    rewrite skipn_all2 by (fold k; lia). apply firstn_nil.
Qed.

(** C7, as the claim states it, fails: of three rows, "first" with
    [maxRows = -1] keeps the first two ([slice(0, -1)]), and "last" with
    [maxRows = 0] keeps all three ([slice(-0)]). *)
Lemma non_positive_maxRows_not_empty :
  reduce Examples.firstIndex (Examples.numberedRows 3)
    (Examples.sampleTo (-1) First)
  = [Examples.numbered 0; Examples.numbered 1]
  /\ reduce Examples.firstIndex (Examples.numberedRows 3)
       (Examples.sampleTo 0 Last)
     = Examples.numberedRows 3.
Proof. split; reflexivity. Qed.

(** C7 (amended): for every non-empty row list, every strategy and every
    [maxRows <= 0] the reducer is defined (it raises nothing) and returns:
    nothing for "random" and "evenly"; for "first" nothing when
    [maxRows = 0] and otherwise the rows but the last [-maxRows] ones; for
    "last" the rows from index [-maxRows] on, so all of them when
    [maxRows = 0]; the field projection, when one is asked for, applies to
    these rows. *)
Theorem reduce_non_positive_maxRows (randomIndex : nat -> nat -> nat)
  (rows : list JS.row) (n : Z) (s : strategy) (fs : option (list string)) :
  rows <> [] ->
  (n <= 0)%Z ->
  reduce randomIndex rows
    {| maxRows := Some n; samplingStrategy := Some s; fields := fs |}
  = let kept :=
      match s with
      | Random | Evenly => []
      | First =>
          if (n =? 0)%Z then []
          else firstn (List.length rows - Z.to_nat (- n)) rows
      | Last => skipn (Z.to_nat (- n)) rows
      end in
    match fs with
    | None => kept
    | Some f => map (filterFields f) kept
    end.
Proof.
  intros Hne Hn. unfold reduce, optimizeDataset.
  destruct rows as [| r rows']; [congruence |].
  cbn [maxRows samplingStrategy fields].
  destruct (Z.leb_spec (Z.of_nat (List.length (r :: rows'))) n) as [Hc | _];
    [cbn [List.length] in Hc; lia |].
  assert (E : sample randomIndex (r :: rows') n s
              = match s with
                | Random | Evenly => []
                | First =>
                    if (n =? 0)%Z then []
                    else firstn (List.length (r :: rows') - Z.to_nat (- n))
                                (r :: rows')
                | Last => skipn (Z.to_nat (- n)) (r :: rows')
                end).
  { unfold sample. destruct s.
    - apply slice_prefix. exact Hn.
    - apply slice_suffix. exact Hn.
    - replace (Z.to_nat n) with O by lia. reflexivity.
    - replace (Z.to_nat n) with O by lia. reflexivity. }
  rewrite E. reflexivity.
Qed.

(** The amended C7 on three rows, "first" and [maxRows = -1]. *)
Lemma reduce_non_positive_maxRows_witness :
  reduce Examples.firstIndex (Examples.numberedRows 3)
    {| maxRows := Some (-1)%Z; samplingStrategy := Some First; fields := None |}
  = firstn (List.length (Examples.numberedRows 3) - Z.to_nat (- (-1)))
           (Examples.numberedRows 3).
Proof.
  apply (@reduce_non_positive_maxRows Examples.firstIndex
           (Examples.numberedRows 3) (-1) First None).
  - discriminate.
  - lia.
Defined.

End ReducerFacts.

(* ================================================================== *)
(** * The number model against the primitive floats *)
(* ================================================================== *)

Module ModelFacts.

Import Double DoubleFacts.

#[local] Set Warnings "-inexact-float".

(** ** The rounding against the primitive binary64 arithmetic *)

(** Sample computations agree with the kernel's primitive floats: inexact
    quotients and products, a tie, the literals of the sources, overflow
    and a subnormal result. *)
Lemma model_agrees_with_primitive_floats :
  mul (ofZ 11) (div (ofZ 30) (ofZ 22)) = ofPrim (11 * (30 / 22))%float
  /\ div (ofZ 1) (ofZ 3) = ofPrim (1 / 3)%float
  /\ add (ofZ (2 ^ 53)) (ofZ 1) = ofPrim (9007199254740992 + 1)%float
  /\ add (ofZ (2 ^ 53)) (ofZ 3) = ofPrim (9007199254740992 + 3)%float
  /\ lit_0_001 = ofPrim 0.001%float
  /\ lit_0_3 = ofPrim 0.3%float
  /\ lit_0_5 = ofPrim 0.5%float
  /\ add (ofDecimal 1 (-1)) (ofDecimal 2 (-1)) = ofPrim (0.1 + 0.2)%float
  /\ mul (ofDecimal 1 308) (ofZ 10) = ofPrim (1e308 * 10)%float
  /\ div (ofDecimal 1 (-320)) (ofZ 3) = ofPrim (1e-320 / 3)%float
  /\ sub (ofZ 1) (ofDecimal 9 (-1)) = ofPrim (1 - 0.9)%float.
Proof. repeat split; vm_compute; reflexivity. Qed.

(** ** Half of a length *)

(** [k > len * 0.5] on array lengths is the comparison of [len] with
    [2 * k]: halving an integer below [2 ^ 53] is exact. *)
Lemma moreThanHalf_exact (k len : nat) :
  (Z.of_nat k < 2 ^ 53)%Z -> (Z.of_nat len < 2 ^ 53)%Z ->
  gtb (ofNat k) (mul (ofNat len) lit_0_5) = JS.moreThanHalf k len.
Proof.
  intros Hk Hl.
  rewrite !ofNat_exact by assumption.
  replace lit_0_5 with (Fin (1 # 2)) by (vm_compute; reflexivity).
  cbn [mul].
  set (n := Z.of_nat len) in *. set (m := Z.of_nat k) in *.
  assert (Hn : (0 <= n)%Z) by (unfold n; lia).
  assert (E : rnd (inject_Z n * (1 # 2)) == inject_Z n * (1 # 2)).
  { change (1 # 2) with (2 ^ (-1)). apply rnd_exact; unfold emin; lia. }
  assert (Hq : 0 <= inject_Z n < 2 ^ 53).
  { split.
    - change 0 with (inject_Z 0). rewrite <- Zle_Qle. exact Hn.
    - rewrite <- pow2_inject by lia. rewrite <- Zlt_Qlt. exact Hl. }
  assert (B : 2 ^ 53 <= 2 ^ 1024) by (apply pow2_mono; lia).
  rewrite ReducerFacts.round_finite by (rewrite E; lra).
  unfold gtb, JS.moreThanHalf.
  destruct (Nat.ltb_spec len (2 * k)) as [H | H].
  - apply ltb_Fin. rewrite E.
    assert (H' : (n < 2 * m)%Z) by (unfold n, m; lia).
    rewrite Zlt_Qlt, inject_Z_mult in H'. change (inject_Z 2) with 2 in H'.
    lra.
  - apply ltb_Fin_false. rewrite E.
    assert (H' : (2 * m <= n)%Z) by (unfold n, m; lia).
    rewrite Zle_Qle, inject_Z_mult in H'. change (inject_Z 2) with 2 in H'.
    lra.
Qed.

End ModelFacts.

(* ================================================================== *)
(** * The cache *)
(* ================================================================== *)

Module CacheFacts.

Import DataCache.

Section Facts.
Variable T : Type.
Implicit Types (m : list (string * entry T)) (c : t T).

Lemma mapGet_mapSet m k e : mapGet (mapSet m k e) k = Some e.
Proof.
  induction m as [| [k' e'] m IH]; cbn.
  - rewrite String.eqb_refl. reflexivity.
  - destruct (String.eqb k k') eqn:E; cbn; rewrite E; [reflexivity | exact IH].
Qed.

Lemma mapHas_mapDelete m k : mapHas (mapDelete m k) k = false.
Proof.
  unfold mapHas, mapDelete. induction m as [| [k' e'] m IH]; cbn.
  - reflexivity.
  - destruct (String.eqb k k') eqn:E; cbn; [exact IH |].
    rewrite E. exact IH.
Qed.

Lemma mapGet_mapDelete m k : mapGet (mapDelete m k) k = None.
Proof.
  unfold mapDelete. induction m as [| [k' e'] m IH]; cbn.
  - reflexivity.
  - destruct (String.eqb k k') eqn:E; cbn; [exact IH |].
    rewrite E. exact IH.
Qed.

Lemma mapGet_mapHas m k e : mapGet m k = Some e -> mapHas m k = true.
Proof.
  unfold mapHas. induction m as [| [k' e'] m IH]; cbn; [discriminate |].
  destruct (String.eqb k k'); [reflexivity | exact IH].
Qed.

(** After [set(k, v)] at time [t0], the entry of [k] holds [v] and [t0],
    whatever was evicted to make room. *)
Lemma set_entry c k v t0 :
  mapGet (cache (set c k v t0)) k = Some {| data := v; timestamp := t0 |}.
Proof. unfold set. cbn [cache]. apply mapGet_mapSet. Qed.

Lemma set_ttl c k v t0 : ttl (set c k v t0) = ttl c.
Proof. reflexivity. Qed.
End Facts.

(** C8: [get(k)] after [set(k, v)] returns [v] when the age of the entry
    (the time of the [get] minus the time of the [set]) does not exceed
    [ttl]; when it exceeds [ttl], [get] returns absent and evicts the
    entry. *)
Theorem get_after_set (T : Type) (c : t T) (k : string) (v : T) (t0 t1 : Z) :
  let c1 := set c k v t0 in
  age c1 k t1 = Some (t1 - t0)%Z
  /\ ((t1 - t0 <= ttl c)%Z -> get c1 k t1 = (Some v, c1))
  /\ ((ttl c < t1 - t0)%Z ->
      fst (get c1 k t1) = None
      /\ cache (snd (get c1 k t1)) = mapDelete (cache c1) k
      /\ has (snd (get c1 k t1)) k = false
      /\ fst (get (snd (get c1 k t1)) k t1) = None).
Proof.
  intros c1. unfold age, get. unfold c1. rewrite set_entry. cbn [timestamp data].
  rewrite set_ttl. split; [reflexivity |]. split.
  - intros H. destruct (Z.ltb_spec (ttl c) (t1 - t0)) as [Hc | _]; [lia |].
    reflexivity.
  - intros H. destruct (Z.ltb_spec (ttl c) (t1 - t0)) as [_ | Hc]; [| lia].
    cbn [fst snd cache]. split; [reflexivity |]. split; [reflexivity |].
    split.
    + unfold has. cbn [cache]. apply mapHas_mapDelete.
    + rewrite mapGet_mapDelete. reflexivity.
Qed.

(** C8 on the default cache: [set("a", 7)] at time 1000, [get("a")] at time
    2000 and at time 400000. *)
Lemma get_after_set_witness :
  get (set CacheExamples.empty "a" 7%Z 1000) "a" 2000
  = (Some 7%Z, set CacheExamples.empty "a" 7%Z 1000)
  /\ fst (get (set CacheExamples.empty "a" 7%Z 1000) "a" 400000) = None.
Proof.
  destruct (@get_after_set Z CacheExamples.empty "a" 7%Z 1000 2000)
    as (_ & Hfresh & _).
  destruct (@get_after_set Z CacheExamples.empty "a" 7%Z 1000 400000)
    as (_ & _ & Hstale).
  split.
  - apply Hfresh. vm_compute. discriminate.
  - apply Hstale. reflexivity.
Defined.

(** C10: for a key whose entry is older than [ttl], [has] answers true (it
    does not look at the age) while [get], on the same cache, returns absent
    and deletes the entry; [has] answers false afterwards. *)
Theorem has_ignores_expiry (T : Type) (c : t T) (k : string) (now a : Z) :
  age c k now = Some a ->
  (ttl c < a)%Z ->
  has c k = true
  /\ fst (get c k now) = None
  /\ cache (snd (get c k now)) = mapDelete (cache c) k
  /\ has (snd (get c k now)) k = false.
Proof.
  unfold age, get, has. intros Hage Hold.
  destruct (mapGet (cache c) k) as [e |] eqn:E; [| discriminate].
  injection Hage as <-.
  split; [exact (mapGet_mapHas _ _ E) |].
  destruct (Z.ltb_spec (ttl c) (now - timestamp e)) as [_ | Hc]; [| lia].
  cbn [fst snd cache]. split; [reflexivity |]. split; [reflexivity |].
  apply mapHas_mapDelete.
Qed.

(** C10 on the default cache, 399 seconds after [set("a", 7)]. *)
Lemma has_ignores_expiry_witness :
  has CacheExamples.withA "a" = true
  /\ fst (get CacheExamples.withA "a" 400000) = None
  /\ cache (snd (get CacheExamples.withA "a" 400000))
     = mapDelete (cache CacheExamples.withA) "a"
  /\ has (snd (get CacheExamples.withA "a" 400000)) "a" = false.
Proof.
  apply (@has_ignores_expiry Z CacheExamples.withA "a" 400000 399000).
  - reflexivity.
  - reflexivity.
Defined.

End CacheFacts.

(* ================================================================== *)
(** * Numeric strings *)
(* ================================================================== *)

Module ParseFacts.

Import JS.

Lemma round_not_NaN x : Double.isNaN (Double.round x) = false.
Proof.
  unfold Double.round. cbv zeta.
  destruct (Qle_bool _ _); [reflexivity |].
  destruct (Qle_bool _ _); reflexivity.
Qed.

Lemma ofDecimal_not_NaN m e : Double.isNaN (Double.ofDecimal m e) = false.
Proof.
  unfold Double.ofDecimal. destruct (0 <=? e)%Z; apply round_not_NaN.
Qed.

Lemma ltb_NaN_r a : Double.ltb a Double.NaN = false.
Proof. destruct a; reflexivity. Qed.

Lemma opp_NaN n : Double.isNaN (Double.opp n) = Double.isNaN n.
Proof. destruct n; reflexivity. Qed.

(** A literal that is read is a number. *)
Lemma unsignedLiteral_not_NaN s n :
  unsignedLiteral s = Some n -> Double.isNaN n = false.
Proof.
  unfold unsignedLiteral.
  destruct (prefix "Infinity" s); [intros [= <-]; reflexivity |].
  destruct (spanDigits s) as [ip r1].
  destruct (match r1 with
            | String c r2 => if Ascii.eqb c "." then spanDigits r2 else ([], r1)
            | EmptyString => ([], r1)
            end) as [fp r3].
  destruct (ip ++ fp)%list; [discriminate |].
  intros [= <-]. apply ofDecimal_not_NaN.
Qed.

Lemma spanDigits_head c r :
  spanDigits (String c r)
  = if is_digit c then (c :: fst (spanDigits r), snd (spanDigits r))
    else ([], String c r).
Proof. cbn. destruct (is_digit c); [destruct (spanDigits r) |]; reflexivity. Qed.

Lemma is_digit_point : is_digit "." = false.
Proof. reflexivity. Qed.

(** A literal is read exactly when the string starts with [Infinity], with
    a digit, or with a point and a digit. *)
Lemma unsignedLiteral_some s :
  match unsignedLiteral s with Some _ => true | None => false end
  = prefix "Infinity" s
    || match s with
       | String c r =>
           is_digit c
           || (Ascii.eqb c "."
               && match r with
                  | String d _ => is_digit d
                  | EmptyString => false
                  end)
       | EmptyString => false
       end.
Proof.
  unfold unsignedLiteral.
  destruct (prefix "Infinity" s); [reflexivity |]. cbn [orb].
  destruct s as [| c r]; [reflexivity |].
  rewrite spanDigits_head.
  destruct (is_digit c) eqn:Dc.
  - cbn [orb].
    destruct (match snd (spanDigits r) with
              | String c0 r2 =>
                  if Ascii.eqb c0 "." then spanDigits r2
                  else ([], snd (spanDigits r))
              | EmptyString => ([], snd (spanDigits r))
              end) as [fp r3].
    reflexivity.
  - cbn [orb].
    destruct (Ascii.eqb_spec c ".") as [-> | NE]; cbn [andb].
    + destruct r as [| d r']; [reflexivity |].
      rewrite spanDigits_head.
      destruct (is_digit d); reflexivity.
    + reflexivity.
Qed.

(** [parseFloat] gives NaN exactly on the strings that do not start like a
    number. *)
Lemma parseFloat_NaN s :
  Double.isNaN (parseFloat s) = negb (startsNumeric s).
Proof.
  unfold parseFloat, startsNumeric.
  destruct (readSign (trimStart s)) as [minus t]. cbn [snd].
  rewrite <- unsignedLiteral_some.
  destruct (unsignedLiteral t) as [n |] eqn:E; [| reflexivity].
  apply unsignedLiteral_not_NaN in E.
  destruct minus; [rewrite opp_NaN |]; rewrite E; reflexivity.
Qed.

(** A digit is neither white space nor a sign. *)
Lemma digit_plain c :
  is_digit c = true ->
  is_space c = false /\ Ascii.eqb c "-" = false /\ Ascii.eqb c "+" = false
  /\ is_letter c = false.
Proof.
  destruct c as [[] [] [] [] [] [] [] []]; intros H; try discriminate H;
    repeat split; reflexivity.
Qed.

Lemma digit_startsNumeric c r :
  is_digit c = true -> startsNumeric (String c r) = true.
Proof.
  intros H. destruct (digit_plain c H) as (Hs & Hm & Hp & _).
  unfold startsNumeric. cbn [trimStart]. rewrite Hs.
  unfold readSign. rewrite Hm, Hp. cbn [snd]. rewrite H.
  cbn [orb]. apply orb_true_r.
Qed.

Lemma digit_not_idPattern c r :
  is_digit c = true -> idPattern (String c r) = false.
Proof.
  intros H. destruct (digit_plain c H) as (_ & _ & _ & Hl).
  unfold idPattern. destruct r; [reflexivity |]. rewrite Hl. reflexivity.
Qed.

Lemma datePattern_digit s :
  datePattern s = true -> exists c r, s = String c r /\ is_digit c = true.
Proof.
  unfold datePattern. destruct s as [| c r]; [discriminate |].
  intros H. exists c, r. split; [reflexivity |].
  repeat (match type of H with
          | match ?x with EmptyString => _ | String _ _ => _ end = true =>
              destruct x; [discriminate H |]
          end).
  destruct (is_digit c); [reflexivity | discriminate H].
Qed.

Lemma datePattern_startsNumeric s :
  datePattern s = true -> startsNumeric s = true.
Proof.
  intros H. destruct (datePattern_digit s H) as (c & r & -> & Hc).
  apply digit_startsNumeric. exact Hc.
Qed.

Lemma datePattern_not_idPattern s :
  datePattern s = true -> idPattern s = false.
Proof.
  intros H. destruct (datePattern_digit s H) as (c & r & -> & Hc).
  apply digit_not_idPattern. exact Hc.
Qed.


End ParseFacts.

(* ================================================================== *)
(** * The candidate pools *)
(* ================================================================== *)

Module PoolFacts.

Import JS Dashboard.
Local Open Scope string_scope.

Lemma count_ext (A : Type) (p q : A -> bool) (l : list A) :
  (forall x, In x l -> p x = q x) -> count p l = count q l.
Proof.
  intros H. unfold count. f_equal. apply filter_ext_in. exact H.
Qed.

Lemma count_all (A : Type) (p : A -> bool) (l : list A) :
  (forall x, In x l -> p x = true) -> count p l = List.length l.
Proof.
  intros H. unfold count. induction l as [| a l IH]; [reflexivity |].
  cbn. rewrite (H a (or_introl eq_refl)). cbn. f_equal.
  apply IH. intros x Hx. apply H. right. exact Hx.
Qed.

Lemma count_map (A B : Type) (f : A -> B) (p : B -> bool) (l : list A) :
  count p (map f l) = count (fun x => p (f x)) l.
Proof.
  unfold count. induction l as [| a l IH]; [reflexivity |].
  cbn. destruct (p (f a)); cbn; rewrite IH; reflexivity.
Qed.

Lemma count_le (A : Type) (p q : A -> bool) (l : list A) :
  (forall x, In x l -> p x = true -> q x = true) ->
  (count p l <= count q l)%nat.
Proof.
  intros H. unfold count. induction l as [| a l IH]; [apply Nat.le_refl |].
  assert (IH' : (List.length (filter p l) <= List.length (filter q l))%nat).
  { apply IH. intros x Hx. apply H. right. exact Hx. }
  cbn. destruct (p a) eqn:Pa.
  - rewrite (H a (or_introl eq_refl) Pa). cbn. lia.
  - destruct (q a); cbn; lia.
Qed.

Lemma count_none (A : Type) (p : A -> bool) (l : list A) :
  (forall x, In x l -> p x = false) -> count p l = O.
Proof.
  intros H. unfold count. induction l as [| a l IH]; [reflexivity |].
  cbn. rewrite (H a (or_introl eq_refl)). apply IH.
  intros x Hx. apply H. right. exact Hx.
Qed.

Lemma numericCount_by_prefix (rows : list JS.row) (header : string) :
  numericCount rows header
  = count (fun row =>
             match get row header with
             | VStr s => startsNumeric s
             | VPrim (SNum _) => true
             | VPrim _ => false
             end) rows.
Proof.
  unfold numericCount. apply count_ext. intros row _.
  destruct (get row header) as [s | [| | b | n]]; try reflexivity.
  rewrite ParseFacts.parseFloat_NaN. apply negb_involutive.
Qed.

(** C1, as the claim states it, fails: in a column holding "5px" and
    "12abc" both strings count as numeric values, the column is classified
    numeric by [getDatasetStats] and it enters [numericFields]. *)
Lemma partial_numeric_strings_count :
  numericCount DashboardExamples.widths "w" = 2%nat
  /\ numericFields ["w"] DashboardExamples.widths = ["w"]
  /\ List.length (Stats.numericValues (column DashboardExamples.widths "w"))
     = 2%nat
  /\ Stats.type (Stats.columnStatsOf DashboardExamples.widths "w")
     = Stats.Numeric.
Proof. repeat split; vm_compute; reflexivity. Qed.

(** C1 (amended): a string cell counts toward the numeric-value count, in
    [handleAddChart] and in [getDatasetStats] alike, exactly when
    [parseFloat] reads a number at its start: after leading white space and
    an optional sign it begins with a digit, with a point and a digit, or
    with [Infinity]; what follows is ignored.  So "5px" and "12abc" count,
    as 5 and 12.  Both counts are total functions: nothing is raised. *)
Theorem numeric_strings_by_prefix (rows : list JS.row) (header : string) :
  numericCount rows header
  = count (fun row =>
             match get row header with
             | VStr s => startsNumeric s
             | VPrim (SNum _) => true
             | VPrim _ => false
             end) rows
  /\ List.length (Stats.numericValues (column rows header))
     = count (fun v =>
                match v with
                | VStr s => startsNumeric s
                | VPrim (SNum n) => negb (Double.isNaN n)
                | VPrim (SBool _) => true
                | VPrim _ => false
                end) (column rows header)
  /\ startsNumeric "5px" = true /\ parseFloat "5px" = Double.Fin 5
  /\ startsNumeric "12abc" = true /\ parseFloat "12abc" = Double.Fin 12.
Proof.
  split; [| split; [| repeat split; vm_compute; reflexivity]].
  - apply numericCount_by_prefix.
  - unfold Stats.numericValues. generalize (column rows header). intros l.
    unfold count. induction l as [| v l IH]; [reflexivity |].
    destruct v as [s | [| | b | n]]; cbn [filter map parseIfString].
    + unfold isNaN at 1. cbn [toNumber]. rewrite ParseFacts.parseFloat_NaN.
      rewrite negb_involutive.
      destruct (startsNumeric s); cbn [List.length]; rewrite IH; reflexivity.
    + exact IH.
    + exact IH.
    + replace (negb (isNaN (SBool b))) with true by (destruct b; reflexivity).
      cbn [List.length]. rewrite IH. reflexivity.
    + unfold isNaN at 1. cbn [toNumber].
      destruct (negb (Double.isNaN n)); cbn [List.length]; rewrite IH;
        reflexivity.
Qed.

(** ** Identifier columns *)

Lemma filter_excludes (f : string -> bool) (l : list string) (h : string) :
  f h = false -> ~ In h (filter f l).
Proof. intros Hf Hin. apply filter_In in Hin. destruct Hin as [_ Ht]. congruence. Qed.

(** C5: for a column in which every value matches [/^[A-Z][0-9]+$/i], in a
    dataset that has rows (every dataset the dashboard holds has: both
    import flows refuse empty data), [isIdLikeField] is true and the column
    is in none of [numericFields], [dateFields] and [categoryFields]. *)
Theorem identifier_column_excluded (headers : list string)
  (rows : list JS.row) (h : string) :
  rows <> [] ->
  Forall (fun row => exists s, get row h = VStr s /\ idPattern s = true) rows ->
  isIdLikeField h (column rows h) = true
  /\ ~ In h (numericFields headers rows)
  /\ ~ In h (dateFields headers rows)
  /\ ~ In h (categoryFields headers rows).
Proof.
  intros Hne Hall.
  assert (Hid : isIdLikeField h (column rows h) = true).
  { unfold isIdLikeField. destruct (idNamePattern h); [reflexivity |].
    destruct rows as [| r rows']; [congruence |].
    assert (Hm : count (fun v => match v with
                                 | VStr s => idPattern s
                                 | VPrim _ => false
                                 end) (column (r :: rows') h)
                 = List.length (column (r :: rows') h)).
    { apply count_all. intros v Hv. unfold column in Hv.
      apply in_map_iff in Hv. destruct Hv as (row & <- & Hrow).
      rewrite Forall_forall in Hall. destruct (Hall row Hrow) as (s & -> & Hs).
      exact Hs. }
    rewrite Hm.
    inversion Hall as [| r0 l0 (s & Hs & _) _]; subst.
    cbn [column map]. rewrite Hs. cbn [List.length].
    unfold moreThanHalf. apply Nat.ltb_lt. lia. }
  split; [exact Hid |].
  repeat split; apply filter_excludes; rewrite Hid; reflexivity.
Qed.

(** C5 on a dataset with a column of codes "C1001", "C1002". *)
Lemma identifier_column_excluded_witness :
  isIdLikeField "code" (column DashboardExamples.coded "code") = true
  /\ ~ In "code" (numericFields ["code"; "amount"] DashboardExamples.coded)
  /\ ~ In "code" (dateFields ["code"; "amount"] DashboardExamples.coded)
  /\ ~ In "code" (categoryFields ["code"; "amount"] DashboardExamples.coded).
Proof.
  apply (@identifier_column_excluded ["code"; "amount"]
           DashboardExamples.coded "code").
  - discriminate.
  - repeat constructor; eexists; split; reflexivity.
Defined.

End PoolFacts.

(* ================================================================== *)
(** * The sort *)
(* ================================================================== *)

Module SortFacts.

Import JS.

(** The sort keeps every element. *)
Lemma insertSorted_length (A : Type) (cmp : A -> A -> Double.num) x l :
  List.length (insertSorted cmp x l) = S (List.length l).
Proof.
  induction l as [| y l IH]; [reflexivity |]. cbn [insertSorted].
  destruct (Double.gtb (cmp x y) Double.zero); cbn [List.length];
    [rewrite IH |]; reflexivity.
Qed.

Lemma sort_length (A : Type) (cmp : A -> A -> Double.num) l :
  List.length (sort cmp l) = List.length l.
Proof.
  induction l as [| x l IH]; [reflexivity |].
  unfold sort in *. cbn [fold_right List.length].
  rewrite insertSorted_length, IH. reflexivity.
Qed.



(** ** The order the sort leaves *)

Section Order.
Variable A : Type.
Variable cmp : A -> A -> Double.num.
(** The elements the comparator orders. *)
Variable P : A -> Prop.

(** The comparator lets [x] stay before [y]. *)
Let precedes (x y : A) : Prop := Double.gtb (cmp x y) Double.zero = false.

Hypothesis cmp_asym : forall x y,
  P x -> P y -> Double.gtb (cmp x y) Double.zero = true -> precedes y x.
Hypothesis cmp_trans : forall x y z,
  P x -> P y -> P z -> precedes x y -> precedes y z -> precedes x z.

Lemma insertSorted_perm x l : Permutation (insertSorted cmp x l) (x :: l).
Proof.
  induction l as [| y l IH]; [apply Permutation_refl |]. cbn [insertSorted].
  destruct (Double.gtb (cmp x y) Double.zero).
  - apply perm_trans with (y :: x :: l).
    + apply perm_skip. exact IH.
    + apply perm_swap.
  - apply Permutation_refl.
Qed.

Lemma sort_perm l : Permutation (sort cmp l) l.
Proof.
  induction l as [| x l IH]; [apply perm_nil |].
  unfold sort in *. cbn [fold_right].
  apply perm_trans with (x :: fold_right (insertSorted cmp) [] l).
  - apply insertSorted_perm.
  - apply perm_skip. exact IH.
Qed.

Lemma insertSorted_sorted x l :
  P x -> Forall P l -> StronglySorted precedes l ->
  StronglySorted precedes (insertSorted cmp x l).
Proof.
  intros Px Pl Hs. induction Hs as [| y l Hs IH Hy]; cbn [insertSorted].
  - apply SSorted_cons; [apply SSorted_nil | apply Forall_nil].
  - inversion Pl as [| ? ? Py Pl']; subst.
    destruct (Double.gtb (cmp x y) Double.zero) eqn:E.
    + apply SSorted_cons; [apply IH; exact Pl' |].
      apply (Permutation_Forall (Permutation_sym (insertSorted_perm x l))).
      apply Forall_cons; [apply cmp_asym; assumption | exact Hy].
    + apply SSorted_cons; [apply SSorted_cons; assumption |].
      apply Forall_cons; [exact E |].
      rewrite Forall_forall in *. intros z Hz.
      apply cmp_trans with y; auto.
Qed.

Lemma sort_sorted l : Forall P l -> StronglySorted precedes (sort cmp l).
Proof.
  induction l as [| x l IH]; intros Pl; [apply SSorted_nil |].
  inversion Pl as [| ? ? Px Pl']; subst.
  unfold sort in *. cbn [fold_right].
  apply insertSorted_sorted; [exact Px | | apply IH; exact Pl'].
  apply (Permutation_Forall (Permutation_sym (sort_perm l))). exact Pl'.
Qed.
End Order.

(** In a sorted list every element of a prefix stands in the order to
    every element of the rest. *)
Lemma sorted_split (A : Type) (R : A -> A -> Prop) (l : list A) n :
  StronglySorted R l ->
  forall a b, In a (firstn n l) -> In b (skipn n l) -> R a b.
Proof.
  intros Hs. revert n. induction Hs as [| x l Hs IH Hx]; intros n a b Ha Hb.
  - destruct n; contradiction.
  - destruct n as [| n]; [contradiction |].
    cbn [firstn skipn] in Ha, Hb. destruct Ha as [<- | Ha].
    + rewrite Forall_forall in Hx. apply Hx.
      rewrite <- (firstn_skipn n l). apply in_or_app. right. exact Hb.
    + apply (IH n); assumption.
Qed.

Lemma sorted_firstn (A : Type) (R : A -> A -> Prop) (l : list A) n :
  StronglySorted R l -> StronglySorted R (firstn n l).
Proof.
  intros Hs. revert n. induction Hs as [| x l Hs IH Hx]; intros n.
  - destruct n; apply SSorted_nil.
  - destruct n as [| n]; [apply SSorted_nil |]. cbn [firstn].
    apply SSorted_cons; [apply IH |].
    rewrite Forall_forall in *. intros z Hz. apply Hx.
    rewrite <- (firstn_skipn n l). apply in_or_app. left. exact Hz.
Qed.


End SortFacts.

(* ================================================================== *)
(** * The chart field selector *)
(* ================================================================== *)

Module SelectorFacts.

Import JS Dashboard PoolFacts ParseFacts SortFacts.
Local Open Scope string_scope.

(** C2, evaluated on the imported dataset of one row [{name: "a"}]: after
    [handleDataImported] the component holds the imported row object
    itself (address 0), and [handleAddChart("bar")], finding no numeric
    field, writes the synthetic field into that object: the imported row
    has changed.  (Whatever [Math.sin], [Math.random] and the clock
    return.) *)
Theorem demo_field_written_into_imported_row
  (Math_sin : Double.num -> Double.num) (Math_random : nat -> Double.num)
  (now : Z) :
  let imported := DashboardExamples.named in
  let st0 := DashboardExamples.initial in
  let st1 := handleDataImported imported st0 in
  let st2 := handleAddChart Math_sin Math_random Bar noOverrides now st1 in
  deref (heap st0) 0 = [("name", VStr "a")]
  /\ option_map rows (currentData st1) = Some (rows imported)
  /\ deref (heap st2) 0
     = [("name", VStr "a");
        ("demo_bar_value",
         VNum (fst (demoValue Math_sin Math_random Bar 0 0)))]
  /\ hasKey (deref (heap st0) 0) "demo_bar_value" = false
  /\ hasKey (deref (heap st2) 0) "demo_bar_value" = true
  /\ option_map yAxis (lastConfig st2) = Some (Some "demo_bar_value").
Proof.
  repeat split; vm_compute; reflexivity.
Qed.

Section ScenarioA.
Variable data : list JS.row.
Hypothesis Hlen : List.length data = 20%nat.
Hypothesis Hdate :
  Forall (fun row => exists s, get row "date" = VStr s /\ datePattern s = true)
         data.
Hypothesis Hregion : Forall (fun row => exists s, get row "region" = VStr s) data.
Hypothesis Hregion3 : setSize (column data "region") = 3%nat.
Hypothesis Hsales :
  Forall (fun row => exists n, get row "sales" = VNum n
                     /\ Double.gtb (Double.abs n) Double.lit_0_001 = true)
         data.
Hypothesis Hnot_id :
  (2 * count (fun v => match v with VStr s => idPattern s | VPrim _ => false end)
         (column data "region") <= List.length data)%nat.
Hypothesis Hnot_numeric :
  (2 * count (fun v => match v with VStr s => startsNumeric s | VPrim _ => false end)
         (column data "region") <= List.length data)%nat.

Let hs := DashboardExamples.scenarioHeaders.

Lemma scenario_first : exists r rest, data = r :: rest.
Proof. destruct data as [| r rest]; [discriminate Hlen |]. eauto. Qed.

Lemma scenario_date_idLike : isIdLikeField "date" (column data "date") = false.
Proof.
  unfold isIdLikeField. change (idNamePattern "date") with false. cbv iota.
  destruct scenario_first as (r & rest & E).
  pose proof Hdate as Hd. rewrite E in Hd.
  inversion Hd as [| r0 l0 (s & Hs & _) _]; subst r0 l0.
  rewrite E at 1. cbn [column map]. rewrite Hs.
  rewrite count_none; [reflexivity |].
  intros v Hv. unfold column in Hv. apply in_map_iff in Hv.
  destruct Hv as (row & <- & Hrow). rewrite Forall_forall in Hdate.
  destruct (Hdate row Hrow) as (s' & -> & Hs').
  apply datePattern_not_idPattern. exact Hs'.
Qed.

Lemma scenario_region_idLike :
  isIdLikeField "region" (column data "region") = false.
Proof.
  unfold isIdLikeField. change (idNamePattern "region") with false. cbv iota.
  assert (Hl : List.length (column data "region") = List.length data)
    by (unfold column; apply length_map).
  destruct (column data "region") as [| [s | p] l]; try reflexivity.
  unfold moreThanHalf. apply Nat.ltb_ge. rewrite Hl. exact Hnot_id.
Qed.

Lemma scenario_sales_idLike :
  isIdLikeField "sales" (column data "sales") = false.
Proof.
  unfold isIdLikeField. change (idNamePattern "sales") with false. cbv iota.
  destruct scenario_first as (r & rest & E).
  pose proof Hsales as Hd. rewrite E in Hd.
  inversion Hd as [| r0 l0 (n & Hn & _) _]; subst r0 l0.
  rewrite E. cbn [column map]. rewrite Hn. reflexivity.
Qed.

Lemma scenario_region_numeric :
  moreThanHalf (numericCount data "region") (List.length data) = false.
Proof.
  unfold moreThanHalf. apply Nat.ltb_ge.
  rewrite numericCount_by_prefix.
  assert (E : count (fun row => match get row "region" with
                                | VStr s => startsNumeric s
                                | VPrim (SNum _) => true
                                | VPrim _ => false
                                end) data
              = count (fun v => match v with
                                | VStr s => startsNumeric s
                                | VPrim _ => false
                                end) (column data "region")).
  { unfold column. rewrite count_map. apply count_ext. intros row Hrow.
    rewrite Forall_forall in Hregion. destruct (Hregion row Hrow) as (s & ->).
    reflexivity. }
  rewrite E. exact Hnot_numeric.
Qed.

Lemma scenario_region_date :
  moreThanHalf (dateCount data "region") (List.length data) = false.
Proof.
  unfold moreThanHalf. apply Nat.ltb_ge.
  apply Nat.le_trans
    with (2 * count (fun v => match v with
                              | VStr s => startsNumeric s
                              | VPrim _ => false
                              end) (column data "region"))%nat;
    [| exact Hnot_numeric].
  apply Nat.mul_le_mono_l. unfold dateCount, column. rewrite count_map.
  apply count_le. intros row _.
  destruct (get row "region") as [s | p]; [| discriminate].
  apply datePattern_startsNumeric.
Qed.

Lemma scenario_sales_numeric :
  moreThanHalf (numericCount data "sales") (List.length data) = true
  /\ hasNonZeroValues data "sales" = true.
Proof.
  split.
  - rewrite numericCount_by_prefix. rewrite count_all.
    + rewrite Hlen. reflexivity.
    + intros row Hrow. rewrite Forall_forall in Hsales.
      destruct (Hsales row Hrow) as (n & -> & _). reflexivity.
  - destruct scenario_first as (r & rest & E).
    pose proof Hsales as Hd. rewrite E in Hd.
    inversion Hd as [| r0 l0 (n & Hn & Hz) _]; subst r0 l0.
    rewrite E. unfold hasNonZeroValues. cbn [existsb]. rewrite Hn.
    cbn [parseIfString VNum toNumber]. rewrite Hz.
    assert (Hnan : isNaN (SNum n) = false).
    { unfold isNaN. cbn [toNumber]. destruct n; try reflexivity.
      unfold Double.gtb in Hz. cbn [Double.abs] in Hz.
      rewrite ltb_NaN_r in Hz. discriminate Hz. }
    rewrite Hnan. reflexivity.
Qed.

Lemma scenario_sales_date :
  moreThanHalf (dateCount data "sales") (List.length data) = false.
Proof.
  unfold dateCount. rewrite count_none; [rewrite Hlen; reflexivity |].
  intros row Hrow. rewrite Forall_forall in Hsales.
  destruct (Hsales row Hrow) as (n & -> & _). reflexivity.
Qed.

Lemma scenario_date_date :
  moreThanHalf (dateCount data "date") (List.length data) = true.
Proof.
  unfold dateCount. rewrite count_all; [rewrite Hlen; reflexivity |].
  intros row Hrow. rewrite Forall_forall in Hdate.
  destruct (Hdate row Hrow) as (s & -> & Hs). exact Hs.
Qed.

(** The pools of the scenario. *)
Lemma scenario_numericFields :
  numericFields hs data = ["date"; "sales"]
  \/ numericFields hs data = ["sales"].
Proof.
  unfold numericFields, hs, DashboardExamples.scenarioHeaders. cbn [filter].
  rewrite scenario_date_idLike, scenario_region_idLike, scenario_sales_idLike.
  rewrite scenario_region_numeric. cbn [andb].
  destruct scenario_sales_numeric as [-> ->]. cbn [andb].
  destruct (moreThanHalf (numericCount data "date") (List.length data)
            && hasNonZeroValues data "date"); [left | right]; reflexivity.
Qed.

Lemma scenario_dateFields : dateFields hs data = ["date"].
Proof.
  unfold dateFields, hs, DashboardExamples.scenarioHeaders. cbn [filter].
  rewrite scenario_date_idLike, scenario_region_idLike, scenario_sales_idLike.
  rewrite scenario_date_date, scenario_region_date, scenario_sales_date.
  reflexivity.
Qed.

Lemma scenario_categoryFields : categoryFields hs data = ["region"].
Proof.
  unfold categoryFields. rewrite scenario_dateFields.
  unfold hs, DashboardExamples.scenarioHeaders. cbn [filter].
  rewrite scenario_date_idLike, scenario_region_idLike, scenario_sales_idLike.
  fold DashboardExamples.scenarioHeaders. fold hs.
  destruct scenario_numericFields as [-> | ->]; reflexivity.
Qed.

Lemma scenario_goodCategoryFields : goodCategoryFields hs data = ["region"].
Proof.
  unfold goodCategoryFields. rewrite scenario_categoryFields.
  cbn [filter]. rewrite Hregion3. reflexivity.
Qed.

Lemma scenario_scored :
  exists f l, scoredNumericFields hs data = f :: l.
Proof.
  assert (H : List.length (scoredNumericFields hs data) <> O).
  { unfold scoredNumericFields. rewrite length_map, sort_length, length_map.
    destruct scenario_numericFields as [-> | ->]; discriminate. }
  destruct (scoredNumericFields hs data) as [| f l];
    [exfalso; apply H; reflexivity | eauto].
Qed.
End ScenarioA.

Lemma lastConfig_snoc (st : state) (c : chart) h d cs n :
  st = {| heap := h; currentData := d; charts := cs ++ [c]; draws := n |} ->
  lastConfig st = Some (config c).
Proof. intros ->. unfold lastConfig. cbn [charts]. rewrite rev_app_distr. reflexivity. Qed.

(** C9 (amended): for every dataset with the headers "date", "region",
    "sales" and 20 rows, in which every date matches the leading
    [YYYY-MM-DD] pattern, the regions are strings with exactly 3 distinct
    values, the sales are numbers of magnitude above 0.001, and at most half
    of the region values are identifier-shaped and at most half of them
    start like a number, a "line" chart without overrides has
    [xAxis = "date"] and [groupBy = "region"]. *)
Theorem scenario_line_chart
  (Math_sin : Double.num -> Double.num) (Math_random : nat -> Double.num)
  (now : Z) (st : state) (cd : dataset) :
  currentData st = Some cd ->
  headers cd = ["date"; "region"; "sales"] ->
  let data := map (deref (heap st)) (rows cd) in
  List.length data = 20%nat ->
  Forall (fun row => exists s, get row "date" = VStr s /\ datePattern s = true)
         data ->
  Forall (fun row => exists s, get row "region" = VStr s) data ->
  setSize (column data "region") = 3%nat ->
  Forall (fun row => exists n, get row "sales" = VNum n
                     /\ Double.gtb (Double.abs n) Double.lit_0_001 = true)
         data ->
  (2 * count (fun v => match v with VStr s => idPattern s | VPrim _ => false end)
         (column data "region") <= List.length data)%nat ->
  (2 * count (fun v => match v with VStr s => startsNumeric s | VPrim _ => false end)
         (column data "region") <= List.length data)%nat ->
  exists cfg,
    lastConfig (handleAddChart Math_sin Math_random Line noOverrides now st)
    = Some cfg
    /\ cType cfg = Line
    /\ xAxis cfg = Some "date"
    /\ groupBy cfg = Some "region".
Proof.
  intros Hcd Hh data Hlen Hdate Hregion Hregion3 Hsales Hid Hnum.
  unfold handleAddChart. rewrite Hcd. fold data.
  unfold selectFields. rewrite Hh.
  change ["date"; "region"; "sales"] with DashboardExamples.scenarioHeaders.
  rewrite (@scenario_dateFields data) by assumption.
  rewrite (@scenario_goodCategoryFields data) by assumption.
  destruct (@scenario_scored data) as (f & l & ->); try assumption.
  unfold bind, ret. cbn [find].
  eexists. split.
  - eapply lastConfig_snoc. reflexivity.
  - cbn. repeat split; reflexivity.
Qed.


(** C9, as the claim states it, fails.  With the regions "R1", "R2", "R3"
    (3 distinct strings) the region column is identifier-like, it is in no
    pool, and the chart has no [groupBy].  And with plain region names but
    sales that are all 100, the y axis is "date": the dates count as numbers
    through their leading year, both columns score 0, and "date" comes
    first. *)
Lemma scenario_fails :
  List.length (DashboardExamples.scenarioRows DashboardExamples.codes
                 DashboardExamples.growing) = 20%nat
  /\ setSize (column (DashboardExamples.scenarioRows DashboardExamples.codes
                        DashboardExamples.growing) "region") = 3%nat
  /\ DashboardExamples.lineChart DashboardExamples.codes
       DashboardExamples.growing
     = Some {| cType := Line; xAxis := Some "date"; yAxis := Some "sales";
               groupBy := None; title := "Line Chart" |}
  /\ setSize (column (DashboardExamples.scenarioRows DashboardExamples.compass
                        DashboardExamples.flat) "region") = 3%nat
  /\ DashboardExamples.lineChart DashboardExamples.compass
       DashboardExamples.flat
     = Some {| cType := Line; xAxis := Some "date"; yAxis := Some "date";
               groupBy := Some "region"; title := "Line Chart" |}.
Proof. repeat split; vm_compute; reflexivity. Qed.

(** The amended C9 on the scenario with the regions "North", "South",
    "East" and growing sales. *)
Lemma scenario_line_chart_witness :
  exists cfg,
    lastConfig (handleAddChart DashboardExamples.noSin DashboardExamples.noRandom
                  Line noOverrides 0
                  (DashboardExamples.scenario DashboardExamples.compass
                     DashboardExamples.growing))
    = Some cfg
    /\ cType cfg = Line
    /\ xAxis cfg = Some "date"
    /\ groupBy cfg = Some "region".
Proof.
  apply (@scenario_line_chart DashboardExamples.noSin DashboardExamples.noRandom
           0 (DashboardExamples.scenario DashboardExamples.compass
                DashboardExamples.growing)
           {| headers := DashboardExamples.scenarioHeaders; rows := seq 0 20 |});
    try reflexivity;
    unfold DashboardExamples.scenario, DashboardExamples.scenarioRows;
    cbn [heap rows map seq deref nth].
  - repeat (apply Forall_cons;
            [eexists; split; [reflexivity | vm_compute; reflexivity] |]).
    apply Forall_nil.
  - repeat (apply Forall_cons; [eexists; reflexivity |]). apply Forall_nil.
  - repeat (apply Forall_cons;
            [eexists; split; [reflexivity | vm_compute; reflexivity] |]).
    apply Forall_nil.
  - apply Nat.leb_le. vm_compute. reflexivity.
  - apply Nat.leb_le. vm_compute. reflexivity.
Defined.

End SelectorFacts.

(* ================================================================== *)
(** * The pie: the cap on the number of slices *)
(* ================================================================== *)

Module CapFacts.

Import Double DoubleFacts SortFacts Chart.

(** ** The order of the slices *)

Lemma byValue_positive a b :
  comparableSlice a -> comparableSlice b ->
  gtb (byValue a b) zero = ltb (JS.toNumber (value a)) (JS.toNumber (value b)).
Proof. intros Ha Hb. unfold byValue. apply sub_positive; assumption. Qed.

Lemma comparable_not_NaN a : comparable a -> isNaN a = false.
Proof. destruct a; [contradiction | reflexivity ..]. Qed.

Lemma sort_descending l :
  Forall comparableSlice l ->
  StronglySorted noSmaller (JS.sort byValue l).
Proof.
  intros Hl.
  assert (Hs : StronglySorted
                 (fun x y => gtb (byValue x y) zero = false)
                 (JS.sort byValue l)).
  { apply sort_sorted with (P := comparableSlice); [| | exact Hl].
    - intros x y Px Py. rewrite !byValue_positive by assumption.
      apply ltb_asym.
    - intros x y z Px Py Pz. rewrite !byValue_positive by assumption.
      apply ltb_false_trans. apply comparable_not_NaN. exact Py. }
  assert (Hc : Forall comparableSlice (JS.sort byValue l)).
  { apply (Permutation_Forall (Permutation_sym (sort_perm byValue l))).
    exact Hl. }
  clear Hl. induction Hs as [| x r Hs IH Hx]; [apply SSorted_nil |].
  inversion Hc as [| ? ? Cx Cr]; subst.
  apply SSorted_cons; [apply IH; exact Cr |].
  rewrite Forall_forall in *. intros y Hy. unfold noSmaller.
  rewrite <- byValue_positive by auto. apply Hx. exact Hy.
Qed.

(** ** Sums of integer values *)

Lemma integerSum_le l : (Z.abs (integerSum l) <= magnitude l)%Z.
Proof.
  induction l as [| s l IH]; [cbn; lia |].
  cbn [integerSum magnitude fold_right]. fold (integerSum l).
  fold (magnitude l). lia.
Qed.

Lemma magnitude_nonneg l : (0 <= magnitude l)%Z.
Proof. pose proof (integerSum_le l). lia. Qed.

Lemma sum_integers_from l a :
  Forall integral l ->
  (Z.abs a + magnitude l < 2 ^ 53)%Z ->
  fold_left (fun acc v => add acc (JS.toNumber v)) (map value l)
    (Fin (inject_Z a))
  = Fin (inject_Z (a + integerSum l)).
Proof.
  intros Hl. revert a. induction Hl as [| s l Hs Hl IH]; intros a Hb.
  - cbn. rewrite Z.add_0_r. reflexivity.
  - cbn [map fold_left magnitude integerSum fold_right] in *.
    fold (magnitude l) in Hb. fold (integerSum l).
    pose proof (magnitude_nonneg l).
    red in Hs. rewrite Hs. cbn [add].
    rewrite (@round_comp _ (inject_Z (a + integerOf s)))
      by (rewrite inject_Z_plus; reflexivity).
    rewrite round_inject by lia.
    rewrite IH by lia. f_equal. f_equal. lia.
Qed.

Lemma total_integers l :
  Forall integral l -> (magnitude l < 2 ^ 53)%Z ->
  total l = Fin (inject_Z (integerSum l)).
Proof.
  intros Hl Hb. unfold total, JS.sum.
  change zero with (Fin (inject_Z 0)).
  rewrite sum_integers_from; [reflexivity | exact Hl |].
  change (Z.abs 0) with 0%Z. lia.
Qed.

Lemma magnitude_app l r : magnitude (l ++ r) = (magnitude l + magnitude r)%Z.
Proof.
  induction l as [| s l IH]; [reflexivity |].
  cbn [app magnitude fold_right] in *. fold (magnitude (l ++ r)).
  fold (magnitude l). lia.
Qed.

Lemma integerSum_app l r :
  integerSum (l ++ r) = (integerSum l + integerSum r)%Z.
Proof.
  induction l as [| s l IH]; [reflexivity |].
  cbn [app integerSum fold_right] in *. fold (integerSum (l ++ r)).
  fold (integerSum l). lia.
Qed.

Lemma magnitude_perm l r : Permutation l r -> magnitude l = magnitude r.
Proof.
  unfold magnitude.
  induction 1 as [| s l r _ IH | s t l | l m r _ IH1 _ IH2];
    cbn [fold_right]; [reflexivity | rewrite IH; reflexivity | lia |].
  rewrite IH1. exact IH2.
Qed.

Lemma integerSum_perm l r : Permutation l r -> integerSum l = integerSum r.
Proof.
  unfold integerSum.
  induction 1 as [| s l r _ IH | s t l | l m r _ IH1 _ IH2];
    cbn [fold_right]; [reflexivity | rewrite IH; reflexivity | lia |].
  rewrite IH1. exact IH2.
Qed.

(** The slice of the remaining ones. *)
Lemma other_integral (n : JS.value) k :
  integral {| name := n; value := JS.SNum (Fin (inject_Z k)) |}
  /\ integerOf {| name := n; value := JS.SNum (Fin (inject_Z k)) |} = k.
Proof.
  unfold integral, integerOf. cbn [value JS.toNumber].
  rewrite Qfloor_Z. split; reflexivity.
Qed.

(** ** The cap *)

Lemma capSlices_long l :
  (8 < List.length l)%nat ->
  capSlices l
  = firstn 7 (JS.sort byValue l)
    ++ [{| name := JS.VStr "Other";
           value := JS.SNum (total (skipn 7 (JS.sort byValue l))) |}].
Proof.
  intros H. unfold capSlices.
  apply Nat.ltb_lt in H. rewrite H. reflexivity.
Qed.

Lemma cap_keeps_total l :
  (8 < List.length l)%nat ->
  Forall integral l -> (magnitude l < 2 ^ 53)%Z ->
  total (capSlices l) = total l.
Proof.
  intros Hlen Hl Hb. rewrite (@capSlices_long l Hlen).
  set (sorted := JS.sort byValue l).
  assert (Hp : Permutation sorted l) by apply sort_perm.
  assert (Hsplit : sorted = firstn 7 sorted ++ skipn 7 sorted)
    by (symmetry; apply firstn_skipn).
  set (top := firstn 7 sorted) in *. set (rest := skipn 7 sorted) in *.
  assert (Hi : Forall integral (top ++ rest)).
  { rewrite <- Hsplit. apply (Permutation_Forall (Permutation_sym Hp)).
    exact Hl. }
  apply Forall_app in Hi. destruct Hi as [Ht Hr].
  assert (Hm : (magnitude top + magnitude rest = magnitude l)%Z).
  { rewrite <- magnitude_app, <- Hsplit. apply magnitude_perm. exact Hp. }
  assert (Hz : (integerSum top + integerSum rest = integerSum l)%Z).
  { rewrite <- integerSum_app, <- Hsplit. apply integerSum_perm. exact Hp. }
  pose proof (magnitude_nonneg top). pose proof (magnitude_nonneg rest).
  pose proof (integerSum_le rest) as Hle.
  rewrite (@total_integers rest Hr) by lia.
  destruct (other_integral (JS.VStr "Other") (integerSum rest)) as [Ho Eo].
  rewrite (@total_integers l Hl Hb).
  rewrite total_integers.
  - rewrite integerSum_app. cbn [integerSum fold_right].
    rewrite Eo. f_equal. f_equal. lia.
  - apply Forall_app. split; [exact Ht |].
    apply Forall_cons; [exact Ho | apply Forall_nil].
  - rewrite magnitude_app. cbn [magnitude fold_right]. rewrite Eo. lia.
Qed.


Lemma on_grid_inject z : on_grid (inject_Z z).
Proof.
  exists (z * 2 ^ 1074)%Z.
  rewrite inject_Z_mult, (Zpower_Qpower 2 1074) by lia.
  change (inject_Z 2) with 2. unfold emin.
  rewrite <- Qmult_assoc, <- pow2_add. change (2 ^ (1074 + -1074)) with 1.
  ring.
Qed.

Lemma whole_facts n z :
  integral (ChartExamples.whole n z)
  /\ comparableSlice (ChartExamples.whole n z).
Proof.
  split; [apply other_integral | apply on_grid_inject].
Qed.

(** C4, as the claim states it, fails: of nine slices with the values
    1, 1, [2 ^ 53] and six zeros the cap keeps [2 ^ 53], 1, 1 and four
    zeros and adds "Other" for the last two zeros; the values of the input
    add up to [2 ^ 53 + 2], those of the output, summed in their new
    order, to [2 ^ 53]. *)
Lemma cap_changes_total :
  (8 < List.length ChartExamples.lossy)%nat
  /\ List.length (capSlices ChartExamples.lossy) = 8%nat
  /\ total ChartExamples.lossy = Fin (inject_Z (2 ^ 53 + 2))
  /\ total (capSlices ChartExamples.lossy) = Fin (inject_Z (2 ^ 53))
  /\ total (capSlices ChartExamples.lossy) <> total ChartExamples.lossy.
Proof.
  split; [cbn; lia |].
  split; [vm_compute; reflexivity |].
  split; [vm_compute; reflexivity |].
  split; [vm_compute; reflexivity |].
  vm_compute. discriminate.
Qed.

(** C4, amended: a list of more than 8 slices is capped to 8 slices: 7
    slices of the list, then one slice named "Other" whose value is the
    sum, in binary64, of the remaining slices.  When no value is NaN the 7
    are in descending order of value and none of them is smaller than a
    remaining slice.  When the values are integers whose magnitudes add up
    to less than [2 ^ 53] the values of the output add up to the same as
    the values of the input. *)
Theorem cap_of_long_pie (l : list slice) :
  (8 < List.length l)%nat ->
  exists top rest : list slice,
    capSlices l
    = top ++ [{| name := JS.VStr "Other"; value := JS.SNum (total rest) |}]
    /\ List.length top = 7%nat
    /\ List.length (capSlices l) = 8%nat
    /\ Permutation (top ++ rest) l
    /\ (Forall comparableSlice l ->
        StronglySorted noSmaller top
        /\ forall t r, In t top -> In r rest -> noSmaller t r)
    /\ (Forall integral l -> (magnitude l < 2 ^ 53)%Z ->
        total (capSlices l) = total l).
Proof.
  intros Hlen.
  exists (firstn 7 (JS.sort byValue l)), (skipn 7 (JS.sort byValue l)).
  assert (Ht : List.length (firstn 7 (JS.sort byValue l)) = 7%nat).
  { rewrite length_firstn, sort_length. lia. }
  split; [apply capSlices_long; exact Hlen |].
  split; [exact Ht |].
  split.
  { rewrite (@capSlices_long l Hlen), length_app, Ht. reflexivity. }
  split.
  { rewrite firstn_skipn. apply sort_perm. }
  split.
  - intros Hc. pose proof (sort_descending Hc) as Hs. split.
    + apply sorted_firstn. exact Hs.
    + apply sorted_split. exact Hs.
  - intros Hi Hb. apply cap_keeps_total; assumption.
Qed.

(** The theorem at the ten slices of [ChartExamples.shares], whose values
    are integers that compare. *)
Lemma cap_of_long_pie_witness :
  (Forall integral ChartExamples.shares
   /\ Forall comparableSlice ChartExamples.shares
   /\ (magnitude ChartExamples.shares < 2 ^ 53)%Z)
  /\ exists top rest : list slice,
       capSlices ChartExamples.shares
       = top ++ [{| name := JS.VStr "Other"; value := JS.SNum (total rest) |}]
       /\ List.length top = 7%nat
       /\ List.length (capSlices ChartExamples.shares) = 8%nat
       /\ Permutation (top ++ rest) ChartExamples.shares
       /\ (Forall comparableSlice ChartExamples.shares ->
           StronglySorted noSmaller top
           /\ forall t r, In t top -> In r rest -> noSmaller t r)
       /\ (Forall integral ChartExamples.shares ->
           (magnitude ChartExamples.shares < 2 ^ 53)%Z ->
           total (capSlices ChartExamples.shares)
           = total ChartExamples.shares).
Proof.
  split.
  - split; [| split].
    + repeat (apply Forall_cons; [apply whole_facts |]). apply Forall_nil.
    + repeat (apply Forall_cons; [apply whole_facts |]). apply Forall_nil.
    + vm_compute. reflexivity.
  - apply (@cap_of_long_pie ChartExamples.shares). cbn. lia.
Defined.


End CapFacts.

(* ================================================================== *)
(** * The bucketing of identifiers *)
(* ================================================================== *)

Module BucketFacts.

Import Double DoubleFacts Chart.

(** ** First occurrences *)

Lemma firsts_in d l : In d (firsts l) <-> In d l.
Proof.
  induction l as [| a l IH]; [tauto |]. cbn [firsts In].
  rewrite filter_In, IH, negb_true_iff.
  destruct (Ascii.eqb_spec a d) as [-> | N].
  - tauto.
  - split; [tauto |]. intros [E | H]; [contradiction | tauto].
Qed.

Lemma firsts_NoDup l : NoDup (firsts l).
Proof.
  induction l as [| a l IH]; [apply NoDup_nil |]. cbn [firsts].
  apply NoDup_cons.
  - rewrite filter_In, negb_true_iff, Ascii.eqb_refl.
    intros [_ H]. discriminate.
  - apply NoDup_filter. exact IH.
Qed.

Lemma existsb_in d l : existsb (Ascii.eqb d) l = true <-> In d l.
Proof.
  rewrite existsb_exists. split.
  - intros [e [H E]]. apply Ascii.eqb_eq in E. subst. exact H.
  - intros H. exists d. split; [exact H | apply Ascii.eqb_refl].
Qed.

Lemma firsts_snoc l d :
  firsts (l ++ [d])
  = if existsb (Ascii.eqb d) l then firsts l else firsts l ++ [d].
Proof.
  induction l as [| a l IH]; [reflexivity |].
  cbn [app firsts existsb]. rewrite IH.
  rewrite (Ascii.eqb_sym d a).
  destruct (existsb (Ascii.eqb d) l) eqn:E.
  - rewrite orb_true_r. reflexivity.
  - rewrite orb_false_r, filter_app. cbn [filter].
    destruct (Ascii.eqb a d); cbn [negb]; [| reflexivity].
    rewrite app_nil_r. reflexivity.
Qed.

(** ** One update of the map *)

Section Update.
Variables K V : Type.
Variable eqb : K -> K -> bool.
Variable key : ascii -> K.
Hypothesis eqb_key : forall a b, eqb (key a) (key b) = Ascii.eqb a b.

Lemma mapUpdate_entries (g : ascii -> V) (f : option V -> V) es d :
  NoDup es ->
  mapUpdate eqb (map (fun e => (key e, g e)) es) (key d) f
  = if existsb (Ascii.eqb d) es
    then map (fun e => (key e, if Ascii.eqb e d then f (Some (g e)) else g e))
           es
    else map (fun e => (key e, g e)) es ++ [(key d, f None)].
Proof.
  induction 1 as [| e es He Hes IH]; [reflexivity |].
  cbn [map mapUpdate existsb]. rewrite eqb_key, (Ascii.eqb_sym d e).
  destruct (Ascii.eqb_spec e d) as [-> | N]; cbn [orb].
  - f_equal. apply map_ext_in. intros e' He'.
    destruct (Ascii.eqb_spec e' d) as [-> | _]; [contradiction | reflexivity].
  - rewrite IH. destruct (existsb (Ascii.eqb d) es); reflexivity.
Qed.

(** ** The whole loop *)

Variable F : JS.scalar -> option V -> V.
Variable val : list JS.scalar -> V.
Hypothesis val_one : forall v, val [v] = F v None.
Hypothesis val_snoc : forall vs v, val (vs ++ [v]) = F v (Some (val vs)).

Variable yv : JS.value -> JS.scalar.
Variables x y : string.

Let step (m : list (K * V)) (item : JS.row) : list (K * V) :=
  match digitOf x item with
  | Some d => mapUpdate eqb m (key d) (F (yv (JS.get item y)))
  | None => m
  end.

Let digitList (rows : list JS.row) : list ascii :=
  flat_map (fun item => match digitOf x item with
                        | Some d => [d]
                        | None => []
                        end) rows.

Lemma bucket_without_digit d rows :
  ~ In d (digitList rows) -> filter (inBucket x d) rows = [].
Proof.
  induction rows as [| item rows IH]; [reflexivity |].
  unfold digitList. cbn [flat_map filter]. unfold inBucket at 1.
  destruct (digitOf x item) as [e |]; cbn [app].
  - intros H. destruct (Ascii.eqb_spec e d) as [-> | _].
    + exfalso. apply H. left. reflexivity.
    + apply IH. intros Hc. apply H. right. exact Hc.
  - exact IH.
Qed.

Lemma loop_grouped rows :
  fold_left step rows []
  = map (fun d => (key d, val (bucketValues yv x y d rows))) (digits x rows).
Proof.
  induction rows as [| item p IH] using rev_ind; [reflexivity |].
  rewrite fold_left_app. cbn [fold_left]. rewrite IH. clear IH.
  unfold step, digits, bucketValues. rewrite flat_map_app. cbn [flat_map].
  fold (digitList p).
  destruct (digitOf x item) as [d |] eqn:E; rewrite ?app_nil_r.
  - rewrite firsts_snoc, mapUpdate_entries by apply firsts_NoDup.
    assert (Hin : existsb (Ascii.eqb d) (firsts (digitList p))
                  = existsb (Ascii.eqb d) (digitList p)).
    { apply eq_true_iff_eq. rewrite !existsb_in. apply firsts_in. }
    rewrite Hin.
    assert (Hv : forall e,
               map (fun item => yv (JS.get item y))
                 (filter (inBucket x e) (p ++ [item]))
               = map (fun item => yv (JS.get item y)) (filter (inBucket x e) p)
                 ++ (if Ascii.eqb d e then [yv (JS.get item y)] else [])).
    { intros e. rewrite filter_app, map_app. cbn [filter].
      unfold inBucket at 2. rewrite E.
      destruct (Ascii.eqb d e); reflexivity. }
    destruct (existsb (Ascii.eqb d) (digitList p)) eqn:Ed.
    + apply map_ext. intros e. rewrite Hv, (Ascii.eqb_sym d e).
      destruct (Ascii.eqb e d).
      * rewrite val_snoc. reflexivity.
      * rewrite app_nil_r. reflexivity.
    + rewrite map_app. cbn [map]. f_equal.
      * apply map_ext_in. intros e He. rewrite Hv.
        destruct (Ascii.eqb_spec d e) as [-> | _].
        -- apply (proj1 (firsts_in _ _)) in He.
           apply (proj2 (existsb_in _ _)) in He.
           congruence.
        -- rewrite app_nil_r. reflexivity.
      * rewrite Hv, Ascii.eqb_refl, bucket_without_digit.
        -- cbn [map app]. rewrite val_one. reflexivity.
        -- intros Hc. apply (proj2 (existsb_in _ _)) in Hc. congruence.
  - apply map_ext. intros e. rewrite filter_app. cbn [filter].
    replace (inBucket x e item) with false
      by (unfold inBucket; rewrite E; reflexivity).
    rewrite app_nil_r. reflexivity.
Qed.
End Update.

(** ** The loops of the component *)

(** A loop that does not throw. *)
Lemma fold_ok (B : Type) (stepR : B -> JS.row -> result B)
  (step : B -> JS.row -> B) rows b :
  (forall item, In item rows -> forall m, stepR m item = Ok (step m item)) ->
  fold_left (fun acc item => rbind acc (fun m => stepR m item)) rows (Ok b)
  = Ok (fold_left step rows b).
Proof.
  revert b. induction rows as [| item rows IH]; intros b H; [reflexivity |].
  cbn [fold_left rbind]. rewrite H by (left; reflexivity).
  apply IH. intros i Hi. apply H. right. exact Hi.
Qed.

(** A loop that throws. *)
Lemma fold_throws (B : Type) (stepR : B -> JS.row -> result B) rows :
  fold_left (fun acc item => rbind acc (fun m => stepR m item)) rows TypeError
  = TypeError.
Proof. induction rows as [| item rows IH]; [reflexivity | exact IH]. Qed.

Lemma fold_error (B : Type) (stepR : B -> JS.row -> result B)
  (bad : JS.row -> bool) rows acc :
  (forall item m, bad item = true -> stepR m item = TypeError) ->
  existsb bad rows = true ->
  fold_left (fun acc item => rbind acc (fun m => stepR m item)) rows acc
  = TypeError.
Proof.
  intros Hbad. revert acc.
  induction rows as [| item rows IH]; intros acc H; [discriminate |].
  cbn [existsb fold_left] in *.
  destruct (bad item) eqn:E.
  - destruct acc as [m |]; cbn [rbind].
    + rewrite (Hbad item m E). apply fold_throws.
    + apply fold_throws.
  - apply IH. exact H.
Qed.

Lemma allStrings_get x rows item :
  allStrings x rows = true -> In item rows ->
  exists s, JS.get item x = JS.VStr s.
Proof.
  unfold allStrings. rewrite forallb_forall. intros H Hi.
  specialize (H item Hi). destruct (JS.get item x) as [s | p];
    [exists s; reflexivity | discriminate].
Qed.

(** The buckets of a bar, line or area chart. *)
Lemma fillBuckets_grouped x y rows :
  allStrings x rows = true ->
  fillBuckets x y rows
  = Ok (map (fun d => (d, bucketValues yValueBar x y d rows)) (digits x rows)).
Proof.
  intros Hs. unfold fillBuckets.
  rewrite fold_ok with
    (step := fun m item =>
       match digitOf x item with
       | Some d =>
           mapUpdate Ascii.eqb m d
             (fun values => match values with
                            | Some vs => vs ++ [yValueBar (JS.get item y)]
                            | None => [yValueBar (JS.get item y)]
                            end)
       | None => m
       end).
  - f_equal.
    apply (@loop_grouped ascii (list JS.scalar) Ascii.eqb (fun d => d)
             (fun a b => eq_refl)
             (fun v values => match values with
                              | Some vs => vs ++ [v]
                              | None => [v]
                              end)
             (fun vs => vs)
             (fun v => eq_refl) (fun vs v => eq_refl) yValueBar x y rows).
  - intros item Hi m. unfold digitOf.
    destruct (allStrings_get x rows item Hs Hi) as [s ->].
    destruct (JS.firstDigit s); reflexivity.
Qed.

Lemma fillBuckets_throws x y rows :
  allStrings x rows = false -> fillBuckets x y rows = TypeError.
Proof.
  intros Hs. unfold fillBuckets.
  apply fold_error with
    (stepR := fun buckets item =>
       match JS.get item x with
       | JS.VStr id =>
           match JS.firstDigit id with
           | Some bucket =>
               Ok (pushBucket buckets bucket (yValueBar (JS.get item y)))
           | None => Ok buckets
           end
       | JS.VPrim _ => TypeError
       end)
    (bad := fun item => negb (JS.isString (JS.get item x))).
  - intros item m. destruct (JS.get item x); [discriminate | reflexivity].
  - unfold allStrings in Hs.
    induction rows as [| item rows IH]; [discriminate |].
    cbn [forallb existsb] in *.
    destruct (JS.isString (JS.get item x)); [apply IH; exact Hs | reflexivity].
Qed.

Lemma groupName_eqb a b :
  String.eqb (groupName a) (groupName b) = Ascii.eqb a b.
Proof.
  unfold groupName. cbn. destruct (Ascii.eqb a b); reflexivity.
Qed.

Lemma pieSum_snoc vs v :
  pieSum (vs ++ [v]) = add (JS.orZero (pieSum vs)) (JS.toNumber v).
Proof. unfold pieSum. rewrite fold_left_app. reflexivity. Qed.

(** The buckets of a pie. *)
Lemma fillPieBuckets_grouped x y rows :
  allStrings x rows = true ->
  fillPieBuckets x y rows
  = Ok (map (fun d => (groupName d, pieSum (bucketValues yValue x y d rows)))
          (digits x rows)).
Proof.
  intros Hs. unfold fillPieBuckets.
  rewrite fold_ok with
    (step := fun m item =>
       match digitOf x item with
       | Some d =>
           mapUpdate String.eqb m (groupName d)
             (fun total =>
                add (match total with
                     | Some n => JS.orZero n
                     | None => zero
                     end)
                  (JS.toNumber (yValue (JS.get item y))))
       | None => m
       end).
  - f_equal.
    apply (@loop_grouped string num String.eqb groupName groupName_eqb
             (fun v total =>
                add (match total with
                     | Some n => JS.orZero n
                     | None => zero
                     end)
                  (JS.toNumber v))
             pieSum
             (fun v => eq_refl) pieSum_snoc yValue x y rows).
  - intros item Hi m. unfold digitOf.
    destruct (allStrings_get x rows item Hs Hi) as [s ->].
    destruct (JS.firstDigit s); reflexivity.
Qed.

(** ** The running total of a pie bucket and the sum *)

Lemma add_orZero a b : isNaN a = false -> add (JS.orZero a) b = add a b.
Proof.
  intros Ha. unfold JS.orZero. destruct (truthy a) eqn:T; [reflexivity |].
  destruct a as [| | | q]; try discriminate.
  unfold truthy in T.
  assert (E : q == 0).
  { apply negb_false_iff in T. apply Qeq_bool_iff in T. exact T. }
  destruct b as [| | | r]; try reflexivity.
  cbn [add zero]. apply round_comp. rewrite E. reflexivity.
Qed.

Lemma add_finite a r : isNaN a = false -> isNaN (add a (Fin r)) = false.
Proof.
  destruct a as [| | | q]; intros H; try discriminate; try reflexivity.
  cbn [add]. apply ParseFacts.round_not_NaN.
Qed.

Lemma pieSum_sum vs : Forall finiteValue vs -> pieSum vs = JS.sum vs.
Proof.
  intros H. unfold pieSum, JS.sum.
  assert (G : forall a, isNaN a = false ->
              fold_left (fun total v => add (JS.orZero total) (JS.toNumber v))
                vs a
              = fold_left (fun acc v => add acc (JS.toNumber v)) vs a).
  { induction H as [| v vs [q Hv] _ IH]; intros a Ha; [reflexivity |].
    cbn [fold_left]. rewrite add_orZero by exact Ha.
    apply IH. rewrite Hv. apply add_finite. exact Ha. }
  apply G. reflexivity.
Qed.

(** ** When the buckets replace the rows *)

Lemma idPattern_digit s : JS.idPattern s = true -> JS.firstDigit s <> None.
Proof.
  destruct s as [| c [| d r]]; try discriminate. cbn [JS.idPattern].
  intros H. apply andb_prop in H. destruct H as [H _].
  apply andb_prop in H. destruct H as [_ Hd].
  cbn [JS.firstDigit]. rewrite Hd. destruct (JS.is_digit c); discriminate.
Qed.

Lemma digits_nonempty x rows :
  looksLikeIds x rows = true -> digits x rows <> [].
Proof.
  destruct rows as [| item rows]; [discriminate |]. cbn [looksLikeIds].
  unfold digits. cbn [flat_map]. unfold digitOf at 1.
  destruct (JS.get item x) as [s | p]; [| discriminate].
  intros H. apply idPattern_digit in H.
  destruct (JS.firstDigit s) as [d |]; [discriminate | congruence].
Qed.

Lemma idBuckets_grouped cfg rows :
  allStrings (keyOf (xAxis cfg)) rows = true ->
  idBuckets cfg rows
  = Ok (if barBucketing cfg rows
        then Some (map (fun d =>
                          averageRow (keyOf (xAxis cfg)) (keyOf (yAxis cfg))
                            (d, bucketValues yValueBar (keyOf (xAxis cfg))
                                  (keyOf (yAxis cfg)) d rows))
                     (digits (keyOf (xAxis cfg)) rows))
        else None).
Proof.
  intros Hs. unfold idBuckets, barBucketing.
  destruct (cType cfg); try reflexivity;
    (destruct (given (xAxis cfg) && given (yAxis cfg)
               && negb (given (groupBy cfg))); cbn [andb]; [| reflexivity];
     unfold JS.setSize;
     destruct (10 <? List.length
                       (JS.setOf (JS.column rows (keyOf (xAxis cfg)))))%nat;
     cbn [andb]; [| reflexivity];
     destruct (looksLikeIds (keyOf (xAxis cfg)) rows) eqn:L;
     [ pose proof (@digits_nonempty _ _ L) as Hd;
       destruct rows as [| item rows]; [discriminate |];
       cbn [looksLikeIds] in L;
       destruct (JS.get item (keyOf (xAxis cfg))) as [s | p];
         [| discriminate];
       rewrite L, (@fillBuckets_grouped _ _ _ Hs); cbn [rbind];
       rewrite map_map; cbn [fst snd];
       destruct (digits (keyOf (xAxis cfg)) (item :: rows));
         [congruence | reflexivity]
     | destruct rows as [| item rows]; [reflexivity |];
       cbn [looksLikeIds] in L;
       destruct (JS.get item (keyOf (xAxis cfg))) as [s | p];
         [rewrite L |]; reflexivity ]).
Qed.

Lemma needsGrouping_pieBucketing cfg rows :
  needsGrouping cfg rows = pieBucketing cfg rows.
Proof. reflexivity. Qed.

Lemma pieSlices_grouped cfg rows :
  allStrings (keyOf (xAxis cfg)) rows = true ->
  pieSlices cfg rows
  = Ok (if pieBucketing cfg rows
        then map (fun d =>
                    {| name := JS.VStr (groupName d);
                       value :=
                         JS.SNum
                           (pieSum (bucketValues yValue (keyOf (xAxis cfg))
                                      (keyOf (yAxis cfg)) d rows)) |})
               (digits (keyOf (xAxis cfg)) rows)
        else plainSlices cfg rows).
Proof.
  intros Hs. unfold pieSlices. rewrite needsGrouping_pieBucketing.
  destruct (pieBucketing cfg rows); [| reflexivity].
  rewrite (@fillPieBuckets_grouped _ _ _ Hs). cbn [rbind].
  rewrite map_map. reflexivity.
Qed.

Lemma digits_in x rows d :
  In d (digits x rows)
  <-> exists item, In item rows /\ digitOf x item = Some d.
Proof.
  unfold digits. rewrite firsts_in, in_flat_map. split.
  - intros [item [Hi Hd]]. exists item. split; [exact Hi |].
    destruct (digitOf x item) as [e |]; [| contradiction].
    destruct Hd as [-> | []]. reflexivity.
  - intros [item [Hi Hd]]. exists item. split; [exact Hi |].
    rewrite Hd. left. reflexivity.
Qed.

Lemma bucket_nonempty yv x y rows d :
  In d (digits x rows) -> bucketValues yv x y d rows <> [].
Proof.
  intros H. apply digits_in in H. destruct H as [item [Hi Hd]].
  unfold bucketValues. intros E. apply map_eq_nil in E.
  assert (Hf : In item (filter (inBucket x d) rows)).
  { apply filter_In. split; [exact Hi |].
    unfold inBucket. rewrite Hd. apply Ascii.eqb_refl. }
  rewrite E in Hf. exact Hf.
Qed.

Lemma averageRow_average x y d vs :
  vs <> [] ->
  averageRow x y (d, vs)
  = JS.put (JS.put [] x (JS.VStr (groupName d))) y
      (JS.VNum (div (JS.sum vs) (ofNat (List.length vs)))).
Proof.
  intros H. unfold averageRow. cbn [fst snd].
  destruct vs as [| v vs]; [congruence | reflexivity].
Qed.

Local Open Scope string_scope.

(** C6, as the claim states it, fails in four ways.  A pie of one row,
    with one x value, is bucketed.  A bar chart of eleven rows is bucketed
    although only the x value of its first row has the shape of an
    identifier.  A bar chart of eleven identifiers that has a group-by
    field is not bucketed.  A pie bucket of the y values "abc" and 5 gets
    the value 5, while the sum of the two is NaN. *)
Lemma bucketing_not_as_claimed :
  (JS.setSize (JS.column ChartExamples.single "id") = 1%nat
   /\ pieSlices (ChartExamples.chartOf Pie None) ChartExamples.single
      = Ok [{| name := JS.VStr "Group 1";
               value := JS.SNum (Fin (inject_Z 5)) |}])
  /\ (JS.setSize (JS.column ChartExamples.mixed "id") = 11%nat
      /\ map (fun v => match v with
                       | JS.VStr s => JS.idPattern s
                       | JS.VPrim _ => false
                       end) (JS.column ChartExamples.mixed "id")
         = [true; false; false; false; false; false; false; false; false;
            false; false]
      /\ exists out,
           idBuckets (ChartExamples.chartOf Bar None) ChartExamples.mixed
           = Ok (Some out)
           /\ JS.column out "id"
              = map JS.VStr
                  ["Group 1"; "Group 2"; "Group 3"; "Group 4"; "Group 5";
                   "Group 6"; "Group 7"; "Group 8"; "Group 9"])
  /\ (JS.setSize (JS.column ChartExamples.inRegions "id") = 11%nat
      /\ forallb (fun v => match v with
                           | JS.VStr s => JS.idPattern s
                           | JS.VPrim _ => false
                           end) (JS.column ChartExamples.inRegions "id")
         = true
      /\ forall Number_toString, exists out,
           processData Number_toString
             (ChartExamples.chartOf Bar (Some "g")) ChartExamples.inRegions
           = Ok out
           /\ JS.column out "id" = JS.column ChartExamples.inRegions "id")
  /\ (pieSlices (ChartExamples.chartOf Pie None) ChartExamples.unreadable
      = Ok [{| name := JS.VStr "Group 1";
               value := JS.SNum (Fin (inject_Z 5)) |}]
      /\ JS.sum (bucketValues yValue "id" "v" "1"%char
                   ChartExamples.unreadable) = NaN).
Proof.
  split; [split; vm_compute; reflexivity |].
  split.
  { split; [vm_compute; reflexivity |].
    split; [vm_compute; reflexivity |].
    eexists. split; vm_compute; reflexivity. }
  split.
  { split; [vm_compute; reflexivity |].
    split; [vm_compute; reflexivity |].
    intros nts. eexists. split; vm_compute; reflexivity. }
  split; vm_compute; reflexivity.
Qed.

(** C6, amended, for rows whose x values are all strings.  A bar, line or
    area chart is bucketed exactly when it has an x and a y field and no
    group-by field, its x field has more than 10 unique values and the x
    value of its first row has the shape of an identifier; a pie exactly
    when it has an x field and the x value of its first row has that
    shape.  The buckets are the first digits found in the x values, each
    once and in the order of the rows; a bucket is named "Group" and its
    digit and holds the rows whose x value has that first digit.  The y
    value of a bucket is the average of its values for bar, line and area;
    for the pie it is the running total, which is the sum when the values
    are finite numbers. *)
Theorem identifier_bucketing (cfg : ChartConfig) (rows : list JS.row) :
  allStrings (keyOf (xAxis cfg)) rows = true ->
  idBuckets cfg rows
  = Ok (if barBucketing cfg rows
        then Some (map (fun d =>
                          averageRow (keyOf (xAxis cfg)) (keyOf (yAxis cfg))
                            (d, bucketValues yValueBar (keyOf (xAxis cfg))
                                  (keyOf (yAxis cfg)) d rows))
                     (digits (keyOf (xAxis cfg)) rows))
        else None)
  /\ pieSlices cfg rows
     = Ok (if pieBucketing cfg rows
           then map (fun d =>
                       {| name := JS.VStr (groupName d);
                          value :=
                            JS.SNum
                              (pieSum
                                 (bucketValues yValue (keyOf (xAxis cfg))
                                    (keyOf (yAxis cfg)) d rows)) |})
                  (digits (keyOf (xAxis cfg)) rows)
           else plainSlices cfg rows)
  /\ NoDup (digits (keyOf (xAxis cfg)) rows)
  /\ (forall d,
        In d (digits (keyOf (xAxis cfg)) rows)
        <-> exists item,
              In item rows /\ digitOf (keyOf (xAxis cfg)) item = Some d)
  /\ (forall d vs,
        vs <> [] ->
        averageRow (keyOf (xAxis cfg)) (keyOf (yAxis cfg)) (d, vs)
        = JS.put (JS.put [] (keyOf (xAxis cfg)) (JS.VStr (groupName d)))
            (keyOf (yAxis cfg))
            (JS.VNum (div (JS.sum vs) (ofNat (List.length vs)))))
  /\ (forall yv d,
        In d (digits (keyOf (xAxis cfg)) rows) ->
        bucketValues yv (keyOf (xAxis cfg)) (keyOf (yAxis cfg)) d rows <> [])
  /\ (forall vs, Forall finiteValue vs -> pieSum vs = JS.sum vs).
Proof.
  intros Hs.
  split; [apply idBuckets_grouped; exact Hs |].
  split; [apply pieSlices_grouped; exact Hs |].
  split; [apply firsts_NoDup |].
  split; [intros d; apply digits_in |].
  split; [intros d vs; apply averageRow_average |].
  split; [intros yv d; apply bucket_nonempty |].
  apply pieSum_sum.
Qed.

(** The theorem at a bar chart of eleven customers. *)
Lemma identifier_bucketing_witness :
  allStrings "id" ChartExamples.customers = true
  /\ barBucketing (ChartExamples.chartOf Bar None) ChartExamples.customers
     = true
  /\ idBuckets (ChartExamples.chartOf Bar None) ChartExamples.customers
     = Ok (if barBucketing (ChartExamples.chartOf Bar None)
                ChartExamples.customers
           then Some (map (fun d =>
                             averageRow "id" "v"
                               (d, bucketValues yValueBar "id" "v" d
                                     ChartExamples.customers))
                        (digits "id" ChartExamples.customers))
           else None).
Proof.
  split; [reflexivity |]. split; [vm_compute; reflexivity |].
  apply (@identifier_bucketing (ChartExamples.chartOf Bar None)
           ChartExamples.customers).
  reflexivity.
Defined.

End BucketFacts.

(* ================================================================== *)
(** * The cache: eviction, size and deletion *)
(* ================================================================== *)

Module CacheLaws.

Import DataCache CacheFacts.


Section Laws.
Variable T : Type.
Implicit Types (m : list (string * entry T)) (c : t T).

(** ** The map *)

Lemma mapHas_In m k : mapHas m k = true <-> In k (map fst m).
Proof.
  unfold mapHas. rewrite existsb_exists. split.
  - intros [[k' e] [Hin E]]. cbn in E. apply String.eqb_eq in E. subst.
    apply in_map_iff. exists (k', e). split; [reflexivity | exact Hin].
  - intros H. apply in_map_iff in H. destruct H as [[k' e] [E Hin]].
    cbn in E. subst. exists (k, e). split; [exact Hin |].
    apply String.eqb_refl.
Qed.

Lemma mapGet_other_mapSet m k k' e :
  k' <> k -> mapGet (mapSet m k e) k' = mapGet m k'.
Proof.
  intros N. induction m as [| [k1 e1] m IH]; cbn.
  - destruct (String.eqb_spec k' k); [contradiction | reflexivity].
  - destruct (String.eqb_spec k k1) as [-> | N1]; cbn.
    + destruct (String.eqb_spec k' k1); [contradiction | reflexivity].
    + destruct (String.eqb k' k1); [reflexivity | exact IH].
Qed.

Lemma mapGet_other_mapDelete m k k' :
  k' <> k -> mapGet (mapDelete m k) k' = mapGet m k'.
Proof.
  intros N. unfold mapDelete. induction m as [| [k1 e1] m IH]; cbn.
  - reflexivity.
  - destruct (String.eqb_spec k k1) as [-> | N1]; cbn.
    + destruct (String.eqb_spec k' k1); [contradiction | exact IH].
    + destruct (String.eqb k' k1); [reflexivity | exact IH].
Qed.

Lemma keys_mapSet m k e :
  map fst (mapSet m k e)
  = if mapHas m k then map fst m else map fst m ++ [k].
Proof.
  unfold mapHas. induction m as [| [k1 e1] m IH]; cbn; [reflexivity |].
  destruct (String.eqb k k1) eqn:E; cbn; [reflexivity |].
  rewrite IH. destruct (existsb _ m); reflexivity.
Qed.

Lemma length_mapSet m k e :
  List.length (mapSet m k e)
  = if mapHas m k then List.length m else S (List.length m).
Proof.
  rewrite <- (length_map fst (mapSet m k e)), keys_mapSet.
  destruct (mapHas m k); rewrite ?length_app, length_map; cbn; lia.
Qed.

Lemma keys_mapDelete m k :
  map fst (mapDelete m k)
  = filter (fun k' => negb (String.eqb k k')) (map fst m).
Proof.
  unfold mapDelete. induction m as [| [k1 e1] m IH]; cbn; [reflexivity |].
  destruct (String.eqb k k1); cbn; rewrite IH; reflexivity.
Qed.

Lemma mapDelete_absent m k : mapHas m k = false -> mapDelete m k = m.
Proof.
  unfold mapHas, mapDelete. induction m as [| [k1 e1] m IH]; cbn;
    [reflexivity |].
  destruct (String.eqb k k1); cbn; [discriminate |].
  intros H. rewrite IH by exact H. reflexivity.
Qed.

Lemma length_mapDelete m k :
  NoDup (map fst m) -> mapHas m k = true ->
  S (List.length (mapDelete m k)) = List.length m.
Proof.
  intros Hn. induction m as [| [k1 e1] m IH]; [discriminate |].
  inversion Hn as [| ? ? Hk1 Hn']; subst.
  unfold mapHas, mapDelete in *. cbn.
  destruct (String.eqb_spec k k1) as [-> | N]; cbn.
  - intros _. f_equal.
    fold (mapDelete m k1). rewrite mapDelete_absent; [reflexivity |].
    apply not_true_is_false. intros Hc. apply mapHas_In in Hc. contradiction.
  - intros H. rewrite IH by assumption. reflexivity.
Qed.

Lemma NoDup_mapSet m k e : NoDup (map fst m) -> NoDup (map fst (mapSet m k e)).
Proof.
  intros Hn. rewrite keys_mapSet. destruct (mapHas m k) eqn:E; [exact Hn |].
  apply NoDup_app; [exact Hn | apply NoDup_cons; [tauto | apply NoDup_nil] |].
  intros x Hx [<- | []].
  apply mapHas_In in Hx. congruence.
Qed.

Lemma NoDup_mapDelete m k : NoDup (map fst m) -> NoDup (map fst (mapDelete m k)).
Proof. intros Hn. rewrite keys_mapDelete. apply NoDup_filter. exact Hn. Qed.

(** ** [findOldestEntry] *)

Let step (acc : option Z * option string) (ke : string * entry T)
  : option Z * option string :=
  let older :=
    match fst acc with
    | None => true
    | Some oldest => (timestamp (snd ke) <? oldest)%Z
    end in
  if older then (Some (timestamp (snd ke)), Some (fst ke)) else acc.

(** The search from an entry already seen. *)
Lemma oldest_from m t k :
  let r := fold_left step m (Some t, Some k) in
  (r = (Some t, Some k)
   /\ Forall (fun ke => (t <= timestamp (snd ke))%Z) m)
  \/ (exists m1 k' e m2,
        m = m1 ++ (k', e) :: m2
        /\ r = (Some (timestamp e), Some k')
        /\ (timestamp e < t)%Z
        /\ Forall (fun ke => (timestamp e < timestamp (snd ke))%Z) m1
        /\ Forall (fun ke => (timestamp e <= timestamp (snd ke))%Z) m2).
Proof.
  revert t k. induction m as [| [k1 e1] m IH]; intros t k r.
  - left. split; [reflexivity | apply Forall_nil].
  - unfold r. cbn [fold_left].
    replace (step (Some t, Some k) (k1, e1))
      with (if (timestamp e1 <? t)%Z
            then (Some (timestamp e1), Some k1) else (Some t, Some k))
      by reflexivity.
    destruct (Z.ltb_spec (timestamp e1) t) as [Hlt | Hge].
    + right. destruct (IH (timestamp e1) k1) as [[E Hall] | Hsplit].
      * exists [], k1, e1, m. cbn [app].
        repeat split; [exact E | exact Hlt | apply Forall_nil | exact Hall].
      * destruct Hsplit as (m1 & k' & e & m2 & Em & E & Hlt' & H1 & H2).
        exists ((k1, e1) :: m1), k', e, m2. subst m. cbn [app].
        repeat split; [exact E | lia | | exact H2].
        apply Forall_cons; [exact Hlt' | exact H1].
    + destruct (IH t k) as [[E Hall] | Hsplit].
      * left. split; [exact E |]. apply Forall_cons; [exact Hge | exact Hall].
      * right. destruct Hsplit as (m1 & k' & e & m2 & Em & E & Hlt' & H1 & H2).
        exists ((k1, e1) :: m1), k', e, m2. subst m. cbn [app].
        repeat split; [exact E | exact Hlt' | | exact H2].
        apply Forall_cons; [cbn [snd]; lia | exact H1].
Qed.

(** [findOldestEntry] is [null] on the empty cache only; otherwise it names
    the first of the entries with the least timestamp. *)
Lemma findOldestEntry_first m :
  match findOldestEntry m with
  | None => m = []
  | Some k =>
      exists m1 e m2,
        m = m1 ++ (k, e) :: m2
        /\ Forall (fun ke => (timestamp e < timestamp (snd ke))%Z) m1
        /\ Forall (fun ke => (timestamp e <= timestamp (snd ke))%Z) m2
  end.
Proof.
  destruct m as [| [k1 e1] m]; [reflexivity |].
  change (findOldestEntry ((k1, e1) :: m))
    with (snd (fold_left step m (Some (timestamp e1), Some k1))).
  destruct (oldest_from m (timestamp e1) k1) as [[E Hall] | Hsplit].
  - rewrite E. cbn [snd]. exists [], e1, m.
    repeat split; [apply Forall_nil | exact Hall].
  - destruct Hsplit as (m1 & k' & e & m2 & Em & E & Hlt' & H1 & H2).
    rewrite E. cbn [snd]. exists ((k1, e1) :: m1), e, m2. subst m.
    repeat split; [| exact H2].
    apply Forall_cons; [exact Hlt' | exact H1].
Qed.

Lemma findOldestEntry_present m o :
  findOldestEntry m = Some o -> mapHas m o = true.
Proof.
  intros H. pose proof (findOldestEntry_first m) as F. rewrite H in F.
  destruct F as (m1 & e & m2 & -> & _). apply mapHas_In.
  rewrite map_app. apply in_or_app. right. left. reflexivity.
Qed.

Lemma findOldestEntry_nonempty m :
  m <> [] -> exists o, findOldestEntry m = Some o.
Proof.
  intros H. pose proof (findOldestEntry_first m) as F.
  destruct (findOldestEntry m) as [o |]; [exists o; reflexivity | contradiction].
Qed.

Lemma has_mapGet m k : mapHas m k = false -> mapGet m k = None.
Proof.
  unfold mapHas. induction m as [| [k1 e1] m IH]; cbn; [reflexivity |].
  destruct (String.eqb k k1); [discriminate | exact IH].
Qed.

Lemma mapHas_other_mapSet m k k' e :
  k' <> k -> mapHas (mapSet m k e) k' = mapHas m k'.
Proof.
  intros N. apply eq_true_iff_eq. rewrite !mapHas_In, keys_mapSet.
  destruct (mapHas m k); [tauto |]. rewrite in_app_iff. cbn.
  split; [intros [H | [H | []]]; [exact H | congruence] | tauto].
Qed.

Lemma mapHas_other_mapDelete m k k' :
  k' <> k -> mapHas (mapDelete m k) k' = mapHas m k'.
Proof.
  intros N. apply eq_true_iff_eq. rewrite !mapHas_In, keys_mapDelete.
  rewrite filter_In, negb_true_iff. split; [tauto |]. intros H.
  split; [exact H |]. destruct (String.eqb_spec k k'); congruence.
Qed.
End Laws.

(** [set] keeps the cache within [maxSize]: on a cache of at most
    [maxSize] entries, [maxSize] being at least 1 and no entry being stored
    under the empty key, the cache has at most [maxSize] entries after
    [set].  (The entries of a [Map] have distinct keys, and keep them.) *)
Theorem set_within_maxSize (T : Type) (c : t T) (k : string) (v : T)
  (now : Z) :
  NoDup (map fst (cache c)) ->
  ~ In ""%string (map fst (cache c)) ->
  (1 <= maxSize c)%Z ->
  (Z.of_nat (List.length (cache c)) <= maxSize c)%Z ->
  (Z.of_nat (List.length (cache (set c k v now))) <= maxSize c)%Z
  /\ NoDup (map fst (cache (set c k v now)))
  /\ (k <> ""%string -> ~ In ""%string (map fst (cache (set c k v now)))).
Proof.
  intros Hn Hne Hmax Hlen. unfold set. cbn [cache].
  set (m := cache c) in *.
  destruct (Z.leb_spec (maxSize c) (Z.of_nat (List.length m))) as [Hfull | Hroom].
  - assert (Hm : m <> []).
    { intros E. rewrite E in Hfull. cbn in Hfull. lia. }
    destruct (@findOldestEntry_nonempty _ m Hm) as [o Ho]. rewrite Ho.
    pose proof (@findOldestEntry_present _ m o Ho) as Hpres.
    destruct (String.eqb_spec o ""%string) as [-> | No].
    + exfalso. apply Hne. apply mapHas_In. exact Hpres.
    + pose proof (@length_mapDelete _ m o Hn Hpres) as Hd.
      split; [| split].
      * rewrite length_mapSet. destruct (mapHas (mapDelete m o) k); lia.
      * apply NoDup_mapSet, NoDup_mapDelete. exact Hn.
      * intros Nk. rewrite keys_mapSet, keys_mapDelete.
        destruct (mapHas (mapDelete m o) k).
        -- rewrite filter_In. tauto.
        -- rewrite in_app_iff, filter_In. cbn. intros [[H _] | [H | []]];
             [tauto | congruence].
  - split; [| split].
    + rewrite length_mapSet. destruct (mapHas m k); lia.
    + apply NoDup_mapSet. exact Hn.
    + intros Nk. rewrite keys_mapSet. destruct (mapHas m k); [exact Hne |].
      rewrite in_app_iff. cbn. intros [H | [H | []]]; [tauto | congruence].
Qed.

(** The theorem on the default cache holding "a". *)
Lemma set_within_maxSize_witness :
  (Z.of_nat (List.length (cache (set CacheExamples.withA "b" 8%Z 2000)))
   <= maxSize CacheExamples.withA)%Z
  /\ NoDup (map fst (cache (set CacheExamples.withA "b" 8%Z 2000)))
  /\ ("b"%string <> ""%string ->
      ~ In ""%string
          (map fst (cache (set CacheExamples.withA "b" 8%Z 2000)))).
Proof.
  apply (@set_within_maxSize Z CacheExamples.withA "b" 8%Z 2000).
  - repeat constructor. cbn. tauto.
  - cbn. intros [H | []]. discriminate.
  - vm_compute. discriminate.
  - vm_compute. discriminate.
Defined.

(** [set] on a full cache evicts the first of the entries with the least
    timestamp, unless it is stored under the empty key, and nothing else:
    the evicted key is absent afterwards (when it is not the key being
    set) and the entry of every other key is as it was. *)
Theorem set_evicts_oldest (T : Type) (c : t T) (k : string) (v : T)
  (now : Z) :
  (maxSize c <= Z.of_nat (List.length (cache c)))%Z ->
  cache c <> [] ->
  exists o m1 e m2,
    findOldestEntry (cache c) = Some o
    /\ cache c = m1 ++ (o, e) :: m2
    /\ Forall (fun ke => (timestamp e < timestamp (snd ke))%Z) m1
    /\ Forall (fun ke => (timestamp e <= timestamp (snd ke))%Z) m2
    /\ (o <> ""%string ->
        (o <> k -> has (set c k v now) o = false)
        /\ forall k', k' <> k -> k' <> o ->
             mapGet (cache (set c k v now)) k' = mapGet (cache c) k').
Proof.
  unfold set, has. cbn [cache]. set (m := cache c).
  intros Hfull Hm.
  destruct (Z.leb_spec (maxSize c) (Z.of_nat (List.length m))); [| lia].
  destruct (@findOldestEntry_nonempty _ m Hm) as [o Ho].
  pose proof (findOldestEntry_first m) as F. rewrite Ho in F.
  destruct F as (m1 & e & m2 & Em & H1 & H2).
  exists o, m1, e, m2. rewrite Ho.
  repeat split; try assumption.
  - intros No. destruct (String.eqb_spec o ""%string); [contradiction |].
    rewrite mapHas_other_mapSet by exact No. apply mapHas_mapDelete.
  - intros k' Nk No'. destruct (String.eqb_spec o ""%string); [contradiction |].
    rewrite mapGet_other_mapSet by exact Nk.
    apply mapGet_other_mapDelete. exact No'.
Qed.

(** The theorem on a full cache of two entries: [set("c", 3)] evicts "a". *)
Lemma set_evicts_oldest_witness :
  exists o m1 e m2,
    findOldestEntry (cache CacheExamples.pair) = Some o
    /\ cache CacheExamples.pair = m1 ++ (o, e) :: m2
    /\ Forall (fun ke => (timestamp e < timestamp (snd ke))%Z) m1
    /\ Forall (fun ke => (timestamp e <= timestamp (snd ke))%Z) m2
    /\ (o <> ""%string ->
        (o <> "c"%string ->
         has (set CacheExamples.pair "c" 3%Z 30) o = false)
        /\ forall k', k' <> "c"%string -> k' <> o ->
             mapGet (cache (set CacheExamples.pair "c" 3%Z 30)) k'
             = mapGet (cache CacheExamples.pair) k').
Proof.
  apply (@set_evicts_oldest Z CacheExamples.pair "c"%string 3%Z 30).
  - vm_compute. discriminate.
  - vm_compute. discriminate.
Defined.

(** Nothing is evicted by [set] on a cache that is not full, nor on a full
    cache whose oldest entry is stored under the empty key: the entry of
    every other key is as it was, and a new key makes the cache one entry
    larger, beyond [maxSize] in the second case. *)
Theorem set_without_eviction (T : Type) (c : t T) (k : string) (v : T)
  (now : Z) :
  (Z.of_nat (List.length (cache c)) < maxSize c)%Z
  \/ findOldestEntry (cache c) = Some ""%string ->
  (forall k', k' <> k ->
     mapGet (cache (set c k v now)) k' = mapGet (cache c) k')
  /\ (has c k = false ->
      List.length (cache (set c k v now)) = S (List.length (cache c))).
Proof.
  intros H.
  assert (E : cache (set c k v now)
              = mapSet (cache c) k {| data := v; timestamp := now |}).
  { unfold set. cbn [cache].
    destruct (Z.leb_spec (maxSize c) (Z.of_nat (List.length (cache c))))
      as [Hfull | _]; [| reflexivity].
    destruct H as [H | H]; [lia |]. rewrite H. reflexivity. }
  rewrite E. split.
  - intros k' Nk. apply mapGet_other_mapSet. exact Nk.
  - unfold has. intros Hk. rewrite length_mapSet, Hk. reflexivity.
Qed.

(** The theorem on a full cache whose oldest entry has the empty key. *)
Lemma set_without_eviction_witness :
  (forall k', k' <> "c"%string ->
     mapGet (cache (set CacheExamples.unnamed "c" 3%Z 30)) k'
     = mapGet (cache CacheExamples.unnamed) k')
  /\ (has CacheExamples.unnamed "c" = false ->
      List.length (cache (set CacheExamples.unnamed "c" 3%Z 30))
      = S (List.length (cache CacheExamples.unnamed))).
Proof.
  apply (@set_without_eviction Z CacheExamples.unnamed "c"%string 3%Z 30).
  right. reflexivity.
Defined.

(** [set] of a key that is present, on a full cache, still evicts the
    oldest entry (of another key): the cache is one entry smaller. *)
Theorem set_present_key_evicts (T : Type) (c : t T) (k o : string) (v : T)
  (now : Z) :
  NoDup (map fst (cache c)) ->
  (maxSize c <= Z.of_nat (List.length (cache c)))%Z ->
  has c k = true ->
  findOldestEntry (cache c) = Some o ->
  o <> ""%string -> o <> k ->
  S (List.length (cache (set c k v now))) = List.length (cache c)
  /\ has (set c k v now) o = false
  /\ fst (get (set c k v now) o now) = None.
Proof.
  unfold has, set, get. cbn [cache]. set (m := cache c).
  intros Hn Hfull Hk Ho No Nk.
  destruct (Z.leb_spec (maxSize c) (Z.of_nat (List.length m))); [| lia].
  rewrite Ho. destruct (String.eqb_spec o ""%string); [contradiction |].
  pose proof (@findOldestEntry_present _ m o Ho) as Hpres.
  assert (Hk' : mapHas (mapDelete m o) k = true).
  { rewrite mapHas_other_mapDelete by congruence. exact Hk. }
  split; [| split].
  - rewrite length_mapSet, Hk'. apply length_mapDelete; assumption.
  - rewrite mapHas_other_mapSet by exact Nk. apply mapHas_mapDelete.
  - rewrite mapGet_other_mapSet by exact Nk.
    rewrite mapGet_mapDelete. reflexivity.
Qed.

(** The theorem on a full cache of two entries: [set("b", 5)] evicts "a". *)
Lemma set_present_key_evicts_witness :
  S (List.length (cache (set CacheExamples.pair "b" 5%Z 30)))
  = List.length (cache CacheExamples.pair)
  /\ has (set CacheExamples.pair "b" 5%Z 30) "a" = false
  /\ fst (get (set CacheExamples.pair "b" 5%Z 30) "a" 30) = None.
Proof.
  apply (@set_present_key_evicts Z CacheExamples.pair "b"%string "a"%string
           5%Z 30).
  - repeat constructor; cbn; intuition discriminate.
  - vm_compute. discriminate.
  - reflexivity.
  - reflexivity.
  - discriminate.
  - discriminate.
Defined.

(** [delete(k)] answers whether [k] was present; afterwards [has(k)] is
    false and [get(k)] is [null], the entries of the other keys are as they
    were, and a cache that did not hold [k] is unchanged. *)
Theorem delete_removes_one_key (T : Type) (c : t T) (k : string) (now : Z) :
  fst (delete c k) = has c k
  /\ has (snd (delete c k)) k = false
  /\ fst (get (snd (delete c k)) k now) = None
  /\ (forall k', k' <> k ->
        mapGet (cache (snd (delete c k))) k' = mapGet (cache c) k'
        /\ has (snd (delete c k)) k' = has c k')
  /\ (has c k = false -> cache (snd (delete c k)) = cache c).
Proof.
  unfold delete, has, get. cbn [fst snd cache].
  split; [reflexivity |]. split; [apply mapHas_mapDelete |].
  split; [rewrite mapGet_mapDelete; reflexivity |].
  split.
  - intros k' Nk. split.
    + apply mapGet_other_mapDelete. exact Nk.
    + apply mapHas_other_mapDelete. exact Nk.
  - apply mapDelete_absent.
Qed.

End CacheLaws.

(* ================================================================== *)
(** * The reducer: the other strategies, and what every strategy keeps *)
(* ================================================================== *)

Module ReducerLaws.

Import Reducer ReducerFacts.

Section Strategies.
Variable T : Type.
Variable randomIndex : nat -> nat -> nat.
Implicit Types (data l : list T).

(** ** [slice] *)

Lemma slice_first l (n : Z) :
  (0 <= n)%Z -> slice l 0 (Some n) = firstn (Z.to_nat n) l.
Proof.
  intros Hn. unfold slice. cbv zeta.
  change (0 <? 0)%Z with false. cbv iota.
  destruct (Z.ltb_spec n 0) as [Hc | _]; [lia |].
  rewrite (Z.min_l 0) by lia. cbn [Z.to_nat skipn].
  rewrite Z.sub_0_r.
  destruct (Z_le_gt_dec n (Z.of_nat (List.length l))) as [Hle | Hgt].
  - rewrite Z.min_l by lia. reflexivity.
  - rewrite Z.min_r by lia. rewrite Nat2Z.id.
    rewrite firstn_all. symmetry. apply firstn_all2. lia.
Qed.

Lemma slice_last l (n : Z) :
  (0 < n)%Z ->
  slice l (- n) None = skipn (List.length l - Z.to_nat n) l.
Proof.
  intros Hn. unfold slice. cbv zeta.
  destruct (Z.ltb_spec (- n) 0) as [_ | Hc]; [| lia].
  set (len := List.length l).
  destruct (Z_le_gt_dec n (Z.of_nat len)) as [Hle | Hgt].
  - rewrite Z.max_l by lia.
    replace (Z.to_nat (Z.of_nat len + - n)) with (len - Z.to_nat n)%nat by lia.
    apply firstn_all2. rewrite length_skipn. fold len. lia.
  - rewrite Z.max_r by lia. cbn [Z.to_nat skipn].
    replace (len - Z.to_nat n)%nat with O by lia. cbn [skipn].
    apply firstn_all2. fold len. lia.
Qed.

(** ** The loop of the [random] case *)

Lemma removeAt_perm l i x :
  nth_error l i = Some x -> Permutation (x :: removeAt i l) l.
Proof.
  revert i. induction l as [| y l IH]; intros i H.
  - destruct i; discriminate.
  - destruct i as [| i]; cbn in *.
    + injection H as ->. apply Permutation_refl.
    + apply perm_trans with (y :: x :: removeAt i l); [apply perm_swap |].
      apply perm_skip. apply IH. exact H.
Qed.

Lemma removeAt_length l i :
  (i < List.length l)%nat -> S (List.length (removeAt i l)) = List.length l.
Proof.
  revert i. induction l as [| y l IH]; intros i H; [cbn in H; lia |].
  destruct i as [| i]; cbn in *; [reflexivity |].
  rewrite IH by lia. reflexivity.
Qed.

Lemma randomLoop_picks fuel i (dataClone sampledData : list T) :
  exists rest,
    Permutation (randomLoop randomIndex fuel i dataClone sampledData ++ rest)
                (sampledData ++ dataClone)
    /\ List.length (randomLoop randomIndex fuel i dataClone sampledData)
       = (List.length sampledData + Nat.min fuel (List.length dataClone))%nat.
Proof.
  revert i dataClone sampledData.
  induction fuel as [| fuel IH]; intros i dataClone sampledData.
  - exists dataClone. split; [apply Permutation_refl | cbn; lia].
  - cbn [randomLoop]. destruct dataClone as [| d dataClone'] eqn:E.
    + exists []. split; [apply Permutation_refl | cbn; lia].
    + rewrite <- E.
      assert (Hlen : (0 < List.length dataClone)%nat) by (rewrite E; cbn; lia).
      set (r := Nat.modulo (randomIndex i (List.length dataClone))
                           (List.length dataClone)).
      assert (Hr : (r < List.length dataClone)%nat).
      { apply Nat.mod_upper_bound. lia. }
      destruct (nth_error dataClone r) as [x |] eqn:En.
      * destruct (IH (S i) (removeAt r dataClone) (sampledData ++ [x]))
          as (rest & Hp & Hl).
        exists rest. split.
        -- apply perm_trans with ((sampledData ++ [x]) ++ removeAt r dataClone);
             [exact Hp |].
           rewrite <- app_assoc. apply Permutation_app_head. cbn [app].
           apply removeAt_perm. exact En.
        -- rewrite Hl, length_app. cbn [List.length].
           pose proof (removeAt_length dataClone Hr). lia.
      * apply nth_error_None in En. lia.
Qed.

Lemma firstn_incl l n : incl (firstn n l) l.
Proof.
  intros x Hx. rewrite <- (firstn_skipn n l). apply in_or_app. left. exact Hx.
Qed.

Lemma skipn_incl l n : incl (skipn n l) l.
Proof.
  intros x Hx. rewrite <- (firstn_skipn n l). apply in_or_app. right. exact Hx.
Qed.

Lemma slice_incl l (a : Z) (b : option Z) :
  incl (slice l a b) l /\ (List.length (slice l a b) <= List.length l)%nat.
Proof.
  unfold slice. cbv zeta. split.
  - intros x Hx. apply firstn_incl in Hx. apply skipn_incl in Hx. exact Hx.
  - rewrite length_firstn, length_skipn. lia.
Qed.

Lemma evenlyPick_incl data (n : Z) i :
  incl (evenlyPick data n i) data
  /\ (List.length (evenlyPick data n i) <= 1)%nat.
Proof.
  unfold evenlyPick.
  destruct (Double.ltb _ _); [| split; [intros x [] | cbn; lia]].
  destruct (toIndex _) as [k |]; [| split; [intros x [] | cbn; lia]].
  destruct (nth_error data k) as [x |] eqn:E;
    [| split; [intros y [] | cbn; lia]].
  split; [| cbn; lia]. intros y [<- | []]. eapply nth_error_In. exact E.
Qed.

Lemma flat_map_short (A B : Type) (f : A -> list B) (l : list A) :
  (forall a, List.length (f a) <= 1)%nat ->
  (List.length (flat_map f l) <= List.length l)%nat.
Proof.
  intros H. induction l as [| a l IH]; [cbn; lia |].
  cbn [flat_map]. rewrite length_app. specialize (H a). cbn [List.length]. lia.
Qed.

Lemma sample_incl data (n : Z) s :
  (n < Z.of_nat (List.length data))%Z ->
  incl (sample randomIndex data n s) data
  /\ (List.length (sample randomIndex data n s) <= List.length data)%nat.
Proof.
  intros Hn. destruct s; cbn [sample].
  - apply slice_incl.
  - apply slice_incl.
  - destruct (randomLoop_picks (Z.to_nat n) 0 data []) as (rest & Hp & Hl).
    cbn [app] in Hp. split.
    + intros x Hx. apply (Permutation_in x Hp). apply in_or_app. left. exact Hx.
    + apply Permutation_length in Hp. rewrite length_app in Hp. lia.
  - split.
    + intros x Hx. apply in_flat_map in Hx. destruct Hx as (i & _ & Hx).
      apply (proj1 (evenlyPick_incl data n i)). exact Hx.
    + pose proof (@flat_map_short _ _ (evenlyPick data n)
                    (seq 0 (Z.to_nat n))
                    (fun i => proj2 (evenlyPick_incl data n i))) as H.
      rewrite length_seq in H. lia.
Qed.
End Strategies.

(** For [0 < maxRows < rows.length], "first" keeps the first [maxRows]
    rows and "last" the last [maxRows] rows, in their order; the field
    filter, when there is one, is applied to them. *)
Theorem first_and_last_sampling (randomIndex : nat -> nat -> nat)
  (rows : list JS.row) (N : Z) (fs : option (list string)) :
  (0 < N)%Z -> (N < Z.of_nat (List.length rows))%Z ->
  let projected (kept : list JS.row) :=
    match fs with
    | None => kept
    | Some f => map (filterFields f) kept
    end in
  reduce randomIndex rows
    {| maxRows := Some N; samplingStrategy := Some First; fields := fs |}
  = projected (firstn (Z.to_nat N) rows)
  /\ reduce randomIndex rows
       {| maxRows := Some N; samplingStrategy := Some Last; fields := fs |}
     = projected (skipn (List.length rows - Z.to_nat N) rows)
  /\ List.length (firstn (Z.to_nat N) rows) = Z.to_nat N
  /\ List.length (skipn (List.length rows - Z.to_nat N) rows) = Z.to_nat N.
Proof.
  intros HN HL projected. unfold reduce, optimizeDataset.
  destruct rows as [| r rows']; [cbn in HL; lia |].
  cbn [maxRows samplingStrategy fields].
  destruct (Z.leb_spec (Z.of_nat (List.length (r :: rows'))) N) as [Hc | _];
    [lia |].
  cbn [sample]. rewrite slice_first by lia. rewrite slice_last by exact HN.
  split; [reflexivity |]. split; [reflexivity |].
  rewrite length_firstn, length_skipn. lia.
Qed.

(** The theorem on five numbered rows and [maxRows = 2]. *)
Lemma first_and_last_sampling_witness :
  reduce Examples.firstIndex (Examples.numberedRows 5)
    (Examples.sampleTo 2 First)
  = firstn 2 (Examples.numberedRows 5)
  /\ reduce Examples.firstIndex (Examples.numberedRows 5)
       (Examples.sampleTo 2 Last)
     = skipn 3 (Examples.numberedRows 5).
Proof.
  destruct (@first_and_last_sampling Examples.firstIndex
              (Examples.numberedRows 5) 2 None) as (H1 & H2 & _).
  - lia.
  - cbn. lia.
  - split; [exact H1 | exact H2].
Defined.

(** For [0 < maxRows < rows.length] and whatever [Math.random] returns,
    "random" keeps exactly [maxRows] rows, each row of the input at most as
    often as the input has it: the kept rows together with some remaining
    ones are a rearrangement of the input. *)
Theorem random_sampling (randomIndex : nat -> nat -> nat)
  (rows : list JS.row) (N : Z) :
  (0 < N)%Z -> (N < Z.of_nat (List.length rows))%Z ->
  let out := reduce randomIndex rows
               {| maxRows := Some N; samplingStrategy := Some Random;
                  fields := None |} in
  List.length out = Z.to_nat N
  /\ exists rest, Permutation (out ++ rest) rows.
Proof.
  intros HN HL out. unfold out, reduce.
  rewrite (@optimizeDataset_sampled _ filterFields randomIndex rows N Random HL).
  cbn [sample].
  destruct (randomLoop_picks randomIndex (Z.to_nat N) 0 rows [])
    as (rest & Hp & Hl).
  split; [rewrite Hl; cbn [List.length]; lia |].
  exists rest. exact Hp.
Qed.

(** The theorem on five numbered rows and [maxRows = 2]. *)
Lemma random_sampling_witness :
  List.length (reduce Examples.firstIndex (Examples.numberedRows 5)
                 (Examples.sampleTo 2 Random)) = 2%nat
  /\ exists rest,
       Permutation
         (reduce Examples.firstIndex (Examples.numberedRows 5)
            (Examples.sampleTo 2 Random) ++ rest)
         (Examples.numberedRows 5).
Proof.
  apply (@random_sampling Examples.firstIndex (Examples.numberedRows 5) 2).
  - lia.
  - cbn. lia.
Defined.

(** Whatever the options, the reducer returns rows of the input, no more
    of them than the input has, each put through the field filter when
    there is one. *)
Theorem reduce_selects_rows (randomIndex : nat -> nat -> nat)
  (rows : list JS.row) (o : options) :
  exists kept : list JS.row,
    reduce randomIndex rows o
    = match fields o with
      | None => kept
      | Some fs => map (filterFields fs) kept
      end
    /\ incl kept rows
    /\ (List.length kept <= List.length rows)%nat
    /\ List.length (reduce randomIndex rows o) = List.length kept.
Proof.
  unfold reduce, optimizeDataset. destruct rows as [| r rows'].
  - exists []. split; [destruct (fields o); reflexivity |].
    split; [apply incl_refl |]. split; reflexivity.
  - set (data := r :: rows').
    set (n := match maxRows o with Some n => n | None => 10000%Z end).
    set (s := match samplingStrategy o with Some s => s | None => Evenly end).
    destruct (Z.leb_spec (Z.of_nat (List.length data)) n) as [Hsmall | Hbig].
    + exists data. split; [reflexivity |].
      split; [apply incl_refl |]. split; [lia |].
      destruct (fields o); rewrite ?length_map; reflexivity.
    + exists (sample randomIndex data n s).
      destruct (sample_incl randomIndex data s Hbig) as [Hi Hl].
      split; [reflexivity |]. split; [exact Hi |]. split; [exact Hl |].
      destruct (fields o); rewrite ?length_map; reflexivity.
Qed.

End ReducerLaws.

(* ================================================================== *)
(** * The column statistics *)
(* ================================================================== *)

Module StatsFacts.

Import Stats.

(** ** The order of numbers *)

Lemma leb_refl a : Double.isNaN a = false -> Double.leb a a = true.
Proof.
  destruct a as [| | | x]; try reflexivity; try discriminate.
  intros _. apply Qle_bool_iff. apply Qle_refl.
Qed.

Lemma leb_trans a b c :
  Double.leb a b = true -> Double.leb b c = true -> Double.leb a c = true.
Proof.
  destruct a as [| | | x], b as [| | | y], c as [| | | z];
    try reflexivity; try discriminate.
  cbn. rewrite !Qle_bool_iff. apply Qle_trans.
Qed.

Lemma ltb_leb a b : Double.ltb a b = true -> Double.leb a b = true.
Proof.
  destruct a as [| | | x], b as [| | | y];
    try reflexivity; try discriminate.
  intros H. apply DoubleFacts.ltb_Fin in H. apply Qle_bool_iff.
  apply Qlt_le_weak. exact H.
Qed.

Lemma not_ltb_leb a b :
  Double.isNaN a = false -> Double.isNaN b = false ->
  Double.ltb a b = false -> Double.leb b a = true.
Proof.
  destruct a as [| | | x], b as [| | | y];
    try reflexivity; try discriminate.
  intros _ _ H. apply DoubleFacts.ltb_Fin_false in H. apply Qle_bool_iff.
  exact H.
Qed.

(** ** [Math.min] and [Math.max] *)

Lemma minimum_from l m0 :
  Double.isNaN m0 = false ->
  Forall (fun v => JS.isNaN v = false) l ->
  let m := fold_left
             (fun m v => if Double.ltb (JS.toNumber v) m
                         then JS.toNumber v else m) l m0 in
  Double.isNaN m = false
  /\ Double.leb m m0 = true
  /\ (forall v, In v l -> Double.leb m (JS.toNumber v) = true)
  /\ (m = m0 \/ exists v, In v l /\ m = JS.toNumber v).
Proof.
  intros H0 Hl. revert m0 H0.
  induction Hl as [| v l Hv Hl IH]; intros m0 H0 m.
  - repeat split; [exact H0 | apply leb_refl; exact H0 | | left; reflexivity].
    intros v [].
  - unfold m. cbn [fold_left].
    destruct (Double.ltb (JS.toNumber v) m0) eqn:E.
    + destruct (IH (JS.toNumber v) Hv) as (Hn & Hle & Hall & Hex).
      repeat split.
      * exact Hn.
      * apply leb_trans with (JS.toNumber v); [exact Hle |].
        apply ltb_leb. exact E.
      * intros w [<- | Hw]; [exact Hle | apply Hall; exact Hw].
      * right. destruct Hex as [-> | (w & Hw & ->)].
        -- exists v. split; [left |]; reflexivity.
        -- exists w. split; [right; exact Hw | reflexivity].
    + destruct (IH m0 H0) as (Hn & Hle & Hall & Hex).
      repeat split.
      * exact Hn.
      * exact Hle.
      * intros w [<- | Hw]; [| apply Hall; exact Hw].
        apply leb_trans with m0; [exact Hle |].
        apply not_ltb_leb; assumption.
      * destruct Hex as [-> | (w & Hw & ->)]; [left; reflexivity |].
        right. exists w. split; [right; exact Hw | reflexivity].
Qed.

Lemma maximum_from l m0 :
  Double.isNaN m0 = false ->
  Forall (fun v => JS.isNaN v = false) l ->
  let m := fold_left
             (fun m v => if Double.ltb m (JS.toNumber v)
                         then JS.toNumber v else m) l m0 in
  Double.isNaN m = false
  /\ Double.leb m0 m = true
  /\ (forall v, In v l -> Double.leb (JS.toNumber v) m = true)
  /\ (m = m0 \/ exists v, In v l /\ m = JS.toNumber v).
Proof.
  intros H0 Hl. revert m0 H0.
  induction Hl as [| v l Hv Hl IH]; intros m0 H0 m.
  - repeat split; [exact H0 | apply leb_refl; exact H0 | | left; reflexivity].
    intros v [].
  - unfold m. cbn [fold_left].
    destruct (Double.ltb m0 (JS.toNumber v)) eqn:E.
    + destruct (IH (JS.toNumber v) Hv) as (Hn & Hle & Hall & Hex).
      repeat split.
      * exact Hn.
      * apply leb_trans with (JS.toNumber v); [| exact Hle].
        apply ltb_leb. exact E.
      * intros w [<- | Hw]; [exact Hle | apply Hall; exact Hw].
      * right. destruct Hex as [-> | (w & Hw & ->)].
        -- exists v. split; [left |]; reflexivity.
        -- exists w. split; [right; exact Hw | reflexivity].
    + destruct (IH m0 H0) as (Hn & Hle & Hall & Hex).
      repeat split.
      * exact Hn.
      * exact Hle.
      * intros w [<- | Hw]; [| apply Hall; exact Hw].
        apply leb_trans with m0; [| exact Hle].
        apply not_ltb_leb; assumption.
      * destruct Hex as [-> | (w & Hw & ->)]; [left; reflexivity |].
        right. exists w. split; [right; exact Hw | reflexivity].
Qed.

Lemma numericValues_not_NaN values :
  Forall (fun v => JS.isNaN v = false) (numericValues values).
Proof.
  unfold numericValues. apply Forall_forall. intros v Hv.
  apply filter_In in Hv. destruct Hv as [_ H].
  apply negb_true_iff in H. exact H.
Qed.

(** For a column that gets numeric statistics, [min] and [max] are values
    of the column (as numbers), [min] is no larger and [max] no smaller
    than any of its numeric values. *)
Theorem column_min_max (rows : list JS.row) (header : string)
  (lo hi : Double.num) :
  min (columnStatsOf rows header) = Some lo ->
  max (columnStatsOf rows header) = Some hi ->
  let vs := numericValues (JS.column rows header) in
  (forall v, In v vs ->
     Double.leb lo (JS.toNumber v) = true
     /\ Double.leb (JS.toNumber v) hi = true)
  /\ (exists v, In v vs /\ lo = JS.toNumber v)
  /\ (exists v, In v vs /\ hi = JS.toNumber v)
  /\ Double.leb lo hi = true.
Proof.
  intros Hlo Hhi vs. unfold columnStatsOf in Hlo, Hhi. cbn [min max] in Hlo, Hhi.
  fold vs in Hlo, Hhi.
  destruct (JS.moreThanHalf (List.length vs) (List.length rows)
            && (0 <? List.length vs)%nat) eqn:E; [| discriminate].
  injection Hlo as <-. injection Hhi as <-.
  apply andb_prop in E. destruct E as [_ E]. apply Nat.ltb_lt in E.
  pose proof (numericValues_not_NaN (JS.column rows header)) as Hn.
  fold vs in Hn.
  destruct (@minimum_from vs Double.PInf eq_refl Hn) as (_ & _ & Hmin & Hmex).
  destruct (@maximum_from vs Double.NInf eq_refl Hn) as (_ & _ & Hmax & Hxex).
  fold (minimum vs) in Hmin, Hmex. fold (maximum vs) in Hmax, Hxex.
  assert (Hne : exists v0, In v0 vs).
  { destruct vs as [| v0 vs']; [cbn in E; lia |]. exists v0. left. reflexivity. }
  destruct Hne as [v0 Hv0].
  assert (Hmin' : exists v, In v vs /\ minimum vs = JS.toNumber v).
  { destruct Hmex as [Eq | H]; [| exact H]. exists v0. split; [exact Hv0 |].
    pose proof (Hmin v0 Hv0) as H. rewrite Eq in H |- *.
    destruct (JS.toNumber v0); try discriminate. reflexivity. }
  assert (Hmax' : exists v, In v vs /\ maximum vs = JS.toNumber v).
  { destruct Hxex as [Eq | H]; [| exact H]. exists v0. split; [exact Hv0 |].
    pose proof (Hmax v0 Hv0) as H. rewrite Eq in H |- *.
    destruct (JS.toNumber v0); try discriminate. reflexivity. }
  split; [| split; [exact Hmin' | split; [exact Hmax' |]]].
  - intros v Hv. split; [apply Hmin | apply Hmax]; exact Hv.
  - apply leb_trans with (JS.toNumber v0); [apply Hmin | apply Hmax]; exact Hv0.
Qed.

(** The theorem on the amounts 10 and 20. *)
Lemma column_min_max_witness :
  (forall v,
     In v (numericValues (JS.column DashboardExamples.coded "amount")) ->
     Double.leb (Double.Fin 10) (JS.toNumber v) = true
     /\ Double.leb (JS.toNumber v) (Double.Fin 20) = true)
  /\ (exists v,
        In v (numericValues (JS.column DashboardExamples.coded "amount"))
        /\ Double.Fin 10 = JS.toNumber v)
  /\ (exists v,
        In v (numericValues (JS.column DashboardExamples.coded "amount"))
        /\ Double.Fin 20 = JS.toNumber v)
  /\ Double.leb (Double.Fin 10) (Double.Fin 20) = true.
Proof.
  apply (@column_min_max DashboardExamples.coded "amount"
           (Double.Fin 10) (Double.Fin 20)).
  - reflexivity.
  - reflexivity.
Defined.

(** ** The result object *)

Lemma statsOf_putStats st h c h' :
  statsOf (putStats st h c) h'
  = if String.eqb h' h then Some c else statsOf st h'.
Proof.
  induction st as [| [h1 c1] st IH]; cbn.
  - reflexivity.
  - destruct (String.eqb_spec h h1) as [-> | N]; cbn.
    + destruct (String.eqb h' h1); reflexivity.
    + destruct (String.eqb_spec h' h1) as [-> | N'].
      * destruct (String.eqb_spec h1 h); [congruence | reflexivity].
      * exact IH.
Qed.

Lemma statsOf_fold rows hs st h :
  statsOf (fold_left (fun stats h => putStats stats h (columnStatsOf rows h))
             hs st) h
  = if existsb (String.eqb h) hs then Some (columnStatsOf rows h)
    else statsOf st h.
Proof.
  revert st. induction hs as [| h1 hs IH]; intros st; [reflexivity |].
  cbn [fold_left existsb]. rewrite IH, statsOf_putStats.
  destruct (existsb (String.eqb h) hs); [rewrite orb_true_r; reflexivity |].
  rewrite orb_false_r.
  destruct (String.eqb_spec h h1) as [-> | N]; reflexivity.
Qed.

(** [getDatasetStats] gives every header, listed once or more, the
    statistics of its own column and gives no other name an entry; with no
    rows, every column is categorical, with no unique value and no [min],
    [max] or [mean]. *)
Theorem stats_of_each_header (headers : list string) (rows : list JS.row)
  (h : string) :
  statsOf (getDatasetStats headers rows) h
  = (if existsb (String.eqb h) headers then Some (columnStatsOf rows h)
     else None)
  /\ columnStatsOf [] h
     = {| type := Categorical; uniqueValues := 0; hasNonZeroValues := false;
          min := None; max := None; mean := None |}.
Proof.
  split; [apply statsOf_fold | reflexivity].
Qed.

(** A column of date strings is typed as a date although each cell also
    counts as a number (the year [parseFloat] reads): the type is "date",
    and [min], [max] and [mean] are computed all the same. *)
Theorem date_column_has_numeric_stats (rows : list JS.row) (header : string) :
  rows <> [] ->
  Forall (fun row => exists s, JS.get row header = JS.VStr s
                               /\ JS.datePattern s = true) rows ->
  type (columnStatsOf rows header) = Date
  /\ List.length (numericValues (JS.column rows header)) = List.length rows
  /\ min (columnStatsOf rows header)
     = Some (minimum (numericValues (JS.column rows header)))
  /\ max (columnStatsOf rows header)
     = Some (maximum (numericValues (JS.column rows header)))
  /\ mean (columnStatsOf rows header)
     = Some (Double.div (JS.sum (numericValues (JS.column rows header)))
               (Double.ofNat (List.length rows))).
Proof.
  intros Hne Hd.
  assert (Hnum : List.length (numericValues (JS.column rows header))
                 = List.length rows).
  { unfold numericValues, JS.column. clear Hne.
    induction Hd as [| row rows (s & Hs & Hp) _ IH]; [reflexivity |].
    cbn [map filter]. rewrite Hs. cbn [map filter JS.parseIfString].
    unfold JS.isNaN at 1. cbn [JS.toNumber].
    rewrite ParseFacts.parseFloat_NaN,
      (ParseFacts.datePattern_startsNumeric s Hp).
    cbn [negb filter List.length]. f_equal. exact IH. }
  assert (Hdate : List.length (dateValues (JS.column rows header))
                  = List.length rows).
  { unfold dateValues, JS.column. clear Hne Hnum.
    induction Hd as [| row rows (s & Hs & Hp) _ IH]; [reflexivity |].
    cbn [map filter]. rewrite Hs, Hp. cbn [List.length]. f_equal. exact IH. }
  assert (Hlen : (0 < List.length rows)%nat).
  { destruct rows; [congruence | cbn; lia]. }
  unfold columnStatsOf. cbn [type min max mean].
  rewrite Hnum, Hdate. unfold JS.moreThanHalf.
  replace (List.length rows <? 2 * List.length rows)%nat with true
    by (symmetry; apply Nat.ltb_lt; lia).
  replace (0 <? List.length rows)%nat with true
    by (symmetry; apply Nat.ltb_lt; lia).
  cbn [andb]. repeat split; reflexivity.
Qed.

(** The theorem at a column of two dates. *)
Lemma date_column_has_numeric_stats_witness :
  type (columnStatsOf [[("day"%string, JS.VStr "2024-01-15"%string)];
                       [("day"%string, JS.VStr "2025-03-01"%string)]] "day"%string) = Date
  /\ min (columnStatsOf [[("day"%string, JS.VStr "2024-01-15"%string)];
                         [("day"%string, JS.VStr "2025-03-01"%string)]] "day"%string)
     = Some (minimum
               (numericValues
                  (JS.column [[("day"%string, JS.VStr "2024-01-15"%string)];
                              [("day"%string, JS.VStr "2025-03-01"%string)]] "day"%string))).
Proof.
  destruct (@date_column_has_numeric_stats
              [[("day"%string, JS.VStr "2024-01-15"%string)];
               [("day"%string, JS.VStr "2025-03-01"%string)]] "day"%string)
    as (H1 & _ & H3 & _).
  - discriminate.
  - repeat constructor; eexists; split; reflexivity.
  - split; [exact H1 | exact H3].
Defined.

End StatsFacts.

(* ================================================================== *)
(** * The fallback suggestions *)
(* ================================================================== *)

Module SuggestFacts.

Import Stats Suggest.

(** ** The entries of the statistics *)

Lemma keys_putStats st h c :
  map fst (putStats st h c)
  = if existsb (String.eqb h) (map fst st) then map fst st
    else map fst st ++ [h].
Proof.
  induction st as [| [h1 c1] st IH]; cbn; [reflexivity |].
  destruct (String.eqb h h1); cbn; [reflexivity |].
  rewrite IH. destruct (existsb (String.eqb h) (map fst st)); reflexivity.
Qed.

Lemma existsb_eqb_In h l : existsb (String.eqb h) l = true <-> In h l.
Proof.
  rewrite existsb_exists. split.
  - intros (x & Hx & E). apply String.eqb_eq in E. subst. exact Hx.
  - intros H. exists h. split; [exact H | apply String.eqb_refl].
Qed.

Lemma NoDup_putStats st h c :
  NoDup (map fst st) -> NoDup (map fst (putStats st h c)).
Proof.
  intros Hn. rewrite keys_putStats.
  destruct (existsb (String.eqb h) (map fst st)) eqn:E; [exact Hn |].
  apply NoDup_app; [exact Hn | apply NoDup_cons; [tauto | apply NoDup_nil] |].
  intros x Hx [<- | []]. apply existsb_eqb_In in Hx. congruence.
Qed.

Lemma NoDup_getDatasetStats headers rows :
  NoDup (map fst (getDatasetStats headers rows)).
Proof.
  unfold getDatasetStats.
  assert (G : forall st, NoDup (map fst st) ->
              NoDup (map fst (fold_left
                (fun stats h => putStats stats h (columnStatsOf rows h))
                headers st))).
  { induction headers as [| h hs IH]; intros st Hst; [exact Hst |].
    cbn [fold_left]. apply IH. apply NoDup_putStats. exact Hst. }
  apply G. apply NoDup_nil.
Qed.

Lemma statsOf_In st h c :
  NoDup (map fst st) -> (In (h, c) st <-> statsOf st h = Some c).
Proof.
  induction st as [| [h1 c1] st IH]; intros Hn; cbn.
  - split; [tauto | discriminate].
  - inversion Hn as [| ? ? Hh1 Hn']; subst.
    destruct (String.eqb_spec h h1) as [-> | N].
    + split.
      * intros [E | Hin]; [congruence |]. exfalso. apply Hh1.
        apply in_map_iff. exists (h1, c). split; [reflexivity | exact Hin].
      * intros [= ->]. left. reflexivity.
    + rewrite <- (IH Hn'). split; [intros [E | H]; [congruence | exact H] |].
      intros H. right. exact H.
Qed.

Lemma In_getDatasetStats headers rows h c :
  In (h, c) (getDatasetStats headers rows)
  <-> In h headers /\ c = columnStatsOf rows h.
Proof.
  rewrite (@statsOf_In _ h c (NoDup_getDatasetStats headers rows)).
  unfold getDatasetStats. rewrite StatsFacts.statsOf_fold. cbn [statsOf].
  destruct (existsb (String.eqb h) headers) eqn:E.
  - apply existsb_eqb_In in E. split; [intros [= <-] | intros [_ ->]]; tauto.
  - split; [discriminate |]. intros [H _]. apply existsb_eqb_In in H.
    congruence.
Qed.

(** ** [Object.entries] *)

Lemma insertByIndex_perm (A : Type) (e : string * A) l :
  Permutation (insertByIndex e l) (e :: l).
Proof.
  induction l as [| f l IH]; [apply Permutation_refl |]. cbn [insertByIndex].
  destruct (indexValue (fst e) <? indexValue (fst f))%Z;
    [apply Permutation_refl |].
  apply perm_trans with (f :: e :: l); [apply perm_skip; exact IH |].
  apply perm_swap.
Qed.

Lemma partition_perm (A : Type) (p : A -> bool) l :
  Permutation (filter p l ++ filter (fun x => negb (p x)) l) l.
Proof.
  induction l as [| a l IH]; [apply perm_nil |]. cbn [filter].
  destruct (p a); cbn [negb app].
  - apply perm_skip. exact IH.
  - apply Permutation_sym. apply Permutation_cons_app.
    apply Permutation_sym. exact IH.
Qed.

Lemma objectEntries_perm (A : Type) (obj : list (string * A)) :
  Permutation (objectEntries obj)
    (filter (fun e => negb (String.eqb (fst e) "__proto__")) obj).
Proof.
  unfold objectEntries. cbv zeta.
  set (own := filter _ obj).
  apply perm_trans
    with (filter (fun e => isArrayIndex (fst e)) own
          ++ filter (fun e => negb (isArrayIndex (fst e))) own);
    [| apply (partition_perm (fun e : string * A => isArrayIndex (fst e)))].
  apply Permutation_app_tail.
  induction (filter (fun e => isArrayIndex (fst e)) own) as [| e l IH];
    [apply perm_nil |].
  cbn [fold_right].
  apply perm_trans with (e :: fold_right (@insertByIndex A) [] l);
    [apply insertByIndex_perm | apply perm_skip; exact IH].
Qed.

Lemma In_objectEntries (A : Type) (obj : list (string * A)) e :
  In e (objectEntries obj)
  <-> In e obj /\ fst e <> "__proto__"%string.
Proof.
  split.
  - intros H. apply (Permutation_in e (objectEntries_perm obj)) in H.
    apply filter_In in H. destruct H as [H N]. split; [exact H |].
    apply negb_true_iff in N. intros E. rewrite E in N. discriminate.
  - intros [H N].
    apply (Permutation_in e (Permutation_sym (objectEntries_perm obj))).
    apply filter_In. split; [exact H |]. apply negb_true_iff.
    destruct (String.eqb_spec (fst e) "__proto__"); [contradiction | reflexivity].
Qed.

Lemma NoDup_filter_keys (A : Type) (p : string * A -> bool) l :
  NoDup (map fst l) -> NoDup (map fst (filter p l)).
Proof.
  induction l as [| a l IH]; intros Hn; [apply NoDup_nil |].
  inversion Hn as [| ? ? Ha Hn']; subst. cbn [filter].
  destruct (p a); [| apply IH; exact Hn'].
  cbn [map]. apply NoDup_cons; [| apply IH; exact Hn'].
  intros Hc. apply Ha. apply in_map_iff in Hc. destruct Hc as (x & E & Hx).
  apply filter_In in Hx. apply in_map_iff. exists x. tauto.
Qed.

Lemma NoDup_objectEntries (A : Type) (obj : list (string * A)) :
  NoDup (map fst obj) -> NoDup (map fst (objectEntries obj)).
Proof.
  intros Hn.
  apply (Permutation_NoDup
           (Permutation_sym (Permutation_map fst (objectEntries_perm obj)))).
  apply NoDup_filter_keys. exact Hn.
Qed.

(** ** The three pools *)

Section Pools.
Variable headers : list string.
Variable rows : list JS.row.
Variable p : columnStats -> bool.

Lemma pool_In h :
  In h (map fst (filter (fun e => p (snd e))
                   (objectEntries (getDatasetStats headers rows))))
  <-> In h headers /\ h <> "__proto__"%string
      /\ p (columnStatsOf rows h) = true.
Proof.
  rewrite in_map_iff. split.
  - intros ([h' c] & E & H). cbn in E. subst h'.
    apply filter_In in H. destruct H as [H Hp]. cbn in Hp.
    apply In_objectEntries in H. destruct H as [H N]. cbn in N.
    apply In_getDatasetStats in H. destruct H as [H ->]. tauto.
  - intros (H & N & Hp). exists (h, columnStatsOf rows h).
    split; [reflexivity |]. apply filter_In. split; [| exact Hp].
    apply In_objectEntries. split; [| exact N].
    apply In_getDatasetStats. tauto.
Qed.

Lemma pool_NoDup :
  NoDup (map fst (filter (fun e => p (snd e))
                    (objectEntries (getDatasetStats headers rows)))).
Proof.
  apply NoDup_filter_keys, NoDup_objectEntries, NoDup_getDatasetStats.
Qed.
End Pools.

Lemma isType_eq t c : isType t c = true <-> type c = t.
Proof. unfold isType. destruct t, (type c); split; congruence. Qed.

Lemma numericFields_In headers rows h :
  In h (numericFields (getDatasetStats headers rows))
  <-> In h headers /\ h <> "__proto__"%string
      /\ type (columnStatsOf rows h) = Numeric
      /\ hasNonZeroValues (columnStatsOf rows h) = true.
Proof.
  unfold numericFields.
  rewrite (pool_In headers rows
             (fun c => isType Numeric c && hasNonZeroValues c) h).
  rewrite andb_true_iff, isType_eq. tauto.
Qed.

Lemma dateFields_In headers rows h :
  In h (dateFields (getDatasetStats headers rows))
  <-> In h headers /\ h <> "__proto__"%string
      /\ type (columnStatsOf rows h) = Date.
Proof.
  unfold dateFields.
  rewrite (pool_In headers rows (fun c => isType Date c) h).
  rewrite isType_eq. tauto.
Qed.

Lemma categoryFields_In headers rows h :
  In h (categoryFields (getDatasetStats headers rows))
  <-> In h headers /\ h <> "__proto__"%string
      /\ type (columnStatsOf rows h) = Categorical
      /\ (2 <= uniqueValues (columnStatsOf rows h) <= 15)%nat.
Proof.
  unfold categoryFields.
  rewrite (pool_In headers rows
             (fun c => isType Categorical c
                       && (2 <=? uniqueValues c)%nat
                       && (uniqueValues c <=? 15)%nat) h).
  rewrite !andb_true_iff, isType_eq, !Nat.leb_le. tauto.
Qed.

(** [getFallbackSuggestions] returns no suggestion exactly when no column
    (other than one named ["__proto__"]) is numeric with a value of
    magnitude above 0.001; it never returns more than 6. *)
Theorem fallback_suggestion_count (headers : list string)
  (rows : list JS.row) :
  (getFallbackSuggestions headers rows = []
   <-> forall h, In h headers -> h <> "__proto__"%string ->
         type (columnStatsOf rows h) = Numeric ->
         hasNonZeroValues (columnStatsOf rows h) = false)
  /\ (List.length (getFallbackSuggestions headers rows) <= 6)%nat.
Proof.
  assert (Hnf : numericFields (getDatasetStats headers rows) = []
                <-> forall h, In h headers -> h <> "__proto__"%string ->
                      type (columnStatsOf rows h) = Numeric ->
                      hasNonZeroValues (columnStatsOf rows h) = false).
  { split.
    - intros E h Hh N Ht.
      destruct (hasNonZeroValues (columnStatsOf rows h)) eqn:Hz;
        [| reflexivity].
      assert (Hin : In h (numericFields (getDatasetStats headers rows)))
        by (apply numericFields_In; tauto).
      rewrite E in Hin. contradiction.
    - intros H.
      destruct (numericFields (getDatasetStats headers rows)) as [| n l] eqn:E;
        [reflexivity |].
      assert (Hin : In n (numericFields (getDatasetStats headers rows)))
        by (rewrite E; left; reflexivity).
      apply numericFields_In in Hin. destruct Hin as (Hh & N & Ht & Hz).
      rewrite (H n Hh N Ht) in Hz. discriminate. }
  rewrite <- Hnf. clear Hnf.
  unfold getFallbackSuggestions. cbv zeta.
  destruct (dateFields (getDatasetStats headers rows)) as [| d df];
    destruct (numericFields (getDatasetStats headers rows))
      as [| n0 [| n1 nf]];
    destruct (categoryFields (getDatasetStats headers rows)) as [| c cf];
    cbn [app List.length];
    (split; [split; intros H; (reflexivity || discriminate H) | lia]).
Qed.

Lemma first_header (headers : list string) n :
  In n headers ->
  exists h0, nth_error headers 0 = Some h0 /\ In h0 headers.
Proof.
  destruct headers as [| h0 l]; [contradiction |].
  intros _. exists h0. split; [reflexivity | left; reflexivity].
Qed.

(** Every fallback suggestion names columns of the dataset: its y axis is
    a numeric column with a value of magnitude above 0.001 (never a date
    column), its x axis a column too, a date column for a line chart, a
    categorical column of 2 to 15 values for a pie, another numeric column
    for a scatter plot; only a line chart has a group-by field, a
    categorical column of 2 to 15 values; no area chart is suggested. *)
Theorem fallback_suggestion_fields (headers : list string)
  (rows : list JS.row) (s : suggestion) :
  In s (getFallbackSuggestions headers rows) ->
  let stat := columnStatsOf rows in
  let numericField h :=
    In h headers /\ type (stat h) = Numeric
    /\ hasNonZeroValues (stat h) = true in
  let categoryField h :=
    In h headers /\ type (stat h) = Categorical
    /\ (2 <= uniqueValues (stat h) <= 15)%nat in
  numericField (yAxis s)
  /\ (exists x,
        xAxis s = Some x /\ In x headers
        /\ (chartType s = Line -> type (stat x) = Date)
        /\ (chartType s = Pie -> categoryField x)
        /\ (chartType s = Scatter -> numericField x /\ x <> yAxis s))
  /\ (forall g, groupBy s = Some g -> chartType s = Line /\ categoryField g)
  /\ chartType s <> Area.
Proof.
  intros Hs stat numericField categoryField.
  assert (Hd : forall h, In h (dateFields (getDatasetStats headers rows)) ->
                 In h headers /\ type (stat h) = Date).
  { intros h H. apply dateFields_In in H. tauto. }
  assert (Hn : forall h, In h (numericFields (getDatasetStats headers rows)) ->
                 numericField h).
  { intros h H. apply numericFields_In in H. unfold numericField. tauto. }
  assert (Hc : forall h, In h (categoryFields (getDatasetStats headers rows)) ->
                 categoryField h).
  { intros h H. apply categoryFields_In in H. unfold categoryField. tauto. }
  assert (Hnd : NoDup (numericFields (getDatasetStats headers rows))).
  { apply (pool_NoDup headers rows
             (fun c => isType Numeric c && hasNonZeroValues c)). }
  unfold getFallbackSuggestions in Hs. cbv zeta in Hs.
  destruct (dateFields (getDatasetStats headers rows)) as [| d df];
    destruct (numericFields (getDatasetStats headers rows))
      as [| n0 [| n1 nf]];
    destruct (categoryFields (getDatasetStats headers rows)) as [| c cf];
    cbn [app In] in Hs;
    try contradiction;
    try (pose proof (Hd d (or_introl eq_refl)) as [Hd1 Hd2]);
    try (pose proof (Hn n0 (or_introl eq_refl)) as Hn0);
    try (pose proof (Hn n1 (or_intror (or_introl eq_refl))) as Hn1);
    try (pose proof (Hc c (or_introl eq_refl)) as Hc0);
    try (assert (Hne : n0 <> n1)
           by (inversion Hnd as [| ? ? Hnot _]; subst; intros ->;
               apply Hnot; left; reflexivity));
    repeat (destruct Hs as [<- | Hs]; [
      cbn [yAxis xAxis chartType groupBy];
      (split; [assumption |]);
      (split; [| split; [intros g [=]; subst; (split; [reflexivity | assumption])
                          || discriminate
                        | discriminate]]);
      try (eexists; split; [reflexivity |];
           split; [first [assumption | apply Hn0 | apply Hc0] |];
           split; [first [discriminate | intros _; assumption] |];
           split; [first [discriminate | intros _; assumption] |];
           first [discriminate | intros _; split; assumption])
    |]);
    try contradiction.
  (* the overview of a single numeric column *)
  all: destruct Hn0 as (Hin & Ht & Hz);
    destruct (first_header headers n0 Hin) as (h0 & E0 & Hh0);
    destruct (find (fun h => negb (String.eqb h n0)) headers) as [h |] eqn:Ef;
    [ apply find_some in Ef; destruct Ef as [Hh _];
      destruct (String.eqb h ""); [exists h0 | exists h]
    | exists h0 ];
    (split; [first [exact E0 | reflexivity] |]);
    (split; [assumption |]);
    repeat split; discriminate.
Qed.

(** The theorem at the pie suggested for twenty sales in three regions. *)
Lemma fallback_suggestion_fields_witness :
  exists s,
    In s (getFallbackSuggestions DashboardExamples.scenarioHeaders
            (DashboardExamples.scenarioRows DashboardExamples.compass
               DashboardExamples.growing))
    /\ chartType s = Pie
    /\ In (yAxis s) DashboardExamples.scenarioHeaders
    /\ type (columnStatsOf
               (DashboardExamples.scenarioRows DashboardExamples.compass
                  DashboardExamples.growing) (yAxis s)) = Numeric.
Proof.
  eexists. split; [vm_compute; right; right; left; reflexivity |].
  split; [reflexivity |].
  assert (Hin : In {| chartType := Pie; xAxis := Some "region"%string;
                      yAxis := "sales"%string; groupBy := None;
                      title := "Distribution of sales by region"%string;
                      description :=
                        "Shows the distribution of sales across region categories."%string |}
                  (getFallbackSuggestions DashboardExamples.scenarioHeaders
                     (DashboardExamples.scenarioRows DashboardExamples.compass
                        DashboardExamples.growing)))
    by (vm_compute; right; right; left; reflexivity).
  destruct (@fallback_suggestion_fields _ _ _ Hin)
    as ((Hh & Ht & _) & _).
  split; [exact Hh | exact Ht].
Defined.

End SuggestFacts.

(* ================================================================== *)
(** * The dashboard: what every new chart refers to *)
(* ================================================================== *)

Module DashboardFacts.

Import JS Dashboard PoolFacts SortFacts.
Local Open Scope string_scope.

(** ** The pools are made of headers *)

Section Pools.
Variable headers : list string.
Variable rows : list JS.row.

Lemma numericFields_incl : incl (numericFields headers rows) headers.
Proof. intros f H. apply filter_In in H. tauto. Qed.

Lemma dateFields_incl : incl (dateFields headers rows) headers.
Proof. intros f H. apply filter_In in H. tauto. Qed.

Lemma categoryFields_incl : incl (categoryFields headers rows) headers.
Proof. intros f H. apply filter_In in H. tauto. Qed.

Lemma goodCategoryFields_incl :
  incl (goodCategoryFields headers rows) (categoryFields headers rows).
Proof. intros f H. apply filter_In in H. tauto. Qed.

Lemma scoredNumericFields_perm :
  Permutation (scoredNumericFields headers rows) (numericFields headers rows).
Proof.
  unfold scoredNumericFields.
  apply perm_trans
    with (map fst
            (map (fun field =>
                    (field, getNumericFieldScore field (column rows field)))
               (numericFields headers rows))).
  - apply Permutation_map. apply sort_perm.
  - rewrite map_map. cbn [fst]. rewrite map_id. apply Permutation_refl.
Qed.

Lemma scoredNumericFields_incl :
  incl (scoredNumericFields headers rows) headers.
Proof.
  intros f H. apply numericFields_incl.
  apply (Permutation_in f scoredNumericFields_perm). exact H.
Qed.

End Pools.

(** ** The state after the selection *)

Section Selection.
Variable Math_sin : Double.num -> Double.num.
Variable Math_random : nat -> Double.num.

Lemma generateDemoData_state cd t st :
  fst (generateDemoData Math_sin Math_random cd t st) = demoFieldName t
  /\ charts (snd (generateDemoData Math_sin Math_random cd t st)) = charts st
  /\ currentData (snd (generateDemoData Math_sin Math_random cd t st))
     = Some {| headers := headers cd ++ [demoFieldName t]; rows := rows cd |}.
Proof.
  unfold generateDemoData.
  destruct (fillDemo Math_sin Math_random t _ (rows cd) (heap st) (draws st))
    as [h drawn].
  repeat split.
Qed.

(** The outcome of the choice of the y axis: a header, the state being
    as it was, or the demo field, the demo data being generated. *)
Lemma yValue_known cd t st (sf nf : list string) a st0 :
  incl sf (headers cd) -> incl nf (headers cd) ->
  match sf with
  | [] =>
      match nf with
      | [] => generateDemoData Math_sin Math_random cd t
      | n :: _ => fun st1 : state => (n, st1)
      end
  | s :: _ => fun st1 : state => (s, st1)
  end st = (a, st0) ->
  (In a (headers cd) /\ st0 = st)
  \/ (a = demoFieldName t
      /\ st0 = snd (generateDemoData Math_sin Math_random cd t st)).
Proof.
  intros Hs Hn. destruct sf as [| s sf'].
  - destruct nf as [| n nf'].
    + intros E. right.
      destruct (generateDemoData_state cd t st) as (Ed & _).
      rewrite E in Ed. cbn [fst] in Ed. rewrite E. cbn [snd]. tauto.
    + intros [= <- <-]. left. split; [apply Hn; left |]; reflexivity.
  - intros [= <- <-]. left. split; [apply Hs; left |]; reflexivity.
Qed.

(** What is known of the fields chosen and of the state they leave. *)
Let known (cd : dataset) (st st' : state)
  (x y g : option string) : Prop :=
  charts st' = charts st
  /\ exists cd1,
       currentData st' = Some cd1
       /\ incl (headers cd) (headers cd1)
       /\ rows cd1 = rows cd
       /\ (forall f, x = Some f -> In f (headers cd1))
       /\ (forall f, y = Some f -> In f (headers cd1))
       /\ (forall f, g = Some f -> In f (headers cd1)).

Lemma known_same cd st x y g :
  currentData st = Some cd ->
  (forall f, x = Some f -> In f (headers cd)) ->
  (forall f, y = Some f -> In f (headers cd)) ->
  (forall f, g = Some f -> In f (headers cd)) ->
  known cd st st x y g.
Proof.
  intros Hcd Hx Hy Hg. split; [reflexivity |]. exists cd.
  repeat split; try assumption. apply incl_refl.
Qed.

Lemma known_demo cd t st st0 x y g :
  charts st0 = charts st ->
  currentData st0
  = Some {| headers := headers cd ++ [demoFieldName t]; rows := rows cd |} ->
  (forall f, x = Some f -> In f (headers cd) \/ f = demoFieldName t) ->
  (forall f, y = Some f -> In f (headers cd) \/ f = demoFieldName t) ->
  (forall f, g = Some f -> In f (headers cd)) ->
  known cd st st0 x y g.
Proof.
  intros Hch Hdata Hx Hy Hg.
  split; [exact Hch |]. eexists. split; [exact Hdata |]. cbn [headers rows].
  split; [apply incl_appl, incl_refl |]. split; [reflexivity |].
  repeat split; intros f Hf; apply in_or_app.
  - destruct (Hx f Hf) as [H | ->]; [left; exact H | right; left; reflexivity].
  - destruct (Hy f Hf) as [H | ->]; [left; exact H | right; left; reflexivity].
  - left. apply Hg. exact Hf.
Qed.

Lemma known_after_yValue cd t st a st0 x g :
  currentData st = Some cd ->
  (In a (headers cd) /\ st0 = st)
  \/ (a = demoFieldName t
      /\ st0 = snd (generateDemoData Math_sin Math_random cd t st)) ->
  (forall f, x = Some f -> In f (headers cd)) ->
  (forall f, g = Some f -> In f (headers cd)) ->
  known cd st st0 x (Some a) g.
Proof.
  intros Hcd [[Ha ->] | [-> ->]] Hx Hg.
  - apply known_same; try assumption. intros f [= <-]. exact Ha.
  - destruct (generateDemoData_state cd t st) as (_ & Ec & Edata).
    apply known_demo with t; try assumption.
    + intros f Hf. left. apply Hx. exact Hf.
    + intros f [= <-]. right. reflexivity.
Qed.

Lemma selectFields_known cd data t st x y g st' :
  currentData st = Some cd ->
  selectFields Math_sin Math_random cd data t st = ((x, y, g), st') ->
  known cd st st' x y g.
Proof.
  intros Hcd. unfold selectFields. cbv zeta.
  pose proof (@numericFields_incl (headers cd) data) as Hn.
  pose proof (@scoredNumericFields_incl (headers cd) data) as Hs.
  pose proof (@dateFields_incl (headers cd) data) as Hd.
  pose proof (@categoryFields_incl (headers cd) data) as Hc.
  pose proof (fun f H => @categoryFields_incl (headers cd) data f
                           (@goodCategoryFields_incl (headers cd) data f H))
    as Hg.
  set (nf := numericFields (headers cd) data) in *.
  set (sf := scoredNumericFields (headers cd) data) in *.
  set (df := dateFields (headers cd) data) in *.
  set (cf := categoryFields (headers cd) data) in *.
  set (gf := goodCategoryFields (headers cd) data) in *.
  clearbody nf sf df cf gf.
  assert (Hh : forall f, nth_error (headers cd) 0 = Some f -> In f (headers cd)).
  { intros f H. eapply nth_error_In. exact H. }
  assert (Hx : forall f,
             match df with
             | [] =>
                 match gf with
                 | [] =>
                     match cf with
                     | [] => nth_error (headers cd) 0
                     | c :: _ => Some c
                     end
                 | g0 :: _ => Some g0
                 end
             | d :: _ => Some d
             end = Some f -> In f (headers cd)).
  { intros f. destruct df as [| d df']; [| intros [= <-]; apply Hd; left; reflexivity].
    destruct gf as [| g0 gf']; [| intros [= <-]; apply Hg; left; reflexivity].
    destruct cf as [| c cf']; [apply Hh |].
    intros [= <-]. apply Hc. left. reflexivity. }
  assert (Hp : forall f,
             match gf with
             | [] =>
                 match cf with
                 | [] => nth_error (headers cd) 0
                 | c :: _ => Some c
                 end
             | g0 :: _ => Some g0
             end = Some f -> In f (headers cd)).
  { intros f. destruct gf as [| g0 gf']; [| intros [= <-]; apply Hg; left; reflexivity].
    destruct cf as [| c cf']; [apply Hh |].
    intros [= <-]. apply Hc. left. reflexivity. }
  assert (Hgr : forall (p : string -> bool) f,
             match gf with
             | [] => None
             | [g0] => if p g0 then Some g0 else None
             | g0 :: _ :: _ =>
                 match find p gf with
                 | Some f0 => if String.eqb f0 "" then None else Some f0
                 | None => None
                 end
             end = Some f -> In f (headers cd)).
  { intros p f. destruct gf as [| g0 [| g1 gf']]; [discriminate | |].
    - destruct (p g0); [| discriminate]. intros [= <-]. apply Hg. left.
      reflexivity.
    - destruct (find p (g0 :: g1 :: gf')) as [f0 |] eqn:Ef; [| discriminate].
      destruct (String.eqb f0 ""); [discriminate |]. intros [= <-].
      apply find_some in Ef. apply Hg. tauto. }
  unfold bind, ret.
  destruct t.
  1-3: match goal with
       | |- (let (_, _) := ?m in _) = _ -> _ =>
           destruct m as [a st0] eqn:Ey
       end;
       intros [= <- <- <- <-];
       eapply known_after_yValue; try eassumption;
       [eapply yValue_known; [exact Hs | exact Hn | exact Ey] | apply Hgr].
  - match goal with
    | |- (let (_, _) := ?m in _) = _ -> _ =>
        destruct m as [a st0] eqn:Ey
    end.
    intros [= <- <- <- <-].
    eapply known_after_yValue; try eassumption;
      [eapply yValue_known; [exact Hs | exact Hn | exact Ey] | discriminate].
  - assert (Hg0 : forall f,
               match gf with g0 :: _ => Some g0 | [] => None end = Some f ->
               In f (headers cd)).
    { intros f. destruct gf as [| g0 gf']; [discriminate |].
      intros [= <-]. apply Hg. left. reflexivity. }
    destruct (generateDemoData_state cd Scatter st) as (Ed & Ec & Edata).
    pose proof (generateDemoData_state cd Scatter
                  (snd (generateDemoData Math_sin Math_random cd Scatter st)))
      as (Ed2 & Ec2 & Edata2).
    destruct sf as [| s0 [| s1 sf']]; destruct nf as [| n0 [| n1 nf']];
      try (intros [= <- <- <- <-]; apply known_same; try assumption;
           intros f [= <-];
           first [apply Hs; cbn; tauto | apply Hn; cbn; tauto]).
    all: try (destruct (generateDemoData Math_sin Math_random cd Scatter st)
                as [demo st0] eqn:Eg; cbn [fst snd] in *;
              try (destruct (generateDemoData Math_sin Math_random cd Scatter st0)
                     as [demo1 st1] eqn:Eg1; cbn [fst snd] in * );
              intros [= <- <- <- <-];
              apply known_demo with Scatter;
              [ congruence | assumption
              | intros f [= <-]; first [right; congruence
                                        | left; apply Hs; cbn; tauto
                                        | left; apply Hn; cbn; tauto]
              | intros f [= <-]; right; congruence
              | assumption ]).
Qed.


(** [selectFields] leaves the state as it was, or as one or two runs of
    [generateDemoData] leave it. *)
Lemma selectFields_states cd data t st sel st' :
  selectFields Math_sin Math_random cd data t st = (sel, st') ->
  let G s := snd (generateDemoData Math_sin Math_random cd t s) in
  st' = st \/ st' = G st \/ st' = G (G st).
Proof.
  intros E G. unfold G. clear G. revert E.
  unfold selectFields. cbv zeta. unfold bind, ret.
  destruct t.
  1-4: destruct (scoredNumericFields (headers cd) data) as [| s0 sf'];
       [destruct (numericFields (headers cd) data) as [| n0 nf'] |];
       try (intros [= <- <-]; left; reflexivity);
       destruct (generateDemoData Math_sin Math_random cd _ st)
         as [demo st0] eqn:Eg;
       intros [= <- <-]; right; left; reflexivity.
  destruct (scoredNumericFields (headers cd) data) as [| s0 [| s1 sf']];
    destruct (numericFields (headers cd) data) as [| n0 [| n1 nf']];
    try (intros [= <- <-]; left; reflexivity).
  all: destruct (generateDemoData Math_sin Math_random cd Scatter st)
         as [demo st0] eqn:Eg;
       try (destruct (generateDemoData Math_sin Math_random cd Scatter st0)
              as [demo1 st1] eqn:Eg1);
       intros [= <- <-];
       first [ right; left; reflexivity
             | right; right; cbn [snd]; rewrite ?Eg1; reflexivity ].
Qed.

(** ** The heap *)

Lemma get_put r k v k' :
  get (put r k v) k' = if String.eqb k' k then v else get r k'.
Proof.
  induction r as [| [k1 v1] r IH]; cbn.
  - destruct (String.eqb k' k); reflexivity.
  - destruct (String.eqb_spec k k1) as [-> | N]; cbn.
    + destruct (String.eqb k' k1); reflexivity.
    + destruct (String.eqb_spec k' k1) as [-> | N'].
      * destruct (String.eqb_spec k1 k); [congruence | reflexivity].
      * exact IH.
Qed.

Lemma hasKey_put r k v k' :
  hasKey (put r k v) k' = String.eqb k' k || hasKey r k'.
Proof.
  unfold hasKey. induction r as [| [k1 v1] r IH]; cbn.
  - rewrite orb_false_r. reflexivity.
  - destruct (String.eqb_spec k k1) as [-> | N]; cbn.
    + destruct (String.eqb k' k1); reflexivity.
    + rewrite IH. destruct (String.eqb k' k1), (String.eqb k' k); reflexivity.
Qed.

Lemma deref_assign h l k v l' :
  deref (assign h l k v) l'
  = if Nat.eqb l' l && (l <? List.length h)%nat
    then put (deref h l) k v else deref h l'.
Proof.
  unfold deref. revert l l'. induction h as [| r h IH]; intros l l'.
  - cbn. rewrite andb_false_r. destruct l; reflexivity.
  - destruct l as [| l]; cbn [assign].
    + destruct l' as [| l']; reflexivity.
    + destruct l' as [| l']; [reflexivity |]. cbn [nth]. rewrite IH.
      reflexivity.
Qed.

Lemma length_assign h l k v : List.length (assign h l k v) = List.length h.
Proof.
  revert l. induction h as [| r h IH]; intros l; [destruct l; reflexivity |].
  destruct l as [| l]; cbn; [reflexivity |]. rewrite IH. reflexivity.
Qed.

(** The cells [fillDemo] leaves as they are: all but the demo field. *)
Lemma fillDemo_frame t demoField (pairs : list (nat * nat)) h d l k :
  k <> demoField ->
  let h' := fst (fold_left
                   (fun (acc : list JS.row * nat) (ir : nat * nat) =>
                      let (v, random) :=
                        demoValue Math_sin Math_random t (fst ir) (snd acc) in
                      (assign (fst acc) (snd ir) demoField (JS.VNum v),
                       if random then S (snd acc) else snd acc))
                   pairs (h, d)) in
  get (deref h' l) k = get (deref h l) k
  /\ hasKey (deref h' l) k = hasKey (deref h l) k
  /\ List.length h' = List.length h.
Proof.
  intros Nk. revert h d. induction pairs as [| ir pairs IH]; intros h d h'.
  - repeat split.
  - unfold h'. cbn [fold_left fst snd].
    destruct (demoValue Math_sin Math_random t (fst ir) d) as [v random].
    destruct (IH (assign h (snd ir) demoField (JS.VNum v))
                 (if random then S d else d)) as (Hg & Hk & Hl).
    rewrite Hg, Hk, Hl, length_assign, deref_assign.
    destruct (Nat.eqb l (snd ir) && (snd ir <? List.length h)%nat) eqn:E;
      [| repeat split].
    apply andb_prop in E. destruct E as [E _]. apply Nat.eqb_eq in E. subst l.
    rewrite get_put, hasKey_put.
    destruct (String.eqb_spec k demoField); [contradiction |]. repeat split.
Qed.

Lemma generateDemoData_frame cd t st l k :
  k <> demoFieldName t ->
  let st' := snd (generateDemoData Math_sin Math_random cd t st) in
  get (deref (heap st') l) k = get (deref (heap st) l) k
  /\ hasKey (deref (heap st') l) k = hasKey (deref (heap st) l) k
  /\ List.length (heap st') = List.length (heap st).
Proof.
  intros Nk. unfold generateDemoData. cbv zeta.
  pose proof (@fillDemo_frame t (demoFieldName t)
                (combine (seq 0 (List.length (rows cd))) (rows cd))
                (heap st) (draws st) l k Nk) as H.
  cbv zeta in H. unfold fillDemo.
  fold (demoFieldName t).
  destruct (fold_left _ _ (heap st, draws st)) as [h drawn].
  cbn [fst snd heap] in *. exact H.
Qed.

Lemma selectFields_yAxis cd data t st x y g st' :
  selectFields Math_sin Math_random cd data t st = ((x, y, g), st') ->
  exists f, y = Some f.
Proof.
  unfold selectFields. cbv zeta. unfold bind, ret.
  destruct t.
  1-4: match goal with
       | |- (let (_, _) := ?m in _) = _ -> _ => destruct m as [a st0]
       end;
       intros [= <- <- <- <-]; eexists; reflexivity.
  destruct (scoredNumericFields (headers cd) data) as [| s0 [| s1 sf']];
    destruct (numericFields (headers cd) data) as [| n0 [| n1 nf']];
    try (intros [= <- <- <- <-]; eexists; reflexivity).
  all: destruct (generateDemoData Math_sin Math_random cd Scatter st)
         as [demo st0];
       try (destruct (generateDemoData Math_sin Math_random cd Scatter st0)
              as [demo1 st1]);
       intros [= <- <- <- <-]; eexists; reflexivity.
Qed.

Lemma lastConfig_added (st : state) (c : chart) :
  lastConfig {| heap := heap st; currentData := currentData st;
                charts := charts st ++ [c]; draws := draws st |}
  = Some (config c).
Proof. unfold lastConfig. cbn [charts]. rewrite rev_app_distr. reflexivity. Qed.

Lemma handleAddChart_added t o now st cd :
  currentData st = Some cd ->
  let sel := selectFields Math_sin Math_random cd
               (map (deref (heap st)) (rows cd)) t st in
  handleAddChart Math_sin Math_random t o now st
  = {| heap := heap (snd sel); currentData := currentData (snd sel);
       charts := charts (snd sel)
                 ++ [{| id := now; kind := t;
                        config := buildConfig t o (fst sel) |}];
       draws := draws (snd sel) |}.
Proof.
  intros Hcd sel. unfold handleAddChart. rewrite Hcd. fold sel.
  destruct sel as [s st']. reflexivity.
Qed.
End Selection.

(** A chart added without overrides refers to columns of the dataset only:
    its y axis is set, and its x axis, y axis and group-by field are
    headers of the dataset the dashboard holds afterwards, which has the
    headers it had (and the demo field after them when one was generated)
    and the same rows. *)
Theorem new_chart_fields_are_headers
  (Math_sin : Double.num -> Double.num) (Math_random : nat -> Double.num)
  (t : ChartType) (now : Z) (st : state) (cd : dataset) :
  currentData st = Some cd ->
  exists cfg cd1,
    lastConfig (handleAddChart Math_sin Math_random t noOverrides now st)
    = Some cfg
    /\ currentData (handleAddChart Math_sin Math_random t noOverrides now st)
       = Some cd1
    /\ (headers cd1 = headers cd
        \/ headers cd1 = (headers cd ++ [demoFieldName t])%list)
    /\ rows cd1 = rows cd
    /\ (exists y, yAxis cfg = Some y)
    /\ (forall f, xAxis cfg = Some f -> In f (headers cd1))
    /\ (forall f, yAxis cfg = Some f -> In f (headers cd1))
    /\ (forall f, groupBy cfg = Some f -> In f (headers cd1)).
Proof.
  intros Hcd. rewrite (@handleAddChart_added Math_sin Math_random t noOverrides now st cd Hcd).
  cbv zeta.
  destruct (selectFields Math_sin Math_random cd
              (map (deref (heap st)) (rows cd)) t st)
    as [[[x y] g] st'] eqn:E.
  cbn [fst snd].
  pose proof (@selectFields_yAxis _ _ _ _ _ _ _ _ _ _ E) as Hy.
  pose proof E as E'.
  apply (@selectFields_known Math_sin Math_random cd _ t st _ _ _ _ Hcd) in E.
  destruct E as (_ & cd1 & Hd1 & Hincl & Hrows & Hx & Hy' & Hg).
  exists (buildConfig t noOverrides (x, y, g)), cd1.
  rewrite lastConfig_added. cbn [config currentData buildConfig noOverrides
    o_xAxis o_yAxis o_groupBy o_title xAxis yAxis groupBy].
  split; [reflexivity |]. split; [exact Hd1 |].
  split.
  { (* the headers *)
    clear Hx Hy' Hg Hy. revert E'. unfold selectFields. cbv zeta.
    unfold bind, ret.
    assert (G : forall t0 st0,
               currentData st0 = Some cd \/
               currentData st0
               = Some {| headers := headers cd ++ [demoFieldName t0];
                         rows := rows cd |} ->
               currentData
                 (snd (generateDemoData Math_sin Math_random cd t0 st0))
               = Some {| headers := headers cd ++ [demoFieldName t0];
                         rows := rows cd |}).
    { intros t0 st0 _. apply generateDemoData_state. }
    destruct t.
    1-4: match goal with
         | |- (let (_, _) := ?m in _) = _ -> _ =>
             destruct m as [a st0] eqn:Ey
         end;
         intros [= <- <- <- <-];
         destruct (@yValue_known Math_sin Math_random cd _ st _ _ a st0
                     (@scoredNumericFields_incl _ _)
                     (@numericFields_incl _ _) Ey) as [[_ ->] | [_ ->]];
         [ left; congruence
         | right;
           match goal with
           | H : currentData (snd (generateDemoData _ _ _ ?t0 _)) = _ |- _ =>
               rewrite (G t0 st (or_introl Hcd)) in H
           end;
           injection Hd1 as <-; reflexivity ].
    destruct (scoredNumericFields (headers cd)
                (map (deref (heap st)) (rows cd))) as [| s0 [| s1 sf']];
      destruct (numericFields (headers cd)
                  (map (deref (heap st)) (rows cd))) as [| n0 [| n1 nf']];
      try (intros [= <- <- <- <-]; left; congruence).
    all: destruct (generateDemoData Math_sin Math_random cd Scatter st)
           as [demo st0] eqn:Eg;
         pose proof (G Scatter st (or_introl Hcd)) as G1;
         rewrite Eg in G1; cbn [snd] in G1;
         try (destruct (generateDemoData Math_sin Math_random cd Scatter st0)
                as [demo1 st1] eqn:Eg1;
              pose proof (G Scatter st0 (or_intror G1)) as G2;
              rewrite Eg1 in G2; cbn [snd] in G2);
         intros [= <- <- <- <-]; right;
         match goal with
         | H : currentData ?s = Some ?c, H' : currentData ?s = Some (Build_dataset _ _)
           |- headers ?c = _ =>
             rewrite H' in H; injection H as <-; reflexivity
         end. }
  split; [exact Hrows |]. split; [exact Hy |].
  split; [exact Hx |]. split; [exact Hy' | exact Hg].
Qed.

(** The theorem on the dataset of dates, regions and sales. *)
Lemma new_chart_fields_are_headers_witness :
  exists cfg cd1,
    lastConfig (handleAddChart DashboardExamples.noSin
                  DashboardExamples.noRandom Line noOverrides 0
                  (DashboardExamples.scenario DashboardExamples.compass
                     DashboardExamples.growing))
    = Some cfg
    /\ currentData (handleAddChart DashboardExamples.noSin
                      DashboardExamples.noRandom Line noOverrides 0
                      (DashboardExamples.scenario DashboardExamples.compass
                         DashboardExamples.growing))
       = Some cd1
    /\ (headers cd1 = DashboardExamples.scenarioHeaders
        \/ headers cd1
           = (DashboardExamples.scenarioHeaders ++ [demoFieldName Line])%list)
    /\ rows cd1 = seq 0 20
    /\ (exists y, yAxis cfg = Some y)
    /\ (forall f, xAxis cfg = Some f -> In f (headers cd1))
    /\ (forall f, yAxis cfg = Some f -> In f (headers cd1))
    /\ (forall f, groupBy cfg = Some f -> In f (headers cd1)).
Proof.
  apply (@new_chart_fields_are_headers DashboardExamples.noSin
           DashboardExamples.noRandom Line 0
           (DashboardExamples.scenario DashboardExamples.compass
              DashboardExamples.growing)
           {| headers := DashboardExamples.scenarioHeaders;
              rows := seq 0 20 |}).
  reflexivity.
Defined.

(** Deleting a chart by its id removes every chart added at that time: the
    chart just added and, with it, any earlier chart added in the same
    millisecond.  When no earlier chart has the id, adding a chart and
    deleting it leaves the list of charts as it was; deleting another id
    keeps the new chart. *)
Theorem delete_chart_after_add
  (Math_sin : Double.num -> Double.num) (Math_random : nat -> Double.num)
  (t : ChartType) (o : overrides) (now : Z) (st : state) (cd : dataset) :
  currentData st = Some cd ->
  let st1 := handleAddChart Math_sin Math_random t o now st in
  charts (handleDeleteChart now st1)
  = filter (fun c => negb (Z.eqb (id c) now)) (charts st)
  /\ ((forall c, In c (charts st) -> id c <> now) ->
      charts (handleDeleteChart now st1) = charts st)
  /\ (forall i, i <> now ->
      exists c, id c = now /\ kind c = t
                /\ charts (handleDeleteChart i st1)
                   = (filter (fun c => negb (Z.eqb (id c) i)) (charts st)
                      ++ [c])%list).
Proof.
  intros Hcd st1. unfold st1.
  rewrite (@handleAddChart_added Math_sin Math_random t o now st cd Hcd).
  cbv zeta.
  destruct (selectFields Math_sin Math_random cd
              (map (deref (heap st)) (rows cd)) t st)
    as [[[x y] g] st'] eqn:E.
  apply (@selectFields_known Math_sin Math_random cd _ t st _ _ _ _ Hcd) in E.
  destruct E as (Hch & _).
  unfold handleDeleteChart. cbn [charts fst snd]. rewrite Hch.
  rewrite !filter_app. cbn [filter id]. rewrite Z.eqb_refl. cbn [negb].
  rewrite app_nil_r.
  split; [reflexivity |]. split.
  - intros Hfresh. clear Hch.
    induction (charts st) as [| c l IH]; [reflexivity |]. cbn [filter].
    destruct (Z.eqb_spec (id c) now) as [Ec | _].
    + exfalso. apply (Hfresh c); [left; reflexivity | exact Ec].
    + cbn [negb]. f_equal. apply IH. intros c' Hc'. apply Hfresh.
      right. exact Hc'.
  - intros i Hi. eexists. split; [| split]; [| | rewrite filter_app; cbn [filter id]].
    3: { destruct (Z.eqb_spec now i) as [Ec | _]; [congruence |].
         cbn [negb]. reflexivity. }
    all: reflexivity.
Qed.

(** The theorem on the dataset of dates, regions and sales: a line chart
    added at time 5 and deleted. *)
Lemma delete_chart_after_add_witness :
  charts (handleDeleteChart 5
            (handleAddChart DashboardExamples.noSin DashboardExamples.noRandom
               Line noOverrides 5
               (DashboardExamples.scenario DashboardExamples.compass
                  DashboardExamples.growing)))
  = [].
Proof.
  destruct (@delete_chart_after_add DashboardExamples.noSin
              DashboardExamples.noRandom Line noOverrides 5
              (DashboardExamples.scenario DashboardExamples.compass
                 DashboardExamples.growing)
              {| headers := DashboardExamples.scenarioHeaders;
                 rows := seq 0 20 |} eq_refl) as (H & _).
  exact H.
Defined.

(** Adding a chart writes no cell other than the demo field: every other
    property of every row object is as it was, whatever the chart kind and
    the overrides, and no row object is added or removed. *)
Theorem add_chart_keeps_other_cells
  (Math_sin : Double.num -> Double.num) (Math_random : nat -> Double.num)
  (t : ChartType) (o : overrides) (now : Z) (st : state)
  (l : nat) (k : string) :
  k <> demoFieldName t ->
  let st1 := handleAddChart Math_sin Math_random t o now st in
  get (deref (heap st1) l) k = get (deref (heap st) l) k
  /\ hasKey (deref (heap st1) l) k = hasKey (deref (heap st) l) k
  /\ List.length (heap st1) = List.length (heap st).
Proof.
  intros Nk st1. unfold st1.
  destruct (currentData st) as [cd |] eqn:Hcd;
    [| unfold handleAddChart; rewrite Hcd; repeat split].
  rewrite (@handleAddChart_added Math_sin Math_random t o now st cd Hcd).
  cbv zeta. cbn [heap].
  destruct (selectFields Math_sin Math_random cd
              (map (deref (heap st)) (rows cd)) t st) as [sel st'] eqn:E.
  cbn [snd].
  destruct (@selectFields_states Math_sin Math_random cd _ t st sel st' E)
    as [-> | [-> | ->]].
  - repeat split.
  - apply generateDemoData_frame. exact Nk.
  - destruct (@generateDemoData_frame Math_sin Math_random cd t st l k Nk)
      as (H1 & H2 & H3).
    destruct (@generateDemoData_frame Math_sin Math_random cd t
                (snd (generateDemoData Math_sin Math_random cd t st)) l k Nk)
      as (G1 & G2 & G3).
    cbv zeta in *. rewrite G1, G2, G3. repeat split; assumption.
Qed.

(** The theorem on the imported row [{name: "a"}] and a bar chart. *)
Lemma add_chart_keeps_other_cells_witness :
  get (deref (heap (handleAddChart DashboardExamples.noSin
                      DashboardExamples.noRandom Bar noOverrides 0
                      (handleDataImported DashboardExamples.named
                         DashboardExamples.initial))) 0) "name"
  = VStr "a".
Proof.
  destruct (@add_chart_keeps_other_cells DashboardExamples.noSin
              DashboardExamples.noRandom Bar noOverrides 0
              (handleDataImported DashboardExamples.named
                 DashboardExamples.initial) 0 "name") as (H & _).
  - discriminate.
  - exact H.
Defined.

(** For a bar, line, area or pie chart added without overrides, the
    group-by field is never the x axis: a pie has none, and the others
    have one only among the categorical columns of 2 to 15 unique values,
    other than the x axis. *)
Theorem group_field_differs_from_x_axis
  (Math_sin : Double.num -> Double.num) (Math_random : nat -> Double.num)
  (t : ChartType) (now : Z) (st : state) (cd : dataset) :
  currentData st = Some cd ->
  t <> Scatter ->
  let data := map (deref (heap st)) (rows cd) in
  exists cfg,
    lastConfig (handleAddChart Math_sin Math_random t noOverrides now st)
    = Some cfg
    /\ (t = Pie -> groupBy cfg = None)
    /\ forall f, groupBy cfg = Some f ->
         xAxis cfg <> Some f
         /\ In f (categoryFields (headers cd) data)
         /\ (2 <= setSize (column data f) <= 15)%nat.
Proof.
  intros Hcd Ht data.
  rewrite (@handleAddChart_added Math_sin Math_random t noOverrides now st cd
             Hcd).
  cbv zeta. rewrite lastConfig_added. cbn [config]. fold data.
  eexists. split; [reflexivity |].
  assert (Hgood : forall f, In f (goodCategoryFields (headers cd) data) ->
            In f (categoryFields (headers cd) data)
            /\ (2 <= setSize (column data f) <= 15)%nat).
  { intros f H. apply filter_In in H. destruct H as [H Hs].
    apply andb_prop in Hs. destruct Hs as [H2 H15].
    apply Nat.leb_le in H2, H15. tauto. }
  unfold selectFields. cbv zeta. unfold bind, ret.
  set (gf := goodCategoryFields (headers cd) data) in *. clearbody gf.
  destruct t; try congruence;
    match goal with
    | |- context [let (_, _) := ?m in _] => destruct m as [a st0]
    end;
    cbn [fst buildConfig noOverrides o_xAxis o_yAxis o_groupBy o_title
         xAxis groupBy];
    (split; [first [reflexivity | discriminate] |]);
    try (intros f [=]; fail);
    intros f Hf;
    (destruct gf as [| g0 [| g1 gf']]; [discriminate | |]).
  all: try (match type of Hf with
            | (if ?b then _ else _) = _ => destruct b eqn:Eb; [| discriminate]
            end;
            injection Hf as <-;
            split; [| apply Hgood; left; reflexivity];
            intros Ex; rewrite Ex in Eb; cbn in Eb;
            rewrite String.eqb_refl in Eb; discriminate).
  all: match type of Hf with
       | match find ?p ?l with _ => _ end = _ =>
           destruct (find p l) as [f0 |] eqn:Ef; [| discriminate]
       end;
       destruct (String.eqb f0 ""); [discriminate |];
       injection Hf as <-;
       apply find_some in Ef; destruct Ef as [Hin Eb];
       split; [| apply Hgood; exact Hin];
       intros Ex; rewrite Ex in Eb; cbn in Eb;
       rewrite String.eqb_refl in Eb; discriminate.
Qed.

(** The theorem on the dataset of dates, regions and sales. *)
Lemma group_field_differs_from_x_axis_witness :
  exists cfg,
    lastConfig (handleAddChart DashboardExamples.noSin
                  DashboardExamples.noRandom Line noOverrides 0
                  (DashboardExamples.scenario DashboardExamples.compass
                     DashboardExamples.growing))
    = Some cfg
    /\ (Line = Pie -> groupBy cfg = None)
    /\ forall f, groupBy cfg = Some f ->
         xAxis cfg <> Some f
         /\ In f (categoryFields DashboardExamples.scenarioHeaders
                    (map (deref (DashboardExamples.scenarioRows
                                   DashboardExamples.compass
                                   DashboardExamples.growing))
                       (seq 0 20)))
         /\ (2 <= setSize
                    (column
                       (map (deref (DashboardExamples.scenarioRows
                                      DashboardExamples.compass
                                      DashboardExamples.growing))
                          (seq 0 20)) f) <= 15)%nat.
Proof.
  apply (@group_field_differs_from_x_axis DashboardExamples.noSin
           DashboardExamples.noRandom Line 0
           (DashboardExamples.scenario DashboardExamples.compass
              DashboardExamples.growing)
           {| headers := DashboardExamples.scenarioHeaders;
              rows := seq 0 20 |}).
  - reflexivity.
  - discriminate.
Defined.

(** [handleDataImported] keeps every row of a dataset of at most 10000
    rows and exactly 10000 rows of a larger one (an array has fewer than
    [2 ^ 32] rows), all of them rows of the import, under the imported
    headers; the row objects and the charts already on the dashboard are
    left as they are. *)
Theorem import_keeps_at_most_10000 (data : dataset) (st : state) :
  (Z.of_nat (List.length (rows data)) < 2 ^ 32)%Z ->
  exists cd,
    currentData (handleDataImported data st) = Some cd
    /\ headers cd = headers data
    /\ Z.of_nat (List.length (rows cd))
       = Z.min 10000 (Z.of_nat (List.length (rows data)))
    /\ ((Z.of_nat (List.length (rows data)) <= 10000)%Z ->
        rows cd = rows data)
    /\ incl (rows cd) (rows data)
    /\ charts (handleDataImported data st) = charts st
    /\ heap (handleDataImported data st) = heap st.
Proof.
  intros HL. unfold handleDataImported. cbv zeta.
  eexists. split; [reflexivity |]. cbn [headers rows charts heap].
  split; [reflexivity |].
  destruct (Z_le_gt_dec (Z.of_nat (List.length (rows data))) 10000)
    as [Hsmall | Hbig].
  - rewrite (@ReducerFacts.optimizeDataset_small nat (fun _ r => r)
               (fun _ _ => O) (rows data) 10000 (Some Reducer.Evenly) Hsmall).
    split; [lia |]. split; [reflexivity |]. split; [apply incl_refl |].
    split; reflexivity.
  - assert (HNL : (10000 < Z.of_nat (List.length (rows data)))%Z) by lia.
    rewrite (@ReducerFacts.optimizeDataset_sampled nat (fun _ r => r)
               (fun _ _ => O) (rows data) 10000 Reducer.Evenly HNL).
    split.
    + rewrite (@ReducerFacts.sample_evenly_length nat (fun _ _ => O)
                 (rows data) 10000 eq_refl HNL HL). lia.
    + split; [intros Hc; lia |]. split; [| split; reflexivity].
      apply (ReducerLaws.sample_incl (fun _ _ => O) (rows data)
               Reducer.Evenly HNL).
Qed.

(** The theorem on the imported dataset of one row. *)
Lemma import_keeps_at_most_10000_witness :
  exists cd,
    currentData (handleDataImported DashboardExamples.named
                   DashboardExamples.initial) = Some cd
    /\ headers cd = headers DashboardExamples.named
    /\ Z.of_nat (List.length (rows cd))
       = Z.min 10000 (Z.of_nat (List.length (rows DashboardExamples.named)))
    /\ ((Z.of_nat (List.length (rows DashboardExamples.named)) <= 10000)%Z ->
        rows cd = rows DashboardExamples.named)
    /\ incl (rows cd) (rows DashboardExamples.named)
    /\ charts (handleDataImported DashboardExamples.named
                 DashboardExamples.initial)
       = charts DashboardExamples.initial
    /\ heap (handleDataImported DashboardExamples.named
               DashboardExamples.initial)
       = heap DashboardExamples.initial.
Proof.
  apply (@import_keeps_at_most_10000 DashboardExamples.named
           DashboardExamples.initial).
  vm_compute. reflexivity.
Defined.

Lemma fillDemo_draws_scatter Math_sin Math_random demoField
  (enhancedData : list nat) h d :
  snd (fillDemo Math_sin Math_random Scatter demoField enhancedData h d)
  = (d + List.length enhancedData)%nat.
Proof.
  unfold fillDemo.
  assert (G : forall (pairs : list (nat * nat)) h0 d0,
             snd (fold_left
                    (fun (acc : list JS.row * nat) (ir : nat * nat) =>
                       let (v, random) :=
                         demoValue Math_sin Math_random Scatter (fst ir)
                           (snd acc) in
                       (assign (fst acc) (snd ir) demoField (JS.VNum v),
                        if random then S (snd acc) else snd acc))
                    pairs (h0, d0))
             = (d0 + List.length pairs)%nat).
  { induction pairs as [| ir pairs IH]; intros h0 d0; [cbn; lia |].
    cbn [fold_left demoValue fst snd List.length]. rewrite IH. lia. }
  rewrite G, length_combine, length_seq. lia.
Qed.

(** A scatter chart added, without overrides, for a dataset that has no
    numeric field plots the demo field against itself:
    [generateDemoData] runs twice, drawing two random numbers a row, and
    the x axis and the y axis are both "demo_scatter_value". *)
Theorem scatter_without_numeric_fields
  (Math_sin : Double.num -> Double.num) (Math_random : nat -> Double.num)
  (now : Z) (st : state) (cd : dataset) :
  currentData st = Some cd ->
  numericFields (headers cd) (map (deref (heap st)) (rows cd)) = [] ->
  let st1 := handleAddChart Math_sin Math_random Scatter noOverrides now st in
  exists cfg,
    lastConfig st1 = Some cfg
    /\ xAxis cfg = Some "demo_scatter_value"
    /\ yAxis cfg = Some "demo_scatter_value"
    /\ draws st1 = (draws st + 2 * List.length (rows cd))%nat
    /\ currentData st1
       = Some {| headers := headers cd ++ ["demo_scatter_value"];
                 rows := rows cd |}.
Proof.
  intros Hcd Hn st1. unfold st1.
  rewrite (@handleAddChart_added Math_sin Math_random Scatter noOverrides now
             st cd Hcd).
  cbv zeta. rewrite lastConfig_added. cbn [config draws currentData].
  eexists. split; [reflexivity |].
  unfold selectFields. cbv zeta. unfold bind, ret.
  pose proof (@scoredNumericFields_perm (headers cd)
                (map (deref (heap st)) (rows cd))) as Hp.
  rewrite Hn in Hp. apply Permutation_sym, Permutation_nil in Hp.
  rewrite Hp, Hn.
  assert (Gd : forall s0,
             draws (snd (generateDemoData Math_sin Math_random cd Scatter s0))
             = (draws s0 + List.length (rows cd))%nat).
  { intros s0. unfold generateDemoData. cbv zeta.
    pose proof (fillDemo_draws_scatter Math_sin Math_random
                  ("demo_" ++ chartTypeName Scatter ++ "_value")
                  (rows cd) (heap s0) (draws s0)) as D.
    destruct (fillDemo Math_sin Math_random Scatter
                ("demo_" ++ chartTypeName Scatter ++ "_value")
                (rows cd) (heap s0) (draws s0)) as [h1 d1].
    exact D. }
  destruct (@generateDemoData_state Math_sin Math_random cd Scatter st)
    as (N1 & _ & _).
  pose proof (Gd st) as D1.
  destruct (generateDemoData Math_sin Math_random cd Scatter st)
    as [a st0] eqn:E1.
  destruct (@generateDemoData_state Math_sin Math_random cd Scatter st0)
    as (N2 & _ & C2).
  pose proof (Gd st0) as D2.
  destruct (generateDemoData Math_sin Math_random cd Scatter st0)
    as [a0 st2] eqn:E2.
  cbn [fst snd buildConfig noOverrides o_xAxis o_yAxis xAxis yAxis] in *.
  subst a a0. rewrite D2, D1, C2.
  repeat split. lia.
Qed.

(** The theorem on the imported dataset of the row [{name: "a"}]. *)
Lemma scatter_without_numeric_fields_witness :
  exists cfg,
    lastConfig (handleAddChart DashboardExamples.noSin
                  DashboardExamples.noRandom Scatter noOverrides 0
                  (handleDataImported DashboardExamples.named
                     DashboardExamples.initial))
    = Some cfg
    /\ xAxis cfg = Some "demo_scatter_value"
    /\ yAxis cfg = Some "demo_scatter_value"
    /\ draws (handleAddChart DashboardExamples.noSin
                DashboardExamples.noRandom Scatter noOverrides 0
                (handleDataImported DashboardExamples.named
                   DashboardExamples.initial))
       = (draws (handleDataImported DashboardExamples.named
                   DashboardExamples.initial)
          + 2 * List.length (rows DashboardExamples.named))%nat
    /\ currentData (handleAddChart DashboardExamples.noSin
                      DashboardExamples.noRandom Scatter noOverrides 0
                      (handleDataImported DashboardExamples.named
                         DashboardExamples.initial))
       = Some {| headers := headers DashboardExamples.named
                            ++ ["demo_scatter_value"];
                 rows := rows DashboardExamples.named |}.
Proof.
  apply (@scatter_without_numeric_fields DashboardExamples.noSin
           DashboardExamples.noRandom 0
           (handleDataImported DashboardExamples.named
              DashboardExamples.initial) DashboardExamples.named).
  - reflexivity.
  - reflexivity.
Defined.

(** ** Fields named like identifiers *)





Lemma filter_none (A : Type) (f : A -> bool) l :
  (forall x, In x l -> f x = false) -> filter f l = [].
Proof.
  induction l as [| a l IH]; intros H; [reflexivity |]. cbn [filter].
  rewrite (H a (or_introl eq_refl)). apply IH. intros x Hx. apply H.
  right. exact Hx.
Qed.

(** For a dataset whose columns are all named like identifiers every pool
    is empty: a bar, line, area or pie chart added without overrides takes
    the first header for its x axis all the same, takes the demo field for
    its y axis, and has no group-by field. *)
Theorem chart_of_id_named_columns
  (Math_sin : Double.num -> Double.num) (Math_random : nat -> Double.num)
  (t : ChartType) (now : Z) (st : state) (cd : dataset) :
  currentData st = Some cd ->
  Forall (fun h => idNamePattern h = true) (headers cd) ->
  t <> Scatter ->
  lastConfig (handleAddChart Math_sin Math_random t noOverrides now st)
  = Some {| cType := t;
            xAxis := nth_error (headers cd) 0;
            yAxis := Some (demoFieldName t);
            groupBy := None;
            title := defaultTitle t |}.
Proof.
  intros Hcd Hid Ht.
  rewrite (@handleAddChart_added Math_sin Math_random t noOverrides now st cd
             Hcd).
  cbv zeta. rewrite lastConfig_added. cbn [config].
  set (data := map (deref (heap st)) (rows cd)).
  assert (Hlike : forall h, In h (headers cd) ->
            isIdLikeField h (column data h) = true).
  { intros h Hh. rewrite Forall_forall in Hid. unfold isIdLikeField.
    rewrite (Hid h Hh). reflexivity. }
  assert (En : numericFields (headers cd) data = []).
  { apply filter_none. intros h Hh. rewrite (Hlike h Hh). reflexivity. }
  assert (Ed : dateFields (headers cd) data = []).
  { apply filter_none. intros h Hh. rewrite (Hlike h Hh). reflexivity. }
  assert (Ec : categoryFields (headers cd) data = []).
  { unfold categoryFields. apply filter_none. intros h Hh.
    rewrite (Hlike h Hh). reflexivity. }
  assert (Eg : goodCategoryFields (headers cd) data = []).
  { unfold goodCategoryFields. rewrite Ec. reflexivity. }
  assert (Es : scoredNumericFields (headers cd) data = []).
  { pose proof (@scoredNumericFields_perm (headers cd) data) as Hp.
    rewrite En in Hp. apply Permutation_sym, Permutation_nil in Hp. exact Hp. }
  unfold selectFields. cbv zeta. unfold bind, ret.
  rewrite En, Ed, Ec, Eg, Es.
  destruct (@generateDemoData_state Math_sin Math_random cd t st) as (N1 & _).
  destruct t; try congruence;
    destruct (generateDemoData Math_sin Math_random cd _ st) as [a st0];
    cbn [fst] in *; subst a; reflexivity.
Qed.

(** The theorem on a dataset of the single column "user_id". *)
Lemma chart_of_id_named_columns_witness :
  lastConfig
    (handleAddChart DashboardExamples.noSin DashboardExamples.noRandom Bar
       noOverrides 0
       {| heap := [[("user_id", VStr "u1")]];
          currentData := Some {| headers := ["user_id"]; rows := [O] |};
          charts := []; draws := O |})
  = Some {| cType := Bar;
            xAxis := nth_error ["user_id"] 0;
            yAxis := Some (demoFieldName Bar);
            groupBy := None;
            title := defaultTitle Bar |}.
Proof.
  apply (@chart_of_id_named_columns DashboardExamples.noSin
           DashboardExamples.noRandom Bar 0
           {| heap := [[("user_id", VStr "u1")]];
              currentData := Some {| headers := ["user_id"]; rows := [O] |};
              charts := []; draws := O |}
           {| headers := ["user_id"]; rows := [O] |}).
  - reflexivity.
  - repeat constructor.
  - discriminate.
Defined.



End DashboardFacts.

(* ================================================================== *)
(** * The effect of the chart component *)
(* ================================================================== *)

Module EffectFacts.

Import Chart DashboardFacts.
Local Open Scope string_scope.

(** ** The conversion of an item *)

Lemma orZero_not_NaN n : Double.isNaN (JS.orZero n) = false.
Proof.
  unfold JS.orZero. destruct n as [| | | q]; try reflexivity.
  cbn [Double.truthy]. destruct (negb (Qeq_bool q 0)); reflexivity.
Qed.

(** The y axis of an item once converted. *)
Lemma convertItem_yAxis config item y :
  yAxis config = Some y -> given (yAxis config) = true ->
  JS.get (convertItem config item) y
  = match JS.get item y with
    | JS.VStr s => JS.VNum (JS.orZero (JS.parseFloat s))
    | JS.VPrim p => JS.VPrim p
    end.
Proof.
  intros Hy Hg. unfold convertItem. rewrite Hy. rewrite Hy in Hg.
  rewrite Hg. cbv zeta.
  set (r1 := match JS.get item y with
             | JS.VStr s => JS.put item y (JS.VNum (JS.orZero (JS.parseFloat s)))
             | JS.VPrim _ => item
             end).
  assert (E1 : JS.get r1 y
               = match JS.get item y with
                 | JS.VStr s => JS.VNum (JS.orZero (JS.parseFloat s))
                 | JS.VPrim p => JS.VPrim p
                 end).
  { unfold r1. destruct (JS.get item y) as [s | p] eqn:E.
    - rewrite get_put, String.eqb_refl. reflexivity.
    - exact E. }
  destruct (cType config); try exact E1.
  destruct (xAxis config) as [x |]; [| exact E1].
  destruct (given (Some x)); [| exact E1].
  destruct (JS.get r1 x) as [s | p] eqn:Ex; [| exact E1].
  destruct (JS.plainNumberPattern s); [| exact E1].
  rewrite get_put. destruct (String.eqb_spec y x) as [-> | N]; [| exact E1].
  rewrite Ex in E1. destruct (JS.get item x); discriminate.
Qed.

(** The other properties of an item once converted. *)
Lemma convertItem_other config item k :
  yAxis config <> Some k ->
  (cType config = Scatter -> xAxis config <> Some k) ->
  JS.get (convertItem config item) k = JS.get item k.
Proof.
  intros Ny Nx. unfold convertItem. cbv zeta.
  set (r1 := match yAxis config with
             | Some y =>
                 if given (yAxis config)
                 then match JS.get item y with
                      | JS.VStr s =>
                          JS.put item y (JS.VNum (JS.orZero (JS.parseFloat s)))
                      | JS.VPrim _ => item
                      end
                 else item
             | None => item
             end).
  assert (E1 : JS.get r1 k = JS.get item k).
  { unfold r1. destruct (yAxis config) as [y |]; [| reflexivity].
    destruct (given (Some y)); [| reflexivity].
    destruct (JS.get item y); [| reflexivity].
    rewrite get_put. destruct (String.eqb_spec k y); [congruence | reflexivity]. }
  destruct (cType config) eqn:Et; try exact E1.
  destruct (xAxis config) as [x |]; [| exact E1].
  destruct (given (Some x)); [| exact E1].
  destruct (JS.get r1 x) as [s | p]; [| exact E1].
  destruct (JS.plainNumberPattern s); [| exact E1].
  rewrite get_put. destruct (String.eqb_spec k x) as [-> | N]; [| exact E1].
  exfalso. apply Nx; reflexivity.
Qed.

(** Converting a converted item changes nothing. *)
Lemma convertItem_idempotent config item :
  convertItem config (convertItem config item) = convertItem config item.
Proof.
  unfold convertItem at 1. cbv zeta.
  set (out := convertItem config item).
  assert (Hy : forall y, yAxis config = Some y -> given (yAxis config) = true ->
             JS.isString (JS.get out y) = false).
  { intros y Ey Hg. unfold out. rewrite (convertItem_yAxis config item Ey Hg).
    destruct (JS.get item y); reflexivity. }
  assert (E1 : match yAxis config with
               | Some y =>
                   if given (yAxis config)
                   then match JS.get out y with
                        | JS.VStr s =>
                            JS.put out y
                              (JS.VNum (JS.orZero (JS.parseFloat s)))
                        | JS.VPrim _ => out
                        end
                   else out
               | None => out
               end = out).
  { destruct (yAxis config) as [y |] eqn:Ey; [| reflexivity].
    destruct (given (Some y)) eqn:Hg; [| reflexivity].
    specialize (Hy y eq_refl eq_refl).
    destruct (JS.get out y); [discriminate | reflexivity]. }
  rewrite E1.
  destruct (cType config) eqn:Et; try reflexivity.
  destruct (xAxis config) as [x |] eqn:Ex; [| reflexivity].
  destruct (given (Some x)) eqn:Hg; [| reflexivity].
  destruct (JS.get out x) as [s | p] eqn:Eo; [| reflexivity].
  destruct (JS.plainNumberPattern s) eqn:Ep; [| reflexivity].
  exfalso. revert Eo. unfold out, convertItem. cbv zeta.
  rewrite Et, Ex, Hg.
  set (r1 := match yAxis config with
             | Some y => _
             | None => item
             end).
  destruct (JS.get r1 x) as [s1 | p1] eqn:E1x.
  - destruct (JS.plainNumberPattern s1) eqn:Ep1.
    + rewrite get_put, String.eqb_refl. discriminate.
    + rewrite E1x. intros [= ->]. congruence.
  - rewrite E1x. discriminate.
Qed.

(** The first step of the effect converts the y axis of every item: a
    string becomes the number [parseFloat] reads, or 0 when it reads none
    (never NaN); any other value is left as it is, as is every other
    property but the x axis of a scatter plot; and converting again
    changes nothing. *)
Theorem converted_item (config : ChartConfig) (item : JS.row) (y : string) :
  yAxis config = Some y -> given (yAxis config) = true ->
  JS.isString (JS.get (convertItem config item) y) = false
  /\ (forall s, JS.get item y = JS.VStr s ->
        JS.get (convertItem config item) y
        = JS.VNum (JS.orZero (JS.parseFloat s))
        /\ Double.isNaN (JS.orZero (JS.parseFloat s)) = false)
  /\ (forall p, JS.get item y = JS.VPrim p ->
        JS.get (convertItem config item) y = JS.VPrim p)
  /\ (forall k, k <> y ->
        (cType config = Scatter -> xAxis config <> Some k) ->
        JS.get (convertItem config item) k = JS.get item k)
  /\ convertItem config (convertItem config item) = convertItem config item.
Proof.
  intros Ey Hg. rewrite (convertItem_yAxis config item Ey Hg).
  split; [destruct (JS.get item y); reflexivity |].
  split; [intros s ->; split; [reflexivity | apply orZero_not_NaN] |].
  split; [intros p ->; reflexivity |].
  split; [| apply convertItem_idempotent].
  intros k Nk Nx. apply convertItem_other; [| exact Nx].
  rewrite Ey. congruence.
Qed.

(** The theorem on a customer whose amount is written "12.5kg". *)
Lemma converted_item_witness :
  JS.isString
    (JS.get (convertItem (ChartExamples.chartOf Bar None)
               [("id", JS.VStr "C1"); ("v", JS.VStr "12.5kg")]) "v") = false
  /\ JS.get (convertItem (ChartExamples.chartOf Bar None)
               [("id", JS.VStr "C1"); ("v", JS.VStr "12.5kg")]) "id"
     = JS.VStr "C1".
Proof.
  destruct (@converted_item (ChartExamples.chartOf Bar None)
              [("id", JS.VStr "C1"); ("v", JS.VStr "12.5kg")] "v"
              eq_refl eq_refl) as (H1 & _ & _ & H4 & _).
  split; [exact H1 |]. apply H4; discriminate.
Defined.

(** ** The aggregation by [config.groupBy] *)

Lemma eqb_refl_notNaN a : Double.isNaN a = false -> Double.eqb a a = true.
Proof.
  destruct a; cbn; try reflexivity; try discriminate.
  intros _. apply Qeq_bool_iff. reflexivity.
Qed.

Lemma eqb_sym a b : Double.eqb a b = Double.eqb b a.
Proof.
  destruct a, b; cbn; try reflexivity.
  destruct (Qeq_bool q q0) eqn:E, (Qeq_bool q0 q) eqn:E'; try reflexivity.
  - apply Qeq_bool_iff in E. symmetry in E. apply Qeq_bool_iff in E. congruence.
  - apply Qeq_bool_iff in E'. symmetry in E'. apply Qeq_bool_iff in E'.
    congruence.
Qed.

Lemma eqb_trans a b c :
  Double.eqb a b = true -> Double.eqb b c = true -> Double.eqb a c = true.
Proof.
  destruct a, b, c; cbn; try discriminate; try reflexivity.
  intros H1 H2. apply Qeq_bool_iff in H1, H2. apply Qeq_bool_iff.
  rewrite H1. exact H2.
Qed.

Lemma strictEquals_sym a b : JS.strictEquals a b = JS.strictEquals b a.
Proof.
  destruct a as [s | [| | x | x]], b as [t | [| | y | y]]; cbn;
    try reflexivity.
  - apply String.eqb_sym.
  - destruct x, y; reflexivity.
  - apply eqb_sym.
Qed.

Lemma sameValueZero_sym a b : JS.sameValueZero a b = JS.sameValueZero b a.
Proof.
  assert (S : forall u v, JS.strictEquals u v = JS.strictEquals v u)
    by apply strictEquals_sym.
  destruct a as [s | [| | x | []]], b as [t | [| | y | []]];
    unfold JS.sameValueZero; try apply S; reflexivity.
Qed.

Lemma sameValueZero_refl a : JS.sameValueZero a a = true.
Proof.
  destruct a as [s | [| | x | x]]; cbn; try reflexivity.
  - apply String.eqb_refl.
  - destruct x; reflexivity.
  - destruct x; cbn; try reflexivity. apply Qeq_bool_iff. reflexivity.
Qed.

Lemma sameValueZero_trans a b c :
  JS.sameValueZero a b = true -> JS.sameValueZero b c = true ->
  JS.sameValueZero a c = true.
Proof.
  destruct a as [s | [| | [] | []]], b as [t | [| | [] | []]],
    c as [u | [| | [] | []]]; cbn; try discriminate; try reflexivity.
  - intros H1 H2. apply String.eqb_eq in H1, H2. subst. apply String.eqb_refl.
  - intros H1 H2. apply Qeq_bool_iff in H1, H2. apply Qeq_bool_iff.
    rewrite H1. exact H2.
Qed.

(** A value added at the end of a list joins the set when it is new. *)
Lemma setOf_snoc l v :
  JS.setOf (l ++ [v])
  = if existsb (fun k => JS.sameValueZero k v) (JS.setOf l)
    then JS.setOf l else (JS.setOf l ++ [v])%list.
Proof.
  induction l as [| a l IH]; [reflexivity |].
  cbn [app JS.setOf existsb]. rewrite IH.
  destruct (JS.sameValueZero a v) eqn:Eav; cbn [orb].
  - destruct (existsb (fun k => JS.sameValueZero k v) (JS.setOf l));
      [reflexivity |].
    rewrite filter_app. cbn [filter]. rewrite Eav. cbn [negb].
    rewrite app_nil_r. reflexivity.
  - assert (E : existsb (fun k => JS.sameValueZero k v)
                  (filter (fun y => negb (JS.sameValueZero a y)) (JS.setOf l))
                = existsb (fun k => JS.sameValueZero k v) (JS.setOf l)).
    { clear IH. induction (JS.setOf l) as [| k r IHr]; [reflexivity |].
      cbn [filter existsb].
      destruct (JS.sameValueZero a k) eqn:Eak; cbn [negb].
      + rewrite IHr.
        destruct (JS.sameValueZero k v) eqn:Ekv; [| reflexivity].
        rewrite (sameValueZero_trans _ _ _ Eak Ekv) in Eav. discriminate.
      + cbn [existsb]. rewrite IHr. reflexivity. }
    rewrite E.
    destruct (existsb (fun k => JS.sameValueZero k v) (JS.setOf l));
      [reflexivity |].
    rewrite filter_app. cbn [filter]. rewrite Eav. reflexivity.
Qed.

Lemma setOf_length l : (List.length (JS.setOf l) <= List.length l)%nat.
Proof.
  induction l as [| a l IH]; [apply Nat.le_refl |].
  cbn [JS.setOf List.length]. apply le_n_S.
  etransitivity; [apply filter_length_le | exact IH].
Qed.

Section Grouping.
Variable Number_toString : Double.num -> string.
Variables g x y : string.

Let step (groupedData : list (JS.value * JS.row)) (item : JS.row) :=
  groupItem groupedData (JS.get item x)
    (fun entry =>
       JS.put (JS.put entry (toPropertyKey Number_toString (JS.get item g))
                 (JS.VPrim (yValue (JS.get item y))))
         x (JS.get item x)).

Lemma groupItem_keys m v upd :
  map fst (groupItem m v upd)
  = if existsb (fun k => JS.sameValueZero k v) (map fst m)
    then map fst m else (map fst m ++ [v])%list.
Proof.
  induction m as [| [k e] m IH]; [reflexivity |].
  cbn [groupItem map fst existsb].
  destruct (JS.sameValueZero k v); cbn [orb map fst]; [reflexivity |].
  rewrite IH.
  destruct (existsb (fun k0 => JS.sameValueZero k0 v) (map fst m));
    reflexivity.
Qed.

Lemma grouped_keys rows :
  map fst (fold_left step rows []) = JS.setOf (JS.column rows x).
Proof.
  induction rows as [| item rows IH] using rev_ind; [reflexivity |].
  rewrite fold_left_app. cbn [fold_left]. unfold step at 1.
  rewrite groupItem_keys, IH. unfold JS.column. rewrite map_app.
  cbn [map]. rewrite setOf_snoc. reflexivity.
Qed.

Lemma groupItem_updated m v upd :
  exists k e, In (k, upd e) (groupItem m v upd)
              /\ JS.sameValueZero k v = true.
Proof.
  induction m as [| [k e] m IH].
  - exists v, []. split; [left; reflexivity | apply sameValueZero_refl].
  - cbn [groupItem]. destruct (JS.sameValueZero k v) eqn:E.
    + exists k, e. split; [left; reflexivity | exact E].
    + destruct IH as (k' & e' & Hin & Hk). exists k', e'.
      split; [right; exact Hin | exact Hk].
Qed.

Lemma groupRows_fold rows :
  groupRows Number_toString g x y rows = map snd (fold_left step rows []).
Proof. reflexivity. Qed.

End Grouping.

Lemma groupRows_count (Number_toString : Double.num -> string)
  (g x y : string) (rows : list JS.row) :
  List.length (groupRows Number_toString g x y rows)
  = JS.setSize (JS.column rows x).
Proof.
  rewrite groupRows_fold, length_map.
  rewrite <- (length_map fst), grouped_keys. reflexivity.
Qed.

Lemma setSize_le rows x :
  (JS.setSize (JS.column rows x) <= List.length rows)%nat.
Proof.
  unfold JS.setSize. etransitivity; [apply setOf_length |].
  unfold JS.column. rewrite length_map. apply Nat.le_refl.
Qed.

Lemma setSize_positive rows x :
  rows <> [] -> (1 <= JS.setSize (JS.column rows x))%nat.
Proof.
  destruct rows as [| item rows]; [congruence |]. intros _.
  unfold JS.setSize. cbn [JS.column map JS.setOf List.length]. lia.
Qed.

(** The aggregation by [config.groupBy] returns one row for each distinct
    x value of the data, so never more rows than it is given and at least
    one when there is data. *)
Theorem one_row_for_each_x_value (Number_toString : Double.num -> string)
  (g x y : string) (rows : list JS.row) :
  List.length (groupRows Number_toString g x y rows)
  = JS.setSize (JS.column rows x)
  /\ (List.length (groupRows Number_toString g x y rows)
      <= List.length rows)%nat
  /\ (groupRows Number_toString g x y rows = [] <-> rows = []).
Proof.
  pose proof (groupRows_count Number_toString g x y rows) as E.
  split; [exact E |]. split.
  - rewrite E. apply setSize_le.
  - split.
    + intros H. rewrite H in E. cbn [List.length] in E.
      destruct rows as [| item rows]; [reflexivity |].
      pose proof (@setSize_positive (item :: rows) x) as P.
      assert (N : item :: rows <> []) by discriminate.
      specialize (P N). lia.
    + intros ->. reflexivity.
Qed.

(** The values of the rows of one x value and one group are not added up:
    the last row of the data is found in the result with its own y value,
    whatever the rows before it hold.  (An assignment to ["__proto__"]
    defines no property, and the x value is written after the y value.) *)
Theorem last_row_overwrites (Number_toString : Double.num -> string)
  (g x y : string) (rows : list JS.row) (item : JS.row) :
  x <> "__proto__" ->
  toPropertyKey Number_toString (JS.get item g) <> "__proto__" ->
  toPropertyKey Number_toString (JS.get item g) <> x ->
  exists entry,
    In entry (groupRows Number_toString g x y (rows ++ [item]))
    /\ JS.get entry x = JS.get item x
    /\ JS.get entry (toPropertyKey Number_toString (JS.get item g))
       = JS.VPrim (yValue (JS.get item y)).
Proof.
  intros _ _ Nx. rewrite groupRows_fold, fold_left_app. cbn [fold_left].
  set (m := fold_left _ rows []).
  destruct (groupItem_updated m (JS.get item x)
              (fun entry =>
                 JS.put (JS.put entry
                           (toPropertyKey Number_toString (JS.get item g))
                           (JS.VPrim (yValue (JS.get item y))))
                   x (JS.get item x))) as (k & e & Hin & _).
  eexists. split; [apply in_map_iff; eexists; split; [| exact Hin];
                   reflexivity |].
  cbn [snd]. split.
  - rewrite get_put, String.eqb_refl. reflexivity.
  - rewrite get_put.
    destruct (String.eqb_spec (toPropertyKey Number_toString (JS.get item g)) x)
      as [E | _]; [contradiction |].
    rewrite get_put, String.eqb_refl. reflexivity.
Qed.

(** The theorem at two sales of one region on one day. *)
Lemma last_row_overwrites_witness :
  exists entry,
    In entry
      (groupRows (fun _ => "") "region" "date" "sales"
         ([[("date", JS.VStr "2024-01-01"); ("region", JS.VStr "North");
            ("sales", JS.VNum (Double.ofZ 5))]]
          ++ [[("date", JS.VStr "2024-01-01"); ("region", JS.VStr "North");
               ("sales", JS.VNum (Double.ofZ 7))]]))
    /\ JS.get entry "North" = JS.VNum (Double.ofZ 7).
Proof.
  destruct (@last_row_overwrites (fun _ => "") "region" "date" "sales"
              [[("date", JS.VStr "2024-01-01"); ("region", JS.VStr "North");
                ("sales", JS.VNum (Double.ofZ 5))]]
              [("date", JS.VStr "2024-01-01"); ("region", JS.VStr "North");
               ("sales", JS.VNum (Double.ofZ 7))])
    as (entry & Hin & _ & Hv); [discriminate | discriminate | discriminate |].
  exists entry. split; [exact Hin | exact Hv].
Defined.

(** ** The bucketing and the values it cannot read *)

Lemma fillPieBuckets_throws x y rows :
  allStrings x rows = false -> fillPieBuckets x y rows = TypeError.
Proof.
  intros Hs. unfold fillPieBuckets.
  apply BucketFacts.fold_error with
    (stepR := fun buckets item =>
       match JS.get item x with
       | JS.VStr id =>
           match JS.firstDigit id with
           | Some d =>
               Ok (addToBucket buckets (groupName d) (yValue (JS.get item y)))
           | None => Ok buckets
           end
       | JS.VPrim _ => TypeError
       end)
    (bad := fun item => negb (JS.isString (JS.get item x))).
  - intros item m. destruct (JS.get item x); [discriminate | reflexivity].
  - unfold allStrings in Hs.
    induction rows as [| item rows IH]; [discriminate |].
    cbn [forallb existsb] in *.
    destruct (JS.isString (JS.get item x)); [apply IH; exact Hs | reflexivity].
Qed.

(** A chart that is not bucketed is left as it is, whatever its rows. *)
Lemma idBuckets_unbucketed cfg rows :
  barBucketing cfg rows = false -> idBuckets cfg rows = Ok None.
Proof.
  unfold idBuckets, barBucketing.
  destruct (cType cfg); try reflexivity;
    (destruct (given (xAxis cfg) && given (yAxis cfg)
               && negb (given (groupBy cfg))); cbn [andb]; [| reflexivity];
     unfold JS.setSize;
     destruct (10 <? List.length
                       (JS.setOf (JS.column rows (keyOf (xAxis cfg)))))%nat;
     cbn [andb]; [| reflexivity];
     destruct rows as [| item rows]; [reflexivity |];
     cbn [looksLikeIds];
     destruct (JS.get item (keyOf (xAxis cfg))) as [s | p];
       [intros ->; reflexivity | reflexivity]).
Qed.

Lemma idBuckets_bucketed cfg rows :
  barBucketing cfg rows = true ->
  idBuckets cfg rows
  = rbind (fillBuckets (keyOf (xAxis cfg)) (keyOf (yAxis cfg)) rows)
      (fun buckets =>
         match map (averageRow (keyOf (xAxis cfg)) (keyOf (yAxis cfg)))
                 buckets with
         | _ :: _ =>
             Ok (Some (map (averageRow (keyOf (xAxis cfg))
                              (keyOf (yAxis cfg))) buckets))
         | [] => Ok None
         end).
Proof.
  unfold idBuckets, barBucketing.
  destruct (cType cfg); try discriminate;
    (destruct (given (xAxis cfg) && given (yAxis cfg)
               && negb (given (groupBy cfg))); cbn [andb]; [| discriminate];
     unfold JS.setSize;
     destruct (10 <? List.length
                       (JS.setOf (JS.column rows (keyOf (xAxis cfg)))))%nat;
     cbn [andb]; [| discriminate];
     destruct rows as [| item rows]; [discriminate |];
     cbn [looksLikeIds];
     destruct (JS.get item (keyOf (xAxis cfg))) as [s | p];
       [intros ->; reflexivity | discriminate]).
Qed.

(** The bucketing is the one place where the processing of the rows can
    fail: it throws a [TypeError] exactly when the chart is bucketed and
    the x value of some row is not a string, for the bars, lines and areas
    of the effect and for the pie alike. *)
Theorem bucketing_throws_on_other_than_strings (cfg : ChartConfig)
  (rows : list JS.row) :
  (idBuckets cfg rows = TypeError
   <-> barBucketing cfg rows = true
       /\ allStrings (keyOf (xAxis cfg)) rows = false)
  /\ (pieData cfg rows = TypeError
      <-> pieBucketing cfg rows = true
          /\ allStrings (keyOf (xAxis cfg)) rows = false).
Proof.
  split; split.
  - intros H.
    destruct (allStrings (keyOf (xAxis cfg)) rows) eqn:Hs.
    + rewrite (@BucketFacts.idBuckets_grouped cfg rows Hs) in H. discriminate.
    + destruct (barBucketing cfg rows) eqn:Hb; [split; reflexivity |].
      rewrite (@idBuckets_unbucketed cfg rows Hb) in H. discriminate.
  - intros [Hb Hs]. rewrite (@idBuckets_bucketed cfg rows Hb).
    rewrite (@BucketFacts.fillBuckets_throws _ _ rows Hs). reflexivity.
  - intros H. unfold pieData in H.
    destruct (allStrings (keyOf (xAxis cfg)) rows) eqn:Hs.
    + rewrite (@BucketFacts.pieSlices_grouped cfg rows Hs) in H. discriminate.
    + unfold pieSlices in H.
      rewrite BucketFacts.needsGrouping_pieBucketing in H.
      destruct (pieBucketing cfg rows); [split; reflexivity | discriminate].
  - intros [Hb Hs]. unfold pieData, pieSlices.
    rewrite BucketFacts.needsGrouping_pieBucketing, Hb.
    rewrite (@fillPieBuckets_throws _ _ rows Hs). reflexivity.
Qed.

(** ** The size of the result *)

Lemma firstDigit_is_digit s d :
  JS.firstDigit s = Some d -> JS.is_digit d = true.
Proof.
  induction s as [| c s IH]; [discriminate |]. cbn [JS.firstDigit].
  destruct (JS.is_digit c) eqn:E; [intros [= <-]; exact E | exact IH].
Qed.

Lemma is_digit_listed d :
  JS.is_digit d = true ->
  In d ["0"; "1"; "2"; "3"; "4"; "5"; "6"; "7"; "8"; "9"]%char.
Proof.
  destruct d as [[] [] [] [] [] [] [] []]; cbn; try discriminate;
    intros _; tauto.
Qed.

Lemma firsts_length l : (List.length (firsts l) <= List.length l)%nat.
Proof.
  induction l as [| d l IH]; [apply Nat.le_refl |].
  cbn [firsts List.length]. apply le_n_S.
  etransitivity; [apply filter_length_le | exact IH].
Qed.

Lemma digits_length x rows :
  (List.length (digits x rows) <= List.length rows)%nat.
Proof.
  unfold digits. etransitivity; [apply firsts_length |].
  induction rows as [| item rows IH]; [apply Nat.le_refl |].
  cbn [flat_map]. rewrite length_app. cbn [List.length].
  destruct (digitOf x item); cbn [List.length]; lia.
Qed.

Lemma digits_at_most_ten x rows : (List.length (digits x rows) <= 10)%nat.
Proof.
  change 10%nat with
    (List.length ["0"; "1"; "2"; "3"; "4"; "5"; "6"; "7"; "8"; "9"]%char).
  apply NoDup_incl_length; [apply BucketFacts.firsts_NoDup |].
  intros d Hd. apply BucketFacts.digits_in in Hd.
  destruct Hd as (item & _ & Hd). apply is_digit_listed.
  unfold digitOf in Hd. destruct (JS.get item x) as [s | p]; [| discriminate].
  exact (firstDigit_is_digit _ Hd).
Qed.

Lemma idBuckets_digits (cfg : ChartConfig) (rows out : list JS.row) :
  idBuckets cfg rows = Ok (Some out) ->
  barBucketing cfg rows = true
  /\ List.length out = List.length (digits (keyOf (xAxis cfg)) rows).
Proof.
  intros H.
  destruct (allStrings (keyOf (xAxis cfg)) rows) eqn:Hs.
  - rewrite (@BucketFacts.idBuckets_grouped cfg rows Hs) in H.
    destruct (barBucketing cfg rows) eqn:Hb; [| discriminate].
    injection H as <-. rewrite length_map. split; reflexivity.
  - destruct (barBucketing cfg rows) eqn:Hb.
    + rewrite (@idBuckets_bucketed cfg rows Hb) in H.
      rewrite (@BucketFacts.fillBuckets_throws _ _ rows Hs) in H.
      discriminate.
    + rewrite (@idBuckets_unbucketed cfg rows Hb) in H. discriminate.
Qed.

Lemma barBucketing_sizes (cfg : ChartConfig) (rows : list JS.row) :
  barBucketing cfg rows = true ->
  (10 < List.length rows)%nat
  /\ (1 <= List.length (digits (keyOf (xAxis cfg)) rows))%nat.
Proof.
  intros Hb. unfold barBucketing in Hb.
  assert (H : (10 <? JS.setSize (JS.column rows (keyOf (xAxis cfg))))%nat
              = true
              /\ looksLikeIds (keyOf (xAxis cfg)) rows = true).
  { destruct (cType cfg); try discriminate;
      apply andb_prop in Hb; destruct Hb as [Hb Hl];
      apply andb_prop in Hb; destruct Hb as [_ Hb]; split; assumption. }
  destruct H as [Hl Hi]. apply Nat.ltb_lt in Hl.
  pose proof (setSize_le rows (keyOf (xAxis cfg))) as Hle.
  split; [lia |].
  pose proof (BucketFacts.digits_nonempty _ _ Hi) as Hn.
  destruct (digits (keyOf (xAxis cfg)) rows); [congruence | cbn; lia].
Qed.

(** The rows that replace the data of a bucketed bar, line or area chart
    are at least one and at most ten, one for each first digit, and fewer
    than the rows they replace. *)
Theorem bucketed_chart_has_at_most_ten_rows (cfg : ChartConfig)
  (rows out : list JS.row) :
  idBuckets cfg rows = Ok (Some out) ->
  (1 <= List.length out <= 10)%nat
  /\ (List.length out < List.length rows)%nat.
Proof.
  intros H. destruct (idBuckets_digits _ _ H) as [Hb ->].
  destruct (barBucketing_sizes _ _ Hb) as [Hmany Hone].
  pose proof (digits_at_most_ten (keyOf (xAxis cfg)) rows) as Hten.
  split; [split; [exact Hone | exact Hten] |].
  apply Nat.le_lt_trans with (m := 10%nat); [exact Hten | exact Hmany].
Qed.

(** The theorem at a bar chart of eleven customers. *)
Lemma bucketed_chart_has_at_most_ten_rows_witness :
  exists out,
    idBuckets (ChartExamples.chartOf Bar None) ChartExamples.customers
    = Ok (Some out)
    /\ (1 <= List.length out <= 10)%nat
    /\ (List.length out < List.length ChartExamples.customers)%nat.
Proof.
  eexists. split; [vm_compute; reflexivity |].
  apply (@bucketed_chart_has_at_most_ten_rows
           (ChartExamples.chartOf Bar None) ChartExamples.customers).
  vm_compute. reflexivity.
Defined.

(** For data that is not empty, the effect hands the chart at least one
    row and never more rows than the data has. *)
Theorem processed_rows_within_data (Number_toString : Double.num -> string)
  (cfg : ChartConfig) (data out : list JS.row) :
  data <> [] ->
  processData Number_toString cfg data = Ok out ->
  (1 <= List.length out <= List.length data)%nat.
Proof.
  intros Hne. unfold processData. cbv zeta.
  set (t0 := map (convertItem cfg) data).
  set (t1 := if given (groupBy cfg) && given (xAxis cfg) && given (yAxis cfg)
             then groupRows Number_toString (keyOf (groupBy cfg))
                    (keyOf (xAxis cfg)) (keyOf (yAxis cfg)) t0
             else t0).
  assert (L0 : List.length t0 = List.length data) by apply length_map.
  assert (P0 : (1 <= List.length data)%nat).
  { destruct data; [congruence | cbn; lia]. }
  assert (L1 : (1 <= List.length t1 <= List.length data)%nat).
  { unfold t1.
    destruct (given (groupBy cfg) && given (xAxis cfg) && given (yAxis cfg));
      [| lia].
    rewrite groupRows_count.
    pose proof (setSize_le t0 (keyOf (xAxis cfg))) as Hle.
    assert (N0 : t0 <> []).
    { intros E. rewrite E in L0. cbn in L0. lia. }
    pose proof (setSize_positive (keyOf (xAxis cfg)) N0) as Hpos. lia. }
  destruct (idBuckets cfg t1) as [[agg |] |] eqn:Eb; cbn [rbind];
    [| | discriminate].
  - intros [= <-]. destruct (idBuckets_digits _ _ Eb) as [Hb ->].
    destruct (barBucketing_sizes _ _ Hb) as [_ Hone].
    pose proof (digits_length (keyOf (xAxis cfg)) t1) as Hd. lia.
  - intros [= <-]. exact L1.
Qed.

(** The theorem at the eleven customers, which leave one bar. *)
Lemma processed_rows_within_data_witness :
  exists out,
    processData (fun _ => "") (ChartExamples.chartOf Bar None)
      ChartExamples.customers = Ok out
    /\ (1 <= List.length out <= List.length ChartExamples.customers)%nat.
Proof.
  eexists. split; [vm_compute; reflexivity |].
  apply (@processed_rows_within_data (fun _ => "")
           (ChartExamples.chartOf Bar None) ChartExamples.customers).
  - discriminate.
  - vm_compute. reflexivity.
Defined.

End EffectFacts.
